(** * Resume ingestion and retry pipeline: a shallow embedding

    The development follows the Python sources of the ingestion core:

    - [app/services/retry_processor.py]   (module [RetryProcessor])
    - [app/services/contact_extractor.py] (module [ContactExtractor])
    - [app/services/file_validator.py]    (module [FileValidator])
    - [app/controllers/resume_controller.py] (module [ResumeController])

    Python values are modelled as they are used by the code: [str] as
    [string] (a sequence of ASCII code points), [bytes] as [list byte],
    [float] as the kernel's binary64 numbers, [int] counters as [nat] or [Z],
    a JSON object as a finite map from keys to values.  Exceptions are explicit
    results; collaborators outside the core (the [re] module, the text
    extractor, the structured-field extractor, the record store) are taken as
    parameters that answer each call. *)

From Stdlib Require Import ZArith Floats Ascii String DecimalString Bool Lia.
From Stdlib.Strings Require Import Byte.
From stdpp Require Import gmap strings list.

Set Warnings "-inexact-float,-register-all".
Set Default Proof Using "Type".

(* ===================================================================== *)
(** * Part I: definitions *)
(* ===================================================================== *)

(** ** Python built-ins used by the sources *)

Module Py.

#[global] Instance byte_eq_decision : EqDecision byte := Byte.byte_eq_dec.

(** [str.isspace] on one ASCII character: TAB, LF, VT, FF, CR, the four
    separators 0x1c-0x1f and the space. *)
Definition isspace (c : ascii) : bool :=
  let n := nat_of_ascii c in
  ((9 <=? n) && (n <=? 13)) || ((28 <=? n) && (n <=? 32)).

(** The whitespace of [bytes.strip]: [b' \t\n\r\x0b\x0c']. *)
Definition bytes_isspace (b : byte) : bool :=
  let n := Byte.to_nat b in
  ((9 <=? n) && (n <=? 13)) || (n =? 32).

Fixpoint lstrip_with {A} (sp : A -> bool) (l : list A) : list A :=
  match l with
  | [] => []
  | c :: r => if sp c then lstrip_with sp r else l
  end.

Definition strip_with {A} (sp : A -> bool) (l : list A) : list A :=
  rev (lstrip_with sp (rev (lstrip_with sp l))).

(** [s.strip()] *)
Definition strip (s : string) : string :=
  string_of_list_ascii (strip_with isspace (list_ascii_of_string s)).

(** [b.strip()] on bytes *)
Definition bytes_strip (b : list byte) : list byte := strip_with bytes_isspace b.

Definition lower_ascii (c : ascii) : ascii :=
  let n := nat_of_ascii c in
  if (65 <=? n) && (n <=? 90) then ascii_of_nat (n + 32) else c.

(** [s.lower()] *)
Definition lower (s : string) : string :=
  string_of_list_ascii (map lower_ascii (list_ascii_of_string s)).

(** [l.startswith(p)] *)
Fixpoint startswith {A} `{EqDecision A} (p l : list A) : bool :=
  match p, l with
  | [], _ => true
  | _ :: _, [] => false
  | a :: p', b :: l' => if decide (a = b) then startswith p' l' else false
  end.

(** [p in l] for sequences: [p] occurs as a contiguous slice of [l]. *)
Fixpoint contains {A} `{EqDecision A} (p l : list A) : bool :=
  startswith p l ||
  match l with
  | [] => false
  | _ :: l' => contains p l'
  end.

(** [sub in s] on strings *)
Definition str_contains (sub s : string) : bool :=
  contains (list_ascii_of_string sub) (list_ascii_of_string s).

(** [sep.join(l)] *)
Fixpoint join (sep : string) (l : list string) : string :=
  match l with
  | [] => ""
  | [x] => x
  | x :: r => x +:+ sep +:+ join sep r
  end.

(** [s.split(c)] for a one-character separator. *)
Fixpoint split_on (c : ascii) (s : string) : list string :=
  match s with
  | EmptyString => [EmptyString]
  | String a r =>
      if decide (a = c) then EmptyString :: split_on c r
      else match split_on c r with
           | [] => [String a EmptyString]
           | w :: ws => String a w :: ws
           end
  end.

(** Truth value of a [str]: the empty string is false. *)
Definition str_truthy (s : string) : bool :=
  match s with EmptyString => false | _ => true end.

(** Truth value of an [Optional[str]]. *)
Definition opt_truthy (o : option string) : bool :=
  match o with Some s => str_truthy s | None => false end.

(** [a or b] on [Optional[str]] operands *)
Definition opt_or (a b : option string) : option string :=
  if opt_truthy a then a else b.

(** [max(a, b)] and [min(a, b)] of two floats, as the built-ins pick. *)
Definition fmax (a b : float) : float := if PrimFloat.ltb a b then b else a.
Definition fmin (a b : float) : float := if PrimFloat.ltb b a then b else a.

(** [range(n)] for an [int] bound [n]: empty when [n <= 0]. *)
Definition range (n : Z) : list nat := seq 0 (Z.to_nat n).

(** [s.lstrip('.')] *)
Definition lstrip_dots (s : string) : string :=
  string_of_list_ascii
    (lstrip_with (fun c => Ascii.eqb c ".") (list_ascii_of_string s)).

(** The values a decoded JSON document is made of ([float] numbers left
    out).  A nested object keeps its items in order; the record handed to the
    controller is a finite map (see [ResumeController]). *)
Inductive value : Type :=
| PyNone
| PyBool (b : bool)
| PyInt (n : Z)
| PyStr (s : string)
| PyList (l : list value)
| PyDict (d : list (string * value)).

(** [bool(v)] *)
Definition truthy (v : value) : bool :=
  match v with
  | PyNone => false
  | PyBool b => b
  | PyInt n => negb (n =? 0)%Z
  | PyStr s => str_truthy s
  | PyList l => match l with [] => false | _ => true end
  | PyDict d => match d with [] => false | _ => true end
  end.

(** [repr(v)]; a string is quoted with single quotes and no escapes, which
    is what [repr] gives for text without quotes, backslashes and control
    characters. *)
Fixpoint repr (v : value) : string :=
  match v with
  | PyNone => "None"
  | PyBool true => "True"
  | PyBool false => "False"
  | PyInt n => NilZero.string_of_int (Z.to_int n)
  | PyStr s => "'" +:+ s +:+ "'"
  | PyList l => "[" +:+ join ", " (map repr l) +:+ "]"
  | PyDict d =>
      "{" +:+ join ", " (map (fun kv => "'" +:+ fst kv +:+ "': " +:+ repr (snd kv)) d)
          +:+ "}"
  end.

(** [str(v)] *)
Definition str (v : value) : string :=
  match v with
  | PyStr s => s
  | _ => repr v
  end.

(** [isinstance(v, list)] *)
Definition is_list (v : value) : bool :=
  match v with PyList _ => true | _ => false end.

(** [v.strip()]: defined on [str] only; [None] stands for the
    [AttributeError] any other value raises. *)
Definition method_strip (v : value) : option string :=
  match v with
  | PyStr s => Some (strip s)
  | _ => None
  end.

(** [float(a) / float(b)] for two lengths (exact below 2^53, as is [a / b]
    on such [int]s). *)
Definition true_div (a c : nat) : float :=
  (PrimFloat.of_uint63 (Uint63.of_Z (Z.of_nat a))
   / PrimFloat.of_uint63 (Uint63.of_Z (Z.of_nat c)))%float.

End Py.

(* --------------------------------------------------------------------- *)
(** ** [retry_processor.py] *)
(* --------------------------------------------------------------------- *)

Module RetryProcessor.

(** [class RetryStrategy(Enum)] *)
Inductive RetryStrategy : Type :=
| STANDARD
| ENHANCED_PREPROCESSING
| FALLBACK_EXTRACTION
| MANUAL_EXTRACTION.

(** The classes of [error_handler.py] derived from [ResumeParsingError]
    (the taxonomy), the base class included. *)
Inductive ErrorClass : Type :=
| ResumeParsingError
| ContactInfoMissingError
| TextExtractionError
| AIParsingError
| FileTypeError
| FileCorruptedError
| ContactExtractionError.

(** What an attempt raises: a taxonomy error, caught by
    [except ResumeParsingError], or any other exception. *)
Inductive Raised : Type :=
| Taxonomy (e : ErrorClass) (message : string)
| Unexpected (message : string).

Inductive Outcome (R : Type) : Type :=
| Returned (r : R)
| Raises (e : Raised).
Arguments Returned {R} r.
Arguments Raises {R} e.

(** [@dataclass RetryAttempt]; times are not modelled. *)
Record RetryAttempt : Type := mkAttempt {
  attempt_number : nat;
  strategy : RetryStrategy;
  success : bool;
  error : option (ErrorClass * string)
}.

(** The dictionary returned by [process_with_retry]. *)
Record RetryResult (R : Type) : Type := mkResult {
  res_success : bool;
  res_result : option R;
  res_error : option Raised;
  res_attempts : list RetryAttempt
}.
Arguments mkResult {R}.
Arguments res_success {R}.
Arguments res_result {R}.
Arguments res_error {R}.
Arguments res_attempts {R}.

Definition total_attempts {R} (r : RetryResult R) : nat := length (res_attempts r).

(** [self.strategy_map]: keyed by the exact class of the last error. *)
Definition strategy_map (e : ErrorClass) : option (list RetryStrategy) :=
  match e with
  | ContactInfoMissingError =>
      Some [ENHANCED_PREPROCESSING; FALLBACK_EXTRACTION; MANUAL_EXTRACTION]
  | AIParsingError =>
      Some [ENHANCED_PREPROCESSING; FALLBACK_EXTRACTION; STANDARD]
  | _ => None
  end.

Definition fallback_strategies : list RetryStrategy :=
  [ENHANCED_PREPROCESSING; FALLBACK_EXTRACTION; MANUAL_EXTRACTION].

(** [_get_strategy_for_attempt(attempt_num, last_error)].  Past the first
    [return], [attempt_num >= 1], so [attempt_num - 1] is a valid natural. *)
Definition _get_strategy_for_attempt
    (attempt_num : nat) (last_error : option ErrorClass) : RetryStrategy :=
  if (attempt_num =? 0)%nat then STANDARD
  else
    let mapped :=
      match last_error with
      | Some e =>
          match strategy_map e with
          | Some strategies =>
              if (attempt_num - 1 <? length strategies)%nat
              then strategies !! (attempt_num - 1)%nat
              else None
          | None => None
          end
      | None => None
      end in
    match mapped with
    | Some s => s
    | None =>
        if (attempt_num - 1 <? length fallback_strategies)%nat
        then default STANDARD (fallback_strategies !! (attempt_num - 1)%nat)
        else STANDARD
    end.

Section Retry.

Context {R : Type}.

(** [self.max_retries]: any [int] the constructor was given. *)
Variable max_retries : Z.

(** [_process_with_strategy] on this file: what the attempt with index
    [attempt_num] does when run with the given strategy. *)
Variable run : nat -> RetryStrategy -> Outcome R.

(** The body of [for attempt_num in range(self.max_retries + 1)], over the
    remaining indices, with the locals [attempts] and [last_error].  [None]
    is the loop running out without a [return]. *)
Fixpoint retry_loop (indices : list nat) (attempts : list RetryAttempt)
    (last_error : option ErrorClass) : option (RetryResult R) :=
  match indices with
  | [] => None
  | attempt_num :: rest =>
      let strategy := _get_strategy_for_attempt attempt_num last_error in
      match run attempt_num strategy with
      | Returned result =>
          let attempts := attempts ++ [mkAttempt (attempt_num + 1) strategy true None] in
          Some (mkResult true (Some result) None attempts)
      | Raises (Taxonomy e msg) =>
          let attempts :=
            attempts ++ [mkAttempt (attempt_num + 1) strategy false (Some (e, msg))] in
          if (max_retries <=? Z.of_nat attempt_num)%Z
          then Some (mkResult false None (Some (Taxonomy e msg)) attempts)
          else retry_loop rest attempts (Some e)
      | Raises (Unexpected msg) =>
          Some (mkResult false None (Some (Unexpected msg)) attempts)
      end
  end.

(** [process_with_retry] *)
Definition process_with_retry : option (RetryResult R) :=
  retry_loop (Py.range (max_retries + 1)) [] None.

(** The value of the local [last_error] when attempt [k] starts, given that
    the attempts before it were caught by [except ResumeParsingError]. *)
Fixpoint last_error_at (k : nat) : option ErrorClass :=
  match k with
  | O => None
  | S i =>
      match run i (_get_strategy_for_attempt i (last_error_at i)) with
      | Raises (Taxonomy e _) => Some e
      | _ => None
      end
  end.

Definition strategy_at (k : nat) : RetryStrategy :=
  _get_strategy_for_attempt k (last_error_at k).

(** Attempt [i] runs and is caught as a taxonomy failure. *)
Definition fails_at (i : nat) : Prop :=
  exists e msg, run i (strategy_at i) = Raises (Taxonomy e msg).

(** The log entry of a failed attempt [i]. *)
Definition failed_entry (i : nat) : option RetryAttempt :=
  match run i (strategy_at i) with
  | Raises (Taxonomy e msg) => Some (mkAttempt (i + 1) (strategy_at i) false (Some (e, msg)))
  | _ => None
  end.

End Retry.

(** The log of any returned result: entry [i] carries number [i + 1] and the
    strategy chosen from the error class of entry [i - 1]. *)
Definition log_ok (attempts : list RetryAttempt) : Prop :=
  forall i a, attempts !! i = Some a ->
    attempt_number a = i + 1 /\
    match i with
    | O => strategy a = STANDARD
    | S i' => exists b e msg, attempts !! i' = Some b /\ error b = Some (e, msg) /\
                strategy a = _get_strategy_for_attempt i (Some e)
    end.

Definition last_class (attempts : list RetryAttempt) : option ErrorClass :=
  match last attempts with
  | Some a => fst <$> error a
  | None => None
  end.

(** Sample runs: one whose first attempt fails in AI parsing and whose
    second attempt raises an exception outside the taxonomy, and one whose
    every attempt fails for missing contact fields. *)
Definition run_unexpected_second (i : nat) (s : RetryStrategy) : Outcome nat :=
  match i with
  | 0 => Raises (Taxonomy AIParsingError "AI parsing failed: bad json")
  | _ => Raises (Unexpected "connection reset")
  end.

Definition run_contact_missing (i : nat) (s : RetryStrategy) : Outcome nat :=
  Raises (Taxonomy ContactInfoMissingError "Missing required fields: email, phone").

End RetryProcessor.

(* --------------------------------------------------------------------- *)
(** ** [file_validator.py] *)
(* --------------------------------------------------------------------- *)

Module FileValidator.

(** [@dataclass FileValidationResult] *)
Record FileValidationResult : Type := mkValidation {
  is_valid : bool;
  file_type : string;
  is_metadata : bool;
  is_corrupted : bool;
  error_message : option string;
  suggested_action : option string
}.

(** [p.rfind(c)]: the index of the last [c], or [-1]. *)
Fixpoint rfind_from (c : ascii) (l : list ascii) (i : Z) (found : Z) : Z :=
  match l with
  | [] => found
  | a :: r => rfind_from c r (i + 1) (if Ascii.eqb a c then i else found)
  end.

Definition rfind (c : ascii) (l : list ascii) : Z := rfind_from c l 0 (-1).

(** [os.path.splitext] of [posixpath]: the extension starts at the last dot
    of the last path component, leading dots of that component set aside. *)
Definition splitext (p : string) : string * string :=
  let l := list_ascii_of_string p in
  let sepIndex := rfind "/" l in
  let dotIndex := rfind "." l in
  if (sepIndex <? dotIndex)%Z then
    let component_head :=
      take (Z.to_nat (dotIndex - (sepIndex + 1))) (drop (Z.to_nat (sepIndex + 1)) l) in
    if existsb (fun c => negb (Ascii.eqb c ".")) component_head
    then (string_of_list_ascii (take (Z.to_nat dotIndex) l),
          string_of_list_ascii (drop (Z.to_nat dotIndex) l))
    else (p, EmptyString)
  else (p, EmptyString).

(** [self.metadata_extensions] *)
Definition metadata_extensions : list string := [".json"; ".metadata.json"; ".meta"].

(** The keys of [self.supported_types], in insertion order. *)
Definition supported_types : list string := [".pdf"; ".docx"; ".doc"; ".txt"; ".rtf"].

Definition b (s : string) : list byte := list_byte_of_string s.

Definition PK (x y : byte) : list byte := b "PK" ++ [x; y].
Definition OLE2 : list byte := [xd0; xcf; x11; xe0; xa1; xb1; x1a; xe1].
Definition RTF : list byte := b "{\rtf".

(** [self.magic_bytes], in insertion order. *)
Definition magic_bytes : list (list byte * string) :=
  [(b "%PDF", ".pdf"); (PK x03 x04, ".docx"); (PK x05 x06, ".docx");
   (PK x07 x08, ".docx"); (OLE2, ".doc"); (RTF, ".rtf")].

(** [_is_metadata_file] *)
Definition _is_metadata_file (filename : string) : bool :=
  let file_extension := Py.lower (snd (splitext filename)) in
  bool_decide (file_extension ∈ metadata_extensions)
  || Py.str_contains "metadata" (Py.lower filename).

(** [_detect_file_type] *)
Fixpoint detect_in (table : list (list byte * string)) (file_content : list byte)
    : option string :=
  match table with
  | [] => None
  | (magic, file_type) :: rest =>
      if Py.startswith magic file_content then Some file_type
      else detect_in rest file_content
  end.

Definition _detect_file_type (file_content : list byte) : option string :=
  detect_in magic_bytes file_content.

(** The per-type validators return [(is_corrupted, error_msg)]. *)
Definition _validate_pdf (file_content : list byte) : bool * option string :=
  if negb (Py.startswith (b "%PDF") file_content) then
    (true, Some "Invalid PDF header")
  else if negb (Py.contains (b "%%EOF") file_content) then
    (true, Some "PDF file appears to be incomplete")
  else if Py.contains [x00; x00; x00; x00] (take 1000 file_content) then
    (true, Some "PDF file appears to be corrupted")
  else (false, None).

Definition _validate_docx (file_content : list byte) : bool * option string :=
  if negb (Py.startswith (PK x03 x04) file_content
           || Py.startswith (PK x05 x06) file_content
           || Py.startswith (PK x07 x08) file_content) then
    (true, Some "Invalid DOCX file format")
  else if negb (Py.contains (b "[Content_Types].xml") file_content) then
    (true, Some "DOCX file appears to be corrupted or incomplete")
  else (false, None).

Definition _validate_doc (file_content : list byte) : bool * option string :=
  if negb (Py.startswith OLE2 file_content) then
    (true, Some "Invalid DOC file format")
  else if (length file_content <? 512)%nat then
    (true, Some "DOC file appears to be too small or corrupted")
  else (false, None).

(** [_validate_txt]: when the UTF-8 decoding fails the Latin-1 decoding is
    tried, which accepts every byte string, so neither changes the outcome. *)
Definition _validate_txt (file_content : list byte) : bool * option string :=
  if (length (Py.bytes_strip file_content) <? 10)%nat then
    (true, Some "Text file appears to be empty or too short")
  else (false, None).

Definition _validate_rtf (file_content : list byte) : bool * option string :=
  if negb (Py.startswith RTF file_content) then
    (true, Some "Invalid RTF file format")
  else if negb (Py.contains (b "}") file_content) then
    (true, Some "RTF file appears to be incomplete")
  else (false, None).

(** [self.supported_types[file_extension]] *)
Definition validation_func (file_extension : string)
    : option (list byte -> bool * option string) :=
  if decide (file_extension = ".pdf") then Some _validate_pdf
  else if decide (file_extension = ".docx") then Some _validate_docx
  else if decide (file_extension = ".doc") then Some _validate_doc
  else if decide (file_extension = ".txt") then Some _validate_txt
  else if decide (file_extension = ".rtf") then Some _validate_rtf
  else None.

(** The size ceiling, in bytes. *)
Definition max_size : Z := 50 * 1024 * 1024.

(** [validate_file]: the result and the warnings written to the log. *)
Definition validate_file (file_content : list byte) (filename : string)
    : FileValidationResult * list string :=
  let file_extension := Py.lower (snd (splitext filename)) in
  if _is_metadata_file filename then
    (mkValidation false file_extension true false
       (Some "This is a metadata file, not a resume")
       (Some "Please upload the actual resume file (PDF or DOCX)"), [])
  else if (length file_content =? 0)%nat then
    (mkValidation false file_extension false true
       (Some "File is empty")
       (Some "Please upload a non-empty file"), [])
  else if (max_size <? Z.of_nat (length file_content))%Z then
    (mkValidation false file_extension false false
       (Some "File is too large (max 50MB)")
       (Some "Please compress the file or use a smaller version"), [])
  else
    match validation_func file_extension with
    | None =>
        (mkValidation false file_extension false false
           (Some ("Unsupported file type: " +:+ file_extension))
           (Some ("Please upload a supported file type: "
                  +:+ Py.join ", " supported_types)), [])
    | Some validate =>
        let detected_type := _detect_file_type file_content in
        let log :=
          match detected_type with
          | Some t =>
              if Py.str_truthy t && negb (bool_decide (t = file_extension))
              then ["File extension " +:+ file_extension
                    +:+ " doesn't match content type " +:+ t]
              else []
          | None => []
          end in
        let '(corrupted, error_msg) := validate file_content in
        if corrupted then
          (mkValidation false file_extension false true error_msg
             (Some "Please try uploading the file again or use a different file"), log)
        else
          (mkValidation true file_extension false false None None, log)
    end.

End FileValidator.

(* --------------------------------------------------------------------- *)
(** ** [contact_extractor.py] *)
(* --------------------------------------------------------------------- *)

Module ContactExtractor.

(** [@dataclass ContactInfo] *)
Record ContactInfo : Type := mkContact {
  email : option string;
  phone : option string;
  confidence : float;
  source : string
}.

Definition email_patterns : list string :=
  ["\b[A-Za-z0-9._%+-]+@[A-Za-z0-9.-]+\.[A-Z|a-z]{2,}\b";
   "\b[A-Za-z0-9._%+-]+\s+at\s+[A-Za-z0-9.-]+\s+dot\s+[A-Z|a-z]{2,}\b";
   "\b[A-Za-z0-9._%+-]+\s*@\s*[A-Za-z0-9.-]+\s*\.\s*[A-Z|a-z]{2,}\b";
   "\([A-Za-z0-9._%+-]+@[A-Za-z0-9.-]+\.[A-Z|a-z]{2,}\)";
   "\[[A-Za-z0-9._%+-]+@[A-Za-z0-9.-]+\.[A-Z|a-z]{2,}\]"].

Definition phone_patterns : list string :=
  ["\+?1?[-.\s]?\(?[0-9]{3}\)?[-.\s]?[0-9]{3}[-.\s]?[0-9]{4}";
   "\(?[0-9]{3}\)?[-.\s]?[0-9]{3}[-.\s]?[0-9]{4}";
   "[0-9]{3}[-.\s]?[0-9]{3}[-.\s]?[0-9]{4}";
   "\+[1-9]\d{1,14}";
   "\(?[0-9]{3}\)?[-.\s]?[0-9]{3}[-.\s]?[0-9]{4}\s*(?:ext|ext\.|extension|x)\s*[0-9]+";
   "\+1[-.\s]?\(?[0-9]{3}\)?[-.\s]?[0-9]{3}[-.\s]?[0-9]{4}"].

(** [self.contact_keywords] *)
Definition email_keywords : list string :=
  ["email"; "e-mail"; "mail"; "contact"; "reach me at"; "reach me"].
Definition phone_keywords : list string :=
  ["phone"; "tel"; "telephone"; "mobile"; "cell"; "call me at"; "call me"].

Section Extractor.

(** The two functions of the [re] module that the extractor calls:
    [re.findall(pattern, text)], with or without [re.IGNORECASE], and
    [re.sub(pattern, repl, text)]. *)
Variable re_findall : string -> bool -> string -> list string.
Variable re_sub : string -> string -> string -> string.

(** [_normalize_email] *)
Definition _normalize_email (email : string) : string :=
  let email := Py.lower (Py.strip email) in
  let email := re_sub "\s+at\s+" "@" email in
  let email := re_sub "\s+dot\s+" "." email in
  let email := re_sub "\s+" "" email in
  re_sub "[()\[\]]" "" email.

(** [_normalize_phone] *)
Definition _normalize_phone (phone : string) : string :=
  let phone := re_sub "[^\d+]" "" phone in
  if (String.length phone =? 10)%nat then
    "(" +:+ substring 0 3 phone +:+ ") " +:+ substring 3 3 phone +:+ "-"
        +:+ substring 6 (String.length phone - 6) phone
  else if (String.length phone =? 11)%nat && String.prefix "1" phone then
    "+1 (" +:+ substring 1 3 phone +:+ ") " +:+ substring 4 3 phone +:+ "-"
           +:+ substring 7 (String.length phone - 7) phone
  else if String.prefix "+" phone then phone
  else phone.

(** The loop [for pattern in patterns: matches = re.findall(..); if matches:
    field = normalize(matches[0]); break], starting from the value [current]
    of the field. *)
Fixpoint first_match (patterns : list string) (ignorecase : bool)
    (normalize : string -> string) (text : string) (current : option string)
    : option string :=
  match patterns with
  | [] => current
  | pattern :: rest =>
      match re_findall pattern ignorecase text with
      | m :: _ => Some (normalize m)
      | [] => first_match rest ignorecase normalize text current
      end
  end.

(** [_extract_with_regex] *)
Definition _extract_with_regex (text : string) : ContactInfo :=
  let email := first_match email_patterns true _normalize_email text None in
  let phone := first_match phone_patterns false _normalize_phone text None in
  let confidence :=
    if Py.opt_truthy email && Py.opt_truthy phone then 0.8%float
    else if Py.opt_truthy email || Py.opt_truthy phone then 0.6%float
    else 0.0%float in
  mkContact email phone confidence "regex".

(** [any(keyword in line_lower for keyword in keywords)] *)
Definition any_keyword (keywords : list string) (line_lower : string) : bool :=
  existsb (fun keyword => Py.str_contains keyword line_lower) keywords.

(** The loop over the lines of [_extract_with_context], on the locals
    [email] and [phone]. *)
Fixpoint context_lines (lines : list string) (email phone : option string)
    : option string * option string :=
  match lines with
  | [] => (email, phone)
  | line :: rest =>
      let line_lower := Py.strip (Py.lower line) in
      let email :=
        if any_keyword email_keywords line_lower
        then first_match email_patterns true _normalize_email line email
        else email in
      let phone :=
        if any_keyword phone_keywords line_lower
        then first_match phone_patterns false _normalize_phone line phone
        else phone in
      context_lines rest email phone
  end.

(** [_extract_with_context] *)
Definition _extract_with_context (text : string) : ContactInfo :=
  let lines := Py.split_on "010"%char text in
  let '(email, phone) := context_lines lines None None in
  let confidence :=
    if Py.opt_truthy email && Py.opt_truthy phone then 0.9%float
    else if Py.opt_truthy email || Py.opt_truthy phone then 0.7%float
    else 0.0%float in
  mkContact email phone confidence "context".

(** [a and b and a == b] on two [Optional[str]] fields *)
Definition agree (a b : option string) : bool :=
  Py.opt_truthy a && Py.opt_truthy b && bool_decide (a = b).

(** [_combine_results] *)
Definition _combine_results (regex_result context_result : ContactInfo) : ContactInfo :=
  let email' := Py.opt_or (email context_result) (email regex_result) in
  let phone' := Py.opt_or (phone context_result) (phone regex_result) in
  let confidence0 := Py.fmax (confidence regex_result) (confidence context_result) in
  let confidence1 :=
    if agree (email context_result) (email regex_result)
    then Py.fmin (confidence0 + 0.1)%float 1.0%float else confidence0 in
  let confidence2 :=
    if agree (phone context_result) (phone regex_result)
    then Py.fmin (confidence1 + 0.1)%float 1.0%float else confidence1 in
  let source' :=
    if Py.opt_truthy (email context_result) || Py.opt_truthy (phone context_result)
    then "context"
    else if Py.opt_truthy (email regex_result) || Py.opt_truthy (phone regex_result)
    then "regex"
    else "combined" in
  mkContact email' phone' confidence2 source'.

(** [extract_contact_info] *)
Definition extract_contact_info (text : string) : ContactInfo :=
  let regex_result := _extract_with_regex text in
  let context_result := _extract_with_context text in
  _combine_results regex_result context_result.

End Extractor.

(** The confidences as functions of what was found: which fields each
    method found, and on which fields the two methods agree. *)
Definition regex_confidence (e p : bool) : float :=
  if e && p then 0.8%float else if e || p then 0.6%float else 0.0%float.
Definition context_confidence (e p : bool) : float :=
  if e && p then 0.9%float else if e || p then 0.7%float else 0.0%float.

Definition merged_confidence (c_regex c_context : float) (same_email same_phone : bool)
    : float :=
  let c0 := Py.fmax c_regex c_context in
  let c1 := if same_email then Py.fmin (c0 + 0.1)%float 1.0%float else c0 in
  if same_phone then Py.fmin (c1 + 0.1)%float 1.0%float else c1.

(** A stand-in for the [re] module on the sample text: the first email
    pattern finds the address, nothing else matches, substitutions change
    nothing. *)
Definition sample_text : string := "Email: jane@example.com".

Definition sample_findall (pattern : string) (ignorecase : bool) (text : string)
    : list string :=
  if bool_decide (Some pattern = head email_patterns) then ["jane@example.com"] else [].

Definition sample_sub (pattern repl text : string) : string := text.

End ContactExtractor.

(* --------------------------------------------------------------------- *)
(** ** [resume_controller.py] *)
(* --------------------------------------------------------------------- *)

Module ResumeController.
Import Py.

(** *** [_validate_parsed_data] *)

Inductive Quality : Type := good | partial | poor.

Definition quality_str (q : Quality) : string :=
  match q with good => "good" | partial => "partial" | poor => "poor" end.

(** The dictionary returned by [_validate_parsed_data]. *)
Record Validation : Type := mkValidationResult {
  quality : Quality;
  warnings : list string;
  validation_errors : list string;
  completeness_score : nat;
  missing_essential : list string
}.

(** [v and str(v).strip()], as a truth value *)
Definition populated (v : value) : bool :=
  truthy v && str_truthy (strip (str v)).

Definition essential_fields : list string := ["Name"; "Email"; "Phone"].

(** [not x or not isinstance(x, list) or len(x) == 0] *)
Definition list_absent (x : value) : bool :=
  negb (truthy x) || negb (is_list x)
  || match x with PyList l => (length l =? 0)%nat | _ => false end.

(** [_validate_parsed_data(parsed_data)] on a dictionary (the guard
    [isinstance(parsed_data, dict)] holds for every record the structured-field
    extractor returns). *)
Definition _validate_parsed_data (parsed_data : gmap string value) : Validation :=
  let missing_essential :=
    lower <$> filter (fun field => negb (populated (default (PyStr "") (parsed_data !! field))))
                     essential_fields in
  let warnings :=
    (if list_absent (default (PyList []) (parsed_data !! "Experience"))
     then ["missing_experience"] else [])
    ++ (if list_absent (default (PyList []) (parsed_data !! "Skills"))
        then ["missing_skills"] else [])
    ++ (if list_absent (default (PyList []) (parsed_data !! "Education"))
        then ["missing_education"] else []) in
  let '(quality, warnings, validation_errors) :=
    if (2 <=? length missing_essential)%nat then
      (poor, warnings, (fun field => "missing_" +:+ field) <$> missing_essential)
    else if (length missing_essential =? 1)%nat || (2 <=? length warnings)%nat then
      (partial, warnings ++ ((fun field => "missing_" +:+ field) <$> missing_essential), [])
    else (good, warnings, []) in
  let total_fields :=
    length (filter (fun kv => populated (snd kv) = true) (map_to_list parsed_data)) in
  let '(quality, warnings) :=
    if (total_fields <? 5)%nat then (poor, warnings ++ ["insufficient_data"])
    else (quality, warnings) in
  mkValidationResult quality warnings validation_errors total_fields missing_essential.

(** [parsed_data.update(validation_result)] *)
Definition update_with_validation (parsed_data : gmap string value) (v : Validation)
    : gmap string value :=
  <["missing_essential" := PyList (PyStr <$> missing_essential v)]>
  (<["completeness_score" := PyInt (Z.of_nat (completeness_score v))]>
  (<["validation_errors" := PyList (PyStr <$> validation_errors v)]>
  (<["warnings" := PyList (PyStr <$> warnings v)]>
  (<["quality" := PyStr (quality_str (quality v))]> parsed_data)))).

(** What the classifier counts, read off the record: the essential fields
    that are missing, the secondary warnings, the populated fields. *)
Definition field_missing (parsed_data : gmap string value) (field : string) : bool :=
  negb (populated (default (PyStr "") (parsed_data !! field))).

Definition missing_count (parsed_data : gmap string value) : nat :=
  Nat.b2n (field_missing parsed_data "Name")
  + Nat.b2n (field_missing parsed_data "Email")
  + Nat.b2n (field_missing parsed_data "Phone").

Definition secondary_count (parsed_data : gmap string value) : nat :=
  Nat.b2n (list_absent (default (PyList []) (parsed_data !! "Experience")))
  + Nat.b2n (list_absent (default (PyList []) (parsed_data !! "Skills")))
  + Nat.b2n (list_absent (default (PyList []) (parsed_data !! "Education"))).

Definition populated_count (parsed_data : gmap string value) : nat :=
  length (filter (fun kv => populated (snd kv) = true) (map_to_list parsed_data)).

(** *** [_check_resume_uniqueness] *)

Inductive Reason : Type :=
| missing_required_fields
| db_check_skipped
| duplicate_name
| duplicate_email
| duplicate_phone
| duplicate_skills
| unique_resume
| uniqueness_check_failed.

(** The dictionary returned by [_check_resume_uniqueness]; the message texts
    and the rounded similarity percentage are left out. *)
Record Uniqueness : Type := mkUniqueness {
  is_unique : bool;
  reason : Reason;
  missing_fields : list string;
  duplicate_value : option string
}.

(** The ["error"] text that goes with a rejection.  Two texts are
    shortened: the source appends the rounded similarity percentage to the
    skills message and the exception text to the last one. *)
Definition uniqueness_error (u : Uniqueness) : option string :=
  match reason u with
  | missing_required_fields =>
      Some ("Resume parsing failed: Missing required fields: "
            +:+ join ", " (missing_fields u))
  | duplicate_name =>
      Some ("Duplicate resume found with same name: " +:+ default "" (duplicate_value u))
  | duplicate_email =>
      Some ("Duplicate resume found with same email: " +:+ default "" (duplicate_value u))
  | duplicate_phone =>
      Some ("Duplicate resume found with same phone: " +:+ default "" (duplicate_value u))
  | duplicate_skills => Some "Duplicate resume found with similar skills"
  | uniqueness_check_failed => Some "Failed to check uniqueness"
  | db_check_skipped | unique_resume => None
  end.

(** The [parsed_data] column of a stored row: a dictionary, a JSON text, or
    anything else (a [NULL]). *)
Inductive Stored : Type :=
| StoredDict (d : gmap string value)
| StoredText (s : string)
| StoredOther.

(** The outcome of [database_service.get_all_resumes(limit=500)]: the rows,
    or an exception. *)
Inductive History : Type :=
| Rows (rows : list Stored)
| ReadFails.

(** The skills of a record, normalised.  [None] is the [AttributeError] of
    [skill.strip()] on an element that is not a string. *)
Definition normalize_skills (skills : value) : option (list string) :=
  match skills with
  | PyList l =>
      stripped ← mapM method_strip l;
      Some (lower <$> filter (fun s => str_truthy s = true) stripped)
  | _ =>
      if str_truthy (strip (str skills)) then Some [lower (strip (str skills))]
      else Some []
  end.

(** [len(set(a) & set(b)) / len(set(a) | set(b)) >= 0.8] *)
Definition skills_similar (a c : list string) : bool :=
  let sa : gset string := list_to_set a in
  let sc : gset string := list_to_set c in
  let common_skills := size (sa ∩ sc) in
  let total_skills := size (sa ∪ sc) in
  if (0 <? total_skills)%nat
  then PrimFloat.leb 0.8%float (true_div common_skills total_skills)
  else false.

(** The key fields read from a record. *)
Record KeyFields : Type := mkKeys {
  name : string;
  email : string;
  phone : string;
  skills_normalized : list string
}.

(** The first lines of the [try] block: [None] when one of the [.strip()]
    calls raises. *)
Definition key_fields (parsed_data : gmap string value) : option KeyFields :=
  name ← method_strip (default (PyStr "") (parsed_data !! "Name"));
  email ← method_strip (default (PyStr "") (parsed_data !! "Email"));
  phone ← method_strip (default (PyStr "") (parsed_data !! "Phone"));
  skills ← normalize_skills (default (PyList []) (parsed_data !! "Skills"));
  Some (mkKeys (lower name) (lower email) phone skills).

Definition missing_of (k : KeyFields) : list string :=
  (if str_truthy (name k) then [] else ["Name"])
  ++ (if str_truthy (email k) then [] else ["Email"])
  ++ (if str_truthy (phone k) then [] else ["Phone"])
  ++ (match skills_normalized k with [] => ["Skills"] | _ => [] end).

(** [a and b and a == b] on two strings *)
Definition same (a c : string) : bool :=
  str_truthy a && str_truthy c && bool_decide (a = c).

Section Uniqueness.

(** [json.loads] on the text of a stored row: [None] when it raises,
    otherwise the dictionary it decodes to, if it is one. *)
Variable json_loads : string -> option (option (gmap string value)).

(** The dictionary the loop compares with, or [None] when the row is
    skipped by [continue]. *)
Definition existing_dict (row : Stored) : option (gmap string value) :=
  match row with
  | StoredDict d => Some d
  | StoredText s =>
      match json_loads s with
      | Some (Some d) => Some d
      | _ => None
      end
  | StoredOther => None
  end.

(** One iteration of the loop over the existing resumes: [Some (Some u)]
    returns [u], [Some None] goes on with the next row, [None] is an
    exception raised by a [.strip()]. *)
Definition compare_with (k : KeyFields) (existing : gmap string value)
    : option (option Uniqueness) :=
  existing_name ← lower <$> method_strip (default (PyStr "") (existing !! "Name"));
  if same (name k) existing_name then
    Some (Some (mkUniqueness false duplicate_name [] (Some (name k))))
  else
  existing_email ← lower <$> method_strip (default (PyStr "") (existing !! "Email"));
  if same (email k) existing_email then
    Some (Some (mkUniqueness false duplicate_email [] (Some (email k))))
  else
  existing_phone ← method_strip (default (PyStr "") (existing !! "Phone"));
  if same (phone k) existing_phone then
    Some (Some (mkUniqueness false duplicate_phone [] (Some (phone k))))
  else
  existing_skills ← normalize_skills (default (PyList []) (existing !! "Skills"));
  match skills_normalized k, existing_skills with
  | _ :: _, _ :: _ =>
      if skills_similar (skills_normalized k) existing_skills
      then Some (Some (mkUniqueness false duplicate_skills [] None))
      else Some None
  | _, _ => Some None
  end.

Fixpoint compare_all (k : KeyFields) (rows : list Stored) : option Uniqueness :=
  match rows with
  | [] => Some (mkUniqueness true unique_resume [] None)
  | row :: rest =>
      match existing_dict row with
      | None => compare_all k rest
      | Some existing =>
          match compare_with k existing with
          | None => None
          | Some (Some verdict) => Some verdict
          | Some None => compare_all k rest
          end
      end
  end.

Definition check_failed : Uniqueness := mkUniqueness false uniqueness_check_failed [] None.

(** [_check_resume_uniqueness(parsed_data)]: the returned dictionary and the
    number of calls to [get_all_resumes] it made.  Any exception of the body
    ends in the outer [except], which reports [uniqueness_check_failed]. *)
Definition _check_resume_uniqueness (history : History) (parsed_data : gmap string value)
    : Uniqueness * nat :=
  match key_fields parsed_data with
  | None => (check_failed, 0)
  | Some k =>
      let missing := missing_of k in
      match missing with
      | _ :: _ => (mkUniqueness false missing_required_fields missing None, 0)
      | [] =>
          match history with
          | ReadFails => (mkUniqueness true db_check_skipped [] None, 1)
          | Rows existing_resumes =>
              (default check_failed (compare_all k existing_resumes), 1)
          end
      end
  end.

(** The duplicate policy on a complete candidate [k] and the key fields
    [ke] of one prior record, in priority order: same name, else same email
    (both compared stripped and lower-cased), else same stripped phone, else
    similar skill sets. *)
Definition duplicate_of (k ke : KeyFields) : option (Reason * option string) :=
  if bool_decide (name k = name ke) then Some (duplicate_name, Some (name k))
  else if bool_decide (email k = email ke) then Some (duplicate_email, Some (email k))
  else if bool_decide (phone k = phone ke) then Some (duplicate_phone, Some (phone k))
  else if bool_decide (skills_normalized ke <> [])
          && skills_similar (skills_normalized k) (skills_normalized ke)
       then Some (duplicate_skills, None)
  else None.

(** The rejection that goes with a verdict of the policy. *)
Definition verdict_of (v : option (Reason * option string)) : option Uniqueness :=
  (fun rv => mkUniqueness false (fst rv) [] (snd rv)) <$> v.

(** The four duplicate verdicts. *)
Definition is_duplicate_reason (r : Reason) : bool :=
  match r with
  | duplicate_name | duplicate_email | duplicate_phone | duplicate_skills => true
  | _ => false
  end.


(** The key fields of a stored row that the loop does not skip. *)
Definition row_keys (row : Stored) : option KeyFields :=
  existing_dict row ≫= key_fields.

(** Every field the loop may read from the row has the type it expects. *)
Definition row_well_typed (row : Stored) : Prop :=
  forall d, existing_dict row = Some d -> is_Some (key_fields d).

(** The policy on the first prior record that matches. *)
Fixpoint first_duplicate (k : KeyFields) (rows : list Stored)
    : option (Reason * option string) :=
  match rows with
  | [] => None
  | row :: rest =>
      match row_keys row with
      | Some ke =>
          match duplicate_of k ke with
          | Some verdict => Some verdict
          | None => first_duplicate k rest
          end
      | None => first_duplicate k rest
      end
  end.

End Uniqueness.

(** *** [_process_single_file_from_data] *)

(** The answer of a collaborator to one call: a value, or an exception. *)
Inductive Answer (A : Type) : Type :=
| Ok (a : A)
| Raise (message : string).
Arguments Ok {A} a.
Arguments Raise {A} message.

(** What the world answers while one file is processed: the file system
    ([os.makedirs], then the [open]/[write] of the branch taken), the text
    extractor, the structured-field extractor, the embedding service, the
    record store and [uuid.uuid4]. *)
Record Answers : Type := mkAnswers {
  makedirs : Answer unit;
  process_file : Answer string;
  parse_resume_text : Answer (gmap string value);
  generate_embedding : Answer (option (list float));
  get_all_resumes : History;
  uuid4 : string;
  write_file : Answer unit
}.

(** An entry of [all_files_to_process], with the answers its processing
    will get. *)
Record FileData : Type := mkFile {
  filename : string;
  content : list byte;
  size : nat;
  extension : string;
  is_from_zip : bool;
  original_zip : option string;
  answers : Answers
}.

(** The per-file result dictionary (times and paths left out). *)
Record FileResult : Type := mkFileResult {
  fr_filename : string;
  fr_status : string;
  fr_error : option string;
  fr_parsed_data : option (gmap string value);
  fr_file_type : option string;
  fr_file_index : nat;
  fr_quality : option string;
  fr_warnings : list string;
  fr_uniqueness_check : option Uniqueness;
  fr_resume_id : option string;
  fr_embedding_generated : option bool
}.

(** An entry of [batch_data_to_save]. *)
Record BatchItem : Type := mkBatchItem {
  bi_filename : string;
  bi_file_type : string;
  bi_file_size : nat;
  bi_parsed_data : gmap string value;
  bi_resume_id : string;
  bi_embedding : option (list float)
}.

(** The objects the caller shares with the per-file processor: the batch
    list and the three one-element counter lists. *)
Record Shared : Type := mkShared {
  batch_data_to_save : list BatchItem;
  successful_files : nat;
  failed_files : nat;
  duplicate_files : nat
}.

(** The [file_result] the loops start each file with. *)
Definition initial_result (file_data : FileData) (i : nat) : FileResult :=
  mkFileResult (filename file_data) "failed" None None None (i + 1) None [] None None None.

(** The outer [except Exception as e] of the per-file processor. *)
Definition on_exception (message : string) (file_result : FileResult) (sh : Shared)
    : FileResult * Shared :=
  (mkFileResult (fr_filename file_result) (fr_status file_result)
     (Some ("Failed to process file: " +:+ message))
     (fr_parsed_data file_result) (fr_file_type file_result) (fr_file_index file_result)
     (fr_quality file_result) (fr_warnings file_result)
     (fr_uniqueness_check file_result) (fr_resume_id file_result)
     (fr_embedding_generated file_result),
   mkShared (batch_data_to_save sh) (successful_files sh) (failed_files sh + 1)
     (duplicate_files sh)).

(** [final_status] from the quality, and the error set with it. *)
Definition final_status (q : Quality) : string :=
  match q with
  | partial => "partial_success"
  | poor => "failed"
  | good => "success"
  end.

Section PerFile.

Variable json_loads : string -> option (option (gmap string value)).

(** [_process_single_file_from_data]: the updated [file_result] and shared
    objects. *)
Definition _process_single_file_from_data
    (file_data : FileData) (file_result : FileResult) (sh : Shared)
    : FileResult * Shared :=
  let w := answers file_data in
  match makedirs w with
  | Raise m => on_exception m file_result sh
  | Ok _ =>
  match process_file w with
  | Raise m => on_exception m file_result sh
  | Ok extracted_text =>
  if negb (str_truthy extracted_text) || negb (str_truthy (strip extracted_text)) then
    (mkFileResult (fr_filename file_result) (fr_status file_result)
       (Some "No text could be extracted from the file")
       (fr_parsed_data file_result) (Some (lstrip_dots (extension file_data)))
       (fr_file_index file_result) (fr_quality file_result) (fr_warnings file_result)
       (fr_uniqueness_check file_result) (fr_resume_id file_result)
       (fr_embedding_generated file_result),
     mkShared (batch_data_to_save sh) (successful_files sh) (failed_files sh + 1)
       (duplicate_files sh))
  else
  match parse_resume_text w with
  | Raise m => on_exception m file_result sh
  | Ok parsed_data =>
  let validation_result := _validate_parsed_data parsed_data in
  let parsed_data := update_with_validation parsed_data validation_result in
  let embedding :=
    match generate_embedding w with Ok e => e | Raise _ => None end in
  let uniqueness_check :=
    fst (_check_resume_uniqueness json_loads (get_all_resumes w) parsed_data) in
  if negb (is_unique uniqueness_check) then
    match write_file w with
    | Raise m => on_exception m file_result sh
    | Ok _ =>
        (mkFileResult (fr_filename file_result) "duplicate"
           (uniqueness_error uniqueness_check)
           (fr_parsed_data file_result) (Some (lstrip_dots (extension file_data)))
           (fr_file_index file_result) (fr_quality file_result) (fr_warnings file_result)
           (Some uniqueness_check) (Some (uuid4 w)) (fr_embedding_generated file_result),
         mkShared (batch_data_to_save sh) (successful_files sh) (failed_files sh)
           (duplicate_files sh + 1))
    end
  else
    match write_file w with
    | Raise m => on_exception m file_result sh
    | Ok _ =>
        let q := quality validation_result in
        (mkFileResult (fr_filename file_result) (final_status q)
           (match q with
            | poor => Some "Insufficient data quality for parsing"
            | _ => fr_error file_result
            end)
           (Some parsed_data) (Some (lstrip_dots (extension file_data)))
           (fr_file_index file_result) (Some (quality_str q)) (warnings validation_result)
           (Some uniqueness_check) (fr_resume_id file_result)
           (Some (bool_decide (embedding <> None))),
         mkShared
           (batch_data_to_save sh ++
              [mkBatchItem (filename file_data) (lstrip_dots (extension file_data))
                 (size file_data) parsed_data (uuid4 w) embedding])
           (successful_files sh + 1) (failed_files sh) (duplicate_files sh))
    end
  end end end.

(** The number of per-file results whose status is a success. *)
Definition is_success (r : FileResult) : bool :=
  bool_decide (fr_status r = "success") || bool_decide (fr_status r = "partial_success").

Definition count_success (results : list FileResult) : nat :=
  length (filter (fun r => is_success r = true) results).

End PerFile.

(** *** The job registry [bulk_processing_jobs] *)

Inductive JobStatus : Type :=
| queued
| processing
| completed
| completed_with_errors
| failed
| cancelled.

#[global] Instance JobStatus_eq_dec : EqDecision JobStatus.
Proof. solve_decision. Defined.

(** A job dictionary of the registry (times and the progress text left
    out). *)
Record Job : Type := mkJob {
  job_status : JobStatus;
  total_files : nat;
  processed_files : nat;
  job_successful_files : nat;
  job_failed_files : nat;
  job_duplicate_files : nat;
  results : list FileResult
}.

(** The entry [bulk_parse_resumes] creates before it starts a job. *)
Definition new_job : Job := mkJob processing 0 0 0 0 0 [].

(** [bulk_processing_jobs[job_id].get("status") == "cancelled"], false when
    the job is not in the registry. *)
Definition is_cancelled (job_id : string) (jobs : gmap string Job) : bool :=
  match jobs !! job_id with
  | Some job => bool_decide (job_status job = cancelled)
  | None => false
  end.

(** The endpoint [cancel_job] on the in-memory registry: the registry after
    the call, or [None] for the HTTP error it answers with. *)
Definition cancel_job (job_id : string) (jobs : gmap string Job)
    : option (gmap string Job) :=
  match jobs !! job_id with
  | None => None
  | Some job =>
      if bool_decide (job_status job ∈ [completed; failed; cancelled]) then None
      else Some (<[job_id :=
                   mkJob cancelled (total_files job) (processed_files job)
                     (job_successful_files job) (job_failed_files job)
                     (job_duplicate_files job) (results job)]> jobs)
  end.

(** The registry after the requests served while the task is suspended in
    window [w]: a call of [cancel_job] for this job when [cancel_in w]. *)
Definition serve (cancel_in : nat -> bool) (job_id : string) (w : nat)
    (jobs : gmap string Job) : gmap string Job :=
  if cancel_in w then default jobs (cancel_job job_id jobs) else jobs.

(** [if job_id in jobs: jobs[job_id].update({"total_files": n})] *)
Definition set_total (job_id : string) (n : nat) (jobs : gmap string Job)
    : gmap string Job :=
  alter (fun job =>
    mkJob (job_status job) n (processed_files job) (job_successful_files job)
      (job_failed_files job) (job_duplicate_files job) (results job)) job_id jobs.

(** The per-file update of both bulk loops: [processed_files = i + 1], the
    counters, and a copy of the results so far. *)
Definition progress_update (job_id : string) (i : nat) (sh : Shared)
    (results_so_far : list FileResult) (jobs : gmap string Job) : gmap string Job :=
  alter (fun job =>
    mkJob (job_status job) (total_files job) (i + 1) (successful_files sh)
      (failed_files sh) (duplicate_files sh) results_so_far) job_id jobs.

(** The update written after the loop of [_background_process_bulk]; the
    inline loop of [bulk_parse_resumes] ends with the same update. *)
Definition final_update (job_id : string) (n : nat) (sh : Shared)
    (all_results : list FileResult) (jobs : gmap string Job) : gmap string Job :=
  alter (fun _ =>
    mkJob completed n n (successful_files sh) (failed_files sh) (duplicate_files sh)
      all_results) job_id jobs.

(** An uploaded file: a regular file, or a zip archive with the outcome of
    its extraction. *)
Inductive Upload : Type :=
| Regular (file_data : FileData)
| Zip (zip_name : string) (extracted : Answer (list FileData)).

(** The collection loop: the files to process, and a failed result (with
    [failed_files] counted up) for every archive that cannot be extracted. *)
Fixpoint collect (files : list Upload) (all_files : list FileData)
    (results_so_far : list FileResult) (failed_count : nat)
    : list FileData * list FileResult * nat :=
  match files with
  | [] => (all_files, results_so_far, failed_count)
  | Regular file_data :: rest =>
      collect rest (all_files ++ [file_data]) results_so_far failed_count
  | Zip zip_name (Ok extracted_files) :: rest =>
      collect rest (all_files ++ extracted_files) results_so_far failed_count
  | Zip zip_name (Raise m) :: rest =>
      collect rest all_files
        (results_so_far ++
           [mkFileResult zip_name "failed" (Some ("Failed to extract zip file: " +:+ m))
              None (Some "zip") (length results_so_far + 1) None [] None None None])
        (failed_count + 1)
  end.

Section Bulk.

Variable json_loads : string -> option (option (gmap string value)).

(** The requests served while the task is suspended: window [0] is the
    collection of the files, window [i + 1] the processing of file [i], the
    window after the last file the batch save. *)
Variable cancel_in : nat -> bool.

Variable bulk_job_id : string.

(** The post-validation of [_background_process_bulk]: a success without
    email or phone becomes a partial success; the file type falls back to the
    extension. *)
Definition post_validate (file_data : FileData) (file_result : FileResult) : FileResult :=
  let parsed := default ∅ (fr_parsed_data file_result) in
  let missing :=
    (if str_truthy (strip (str (default (PyStr "") (parsed !! "Email"))))
     then [] else ["email"])
    ++ (if str_truthy (strip (str (default (PyStr "") (parsed !! "Phone"))))
        then [] else ["phone"]) in
  let downgrade :=
    match missing with
    | [] => false
    | _ => bool_decide (fr_status file_result = "success")
    end in
  let file_type :=
    if negb (opt_truthy (fr_file_type file_result)) && str_truthy (extension file_data)
    then Some (lstrip_dots (extension file_data))
    else fr_file_type file_result in
  mkFileResult (fr_filename file_result)
    (if downgrade then "partial_success" else fr_status file_result)
    (fr_error file_result) (fr_parsed_data file_result) file_type
    (fr_file_index file_result) (fr_quality file_result)
    (if downgrade then (fun m => "missing_" +:+ m) <$> missing
     else fr_warnings file_result)
    (fr_uniqueness_check file_result) (fr_resume_id file_result)
    (fr_embedding_generated file_result).

(** The state of the processing loop: its locals, the registry, and the
    registry states that were observable so far, oldest first. *)
Record LoopState : Type := mkLoop {
  loop_results : list FileResult;
  loop_shared : Shared;
  loop_jobs : gmap string Job;
  loop_trace : list (gmap string Job)
}.

(** [for i, file_data in enumerate(all_files_to_process)], from index [i]
    on.  The cancellation is tested when an iteration starts; requests are
    served while the file is processed; the registry is updated after it. *)
Fixpoint bulk_loop (i : nat) (files : list FileData) (st : LoopState) : LoopState :=
  match files with
  | [] => st
  | file_data :: rest =>
      if is_cancelled bulk_job_id (loop_jobs st) then st
      else
        let file_result := initial_result file_data i in
        let jobs := serve cancel_in bulk_job_id (i + 1) (loop_jobs st) in
        let '(file_result, sh) :=
          _process_single_file_from_data json_loads file_data file_result (loop_shared st) in
        let file_result := post_validate file_data file_result in
        let all_results := loop_results st ++ [file_result] in
        let jobs' := progress_update bulk_job_id i sh all_results jobs in
        bulk_loop (i + 1) rest
          (mkLoop all_results sh jobs' (loop_trace st ++ [jobs; jobs']))
  end.

(** [_background_process_bulk]: every registry state the run makes
    observable, oldest first, from the registry it starts in.  The batch save
    suspends the task only when there is something to save; its failure is
    logged and changes nothing. *)
Definition _background_process_bulk (files : list Upload) (jobs : gmap string Job)
    : list (gmap string Job) :=
  let '(all_files_to_process, results0, failed0) := collect files [] [] 0 in
  let jobs0 := serve cancel_in bulk_job_id 0 jobs in
  let jobs1 := set_total bulk_job_id (length all_files_to_process) jobs0 in
  let st :=
    bulk_loop 0 all_files_to_process
      (mkLoop results0 (mkShared [] 0 failed0 0) jobs1 [jobs; jobs0; jobs1]) in
  let jobs2 :=
    match batch_data_to_save (loop_shared st) with
    | [] => loop_jobs st
    | _ => serve cancel_in bulk_job_id (length all_files_to_process + 1) (loop_jobs st)
    end in
  let jobs3 :=
    final_update bulk_job_id (length all_files_to_process) (loop_shared st)
      (loop_results st) jobs2 in
  loop_trace st ++ [jobs2; jobs3].

(** The job as a status reader sees it in a registry state. *)
Definition observed (jobs : gmap string Job) : option Job := jobs !! bulk_job_id.

(** The two conditions on an observable job. *)
Definition processed_within_total (job : Job) : Prop :=
  processed_files job <= total_files job.

Definition results_cover_processed (job : Job) : Prop :=
  processed_files job <= length (results job).

End Bulk.

(** Every registry state of a trace shows the job, if at all, with the
    property [P]. *)
Definition always (job_id : string) (P : Job -> Prop) (trace : list (gmap string Job))
    : Prop :=
  Forall (fun jobs => forall job, jobs !! job_id = Some job -> P job) trace.

(** *** [_background_process_bulk_ultra_fast] *)

(** [_process_single_file_ultra_fast]: whether the returned status is
    ["success"].  Parsing and embedding are awaited together; an exception of
    either one ends in the [except] of the function. *)
Definition _process_single_file_ultra_fast (file_data : FileData) : bool :=
  let w := answers file_data in
  match process_file w with
  | Raise _ => false
  | Ok extracted_text =>
      if negb (str_truthy extracted_text)
         || (String.length (strip extracted_text) <? 10)%nat
      then false
      else
        match parse_resume_text w, generate_embedding w with
        | Ok parsed_data, Ok _ => negb (base.size parsed_data =? 0)%nat
        | _, _ => false
        end
  end.

(** [_stream_files_ultra_fast]: here an archive that cannot be extracted
    raises. *)
Fixpoint _stream_files_ultra_fast (files : list Upload) (all_files : list FileData)
    : Answer (list FileData) :=
  match files with
  | [] => Ok all_files
  | Regular file_data :: rest => _stream_files_ultra_fast rest (all_files ++ [file_data])
  | Zip _ (Ok extracted_files) :: rest =>
      _stream_files_ultra_fast rest (all_files ++ extracted_files)
  | Zip _ (Raise m) :: _ => Raise m
  end.

Section UltraFast.

(** Window [0] is the collection of the files, window [1] the concurrent
    processing of all of them, window [2] the batch save. *)
Variable cancel_in : nat -> bool.
Variable bulk_job_id : string.

(** The answer of [save_batch_resume_data_ultra_fast]. *)
Variable save_batch : Answer unit.

(** The update of the outer [except] (the error text left out). *)
Definition set_failed (jobs : gmap string Job) : gmap string Job :=
  alter (fun job =>
    mkJob failed (total_files job) (processed_files job) (job_successful_files job)
      (job_failed_files job) (job_duplicate_files job) (results job)) bulk_job_id jobs.

(** [_background_process_bulk_ultra_fast], the task that [bulk_parse_resumes]
    starts: the observable registry states.  It never reads the status of the
    job, and writes neither ["processed_files"] nor ["results"]. *)
Definition _background_process_bulk_ultra_fast (files : list Upload)
    (jobs : gmap string Job) : list (gmap string Job) :=
  let jobs0 := serve cancel_in bulk_job_id 0 jobs in
  match _stream_files_ultra_fast files [] with
  | Raise _ => [jobs; jobs0; set_failed jobs0]
  | Ok all_files =>
      let jobs1 := serve cancel_in bulk_job_id 1 jobs0 in
      let statuses := _process_single_file_ultra_fast <$> all_files in
      let successful_results := filter (fun s => s = true) statuses in
      let failed_count := length (filter (fun s => s = false) statuses) in
      let jobs2 :=
        match successful_results with
        | [] => jobs1
        | _ => serve cancel_in bulk_job_id 2 jobs1
        end in
      let jobs3 :=
        match successful_results, save_batch with
        | _ :: _, Raise _ => set_failed jobs2
        | _, _ =>
            alter (fun job =>
              mkJob completed (length all_files) (processed_files job)
                (length successful_results) failed_count (job_duplicate_files job)
                (results job)) bulk_job_id jobs2
        end in
      [jobs; jobs0; jobs1; jobs2; jobs3]
  end.

End UltraFast.

(** *** [process_reupload_files] *)

(** What happens to one failed resume of a re-upload job: it is not in the
    store, it is processed and saved (or not), or the iteration raises. *)
Inductive Reupload : Type :=
| NotFound
| Processed (saved : bool)
| Raised.

Definition reupload_result (resume_id status : string) : FileResult :=
  mkFileResult ("resume_" +:+ resume_id +:+ ".pdf") status None None None 0 None []
    None (Some resume_id) None.

(** [rid.endswith('.metadata')] *)
Definition is_metadata_id (rid : string) : bool :=
  startswith (rev (list_ascii_of_string ".metadata")) (rev (list_ascii_of_string rid)).

Section ReuploadJob.

Variable cancel_in : nat -> bool.
Variable job_id : string.
Variable outcome : string -> Reupload.

(** The resume is processed and saved. *)
Definition saved (resume_id : string) : bool :=
  match outcome resume_id with Processed true => true | _ => false end.

(** The in-place updates of the job dictionary. *)
Definition set_status (s : JobStatus) (jobs : gmap string Job) : gmap string Job :=
  alter (fun job =>
    mkJob s (total_files job) (processed_files job) (job_successful_files job)
      (job_failed_files job) (job_duplicate_files job) (results job)) job_id jobs.

(** The progress update that ends an iteration.  The one of the [except]
    branch leaves ["successful_files"] alone ([successful_count = None]). *)
Definition set_progress (i : nat) (successful_count : option nat) (failed_count : nat)
    (jobs : gmap string Job) : gmap string Job :=
  alter (fun job =>
    mkJob (job_status job) (total_files job) (i + 1)
      (default (job_successful_files job) successful_count) failed_count
      (job_duplicate_files job) (results job)) job_id jobs.

Definition set_final (failed_count : nat) (all_results : list FileResult)
    (jobs : gmap string Job) : gmap string Job :=
  alter (fun job =>
    mkJob (if (failed_count =? 0)%nat then completed else completed_with_errors)
      (total_files job) (processed_files job) (job_successful_files job)
      (job_failed_files job) (job_duplicate_files job) all_results) job_id jobs.

(** The loop over [actual_resume_ids]: the locals [results],
    [successful_count], [failed_count], the registry and its trace.  A resume
    that is not found is appended twice, by its branch and by the common
    [results.append(result)]. *)
Fixpoint reupload_loop (i : nat) (ids : list string) (all_results : list FileResult)
    (successful_count failed_count : nat) (jobs : gmap string Job)
    (trace : list (gmap string Job))
    : list FileResult * nat * gmap string Job * list (gmap string Job) :=
  match ids with
  | [] => (all_results, failed_count, jobs, trace)
  | resume_id :: rest =>
      let jobs := serve cancel_in job_id (i + 1) jobs in
      let '(all_results, successful_count, failed_count, written) :=
        match outcome resume_id with
        | NotFound =>
            (all_results ++ [reupload_result resume_id "failed";
                             reupload_result resume_id "failed"],
             successful_count, failed_count + 1, Some successful_count)
        | Processed true =>
            (all_results ++ [reupload_result resume_id "success"],
             successful_count + 1, failed_count, Some (successful_count + 1))
        | Processed false =>
            (all_results ++ [reupload_result resume_id "failed"],
             successful_count, failed_count + 1, Some successful_count)
        | Raised =>
            (all_results ++ [reupload_result resume_id "failed"],
             successful_count, failed_count + 1, None)
        end in
      let jobs' := set_progress i written failed_count jobs in
      reupload_loop (i + 1) rest all_results successful_count failed_count jobs'
        (trace ++ [jobs; jobs'])
  end.

(** [process_reupload_files]: the observable registry states. *)
Definition process_reupload_files (failed_resume_ids : list string)
    (jobs : gmap string Job) : list (gmap string Job) :=
  match jobs !! job_id with
  | None => [jobs]
  | Some _ =>
      let jobs0 := set_status processing jobs in
      let actual_resume_ids :=
        filter (fun rid => is_metadata_id rid = false) failed_resume_ids in
      let '(all_results, failed_count, jobs1, trace) :=
        reupload_loop 0 actual_resume_ids [] 0 0 jobs0 [jobs; jobs0] in
      trace ++ [set_final failed_count all_results jobs1]
  end.

End ReuploadJob.

(** Sample records: a complete candidate with four skills and no other
    section, and two prior records that share four, respectively three, of
    the five skills of the union. *)
Definition record_of (n e p : string) (skills : list string) : gmap string value :=
  list_to_map [("Name", PyStr n); ("Email", PyStr e); ("Phone", PyStr p);
               ("Skills", PyList (PyStr <$> skills))].

Definition candidate : gmap string value :=
  record_of "Ann Lee" "ann@example.org" "555-0100" ["python"; "sql"; "docker"; "git"].

Definition prior_four_of_five : gmap string value :=
  record_of "Bob Ray" "bob@example.org" "555-0199"
            ["Python"; "SQL "; "docker"; "git"; "rust"].

Definition prior_three_of_five : gmap string value :=
  record_of "Cy Dow" "cy@example.org" "555-0142" ["python"; "sql"; "docker"; "rust"].

Definition no_json (s : string) : option (option (gmap string value)) := None.

(** A candidate without a phone. *)
Definition candidate_without_phone : gmap string value :=
  list_to_map [("Name", PyStr "Ann Lee"); ("Email", PyStr "ann@example.org");
               ("Phone", PyStr "  "); ("Skills", PyList [PyStr "python"])].

(** A record with all six sections. *)
Definition full_record : gmap string value :=
  list_to_map [("Name", PyStr "Dee Fox"); ("Email", PyStr "dee@example.org");
               ("Phone", PyStr "555-0177"); ("Skills", PyList [PyStr "go"]);
               ("Experience", PyList [PyDict [("Company", PyStr "Acme")]]);
               ("Education", PyList [PyDict [("Degree", PyStr "BSc")]])].

(** A sparse record, as the OpenAI adapter of the repository can return it
    (it adds ["TotalExperience"] to every record and keeps a JSON [false] as
    it is): the uniqueness check reads the skills as [["false"]], the quality
    check counts four populated fields. *)
Definition sparse_record : gmap string value :=
  list_to_map [("Name", PyStr "Ann Lee"); ("Email", PyStr "ann@example.org");
               ("Phone", PyStr "555-0100"); ("Skills", PyBool false);
               ("TotalExperience", PyStr "0 months")].

(** Sample files: one whose text parses to [sparse_record] while the store
    is empty, one whose text parses to [full_record], one without any text. *)
Definition answers_for (text : string) (parsed : gmap string value) (id : string) : Answers :=
  mkAnswers (Ok tt) (Ok text) (Ok parsed) (Ok None) (Rows []) id (Ok tt).

Definition file_sparse : FileData :=
  mkFile "ann.pdf" [] 2048 ".pdf" false None
    (answers_for "Ann Lee ann@example.org 555-0100" sparse_record "id-1").

Definition file_full : FileData :=
  mkFile "dee.pdf" [] 4096 ".pdf" false None
    (answers_for "Dee Fox dee@example.org 555-0177 go Acme BSc" full_record "id-2").

Definition file_blank : FileData :=
  mkFile "scan.pdf" [] 1024 ".pdf" false None (answers_for "   " ∅ "id-3").

(** A stored record whose phone is a JSON number, and its key fields with
    the number read as its decimal text. *)
Definition prior_numeric_phone : gmap string value :=
  list_to_map [("Name", PyStr "Bob Ray"); ("Email", PyStr "bob@example.org");
               ("Phone", PyInt 5550199); ("Skills", PyList [PyStr "cobol"])].

Definition prior_numeric_phone_keys : KeyFields :=
  mkKeys "bob ray" "bob@example.org" "5550199" ["cobol"].

Definition candidate_keys : KeyFields :=
  mkKeys "ann lee" "ann@example.org" "555-0100" ["python"; "sql"; "docker"; "git"].

(** A file whose text parses to [candidate], processed while the store holds
    that one record. *)
Definition file_candidate : FileData :=
  mkFile "ann.pdf" [] 2048 ".pdf" false None
    (mkAnswers (Ok tt) (Ok "Ann Lee ann@example.org 555-0100 python sql docker git")
       (Ok candidate) (Ok None) (Rows [StoredDict prior_numeric_phone]) "id-4" (Ok tt)).

(** Sample schedules: no request at all, and one [cancel_job] served in
    window [1]: while the first file is processed or, in the concurrent
    variant, while all of them are. *)
Definition never (w : nat) : bool := false.
Definition during_first_file (w : nat) : bool := (w =? 1)%nat.

(** The registry right after [bulk_parse_resumes] registered the job. *)
Definition fresh_registry : gmap string Job := {[ "job-1" := new_job ]}.

(** A re-upload job of two resumes, as [re_upload_failed_resumes] registers
    it, and outcomes for them. *)
Definition reupload_registry : gmap string Job :=
  {[ "job-2" := mkJob processing 2 0 0 0 0 [] ]}.

Definition second_fails (resume_id : string) : Reupload :=
  if bool_decide (resume_id = "r2") then Processed false else Processed true.

Definition all_saved (resume_id : string) : Reupload := Processed true.

(** *** [cancel_all_jobs] and the counters of a job *)

(** [job.get("status") in ["processing", "queued"]] *)
Definition is_active (job : Job) : bool :=
  bool_decide (job_status job ∈ [processing; queued]).

(** [job["status"] = "cancelled"] *)
Definition set_cancelled (job : Job) : Job :=
  mkJob cancelled (total_files job) (processed_files job) (job_successful_files job)
    (job_failed_files job) (job_duplicate_files job) (results job).

(** The endpoint [cancel_all_jobs]: the registry after the call and the
    [cancelled_count] it reports. *)
Definition cancel_all_jobs (jobs : gmap string Job) : gmap string Job * nat :=
  ((fun job => if is_active job then set_cancelled job else job) <$> jobs,
   base.size (filter (fun kv => is_active kv.2 = true) jobs)).

(** The files a run has counted, over the three shared counters. *)
Definition counted (sh : Shared) : nat :=
  successful_files sh + failed_files sh + duplicate_files sh.

(** The three counters of a job add up to the results it shows. *)
Definition counters_match_results (job : Job) : Prop :=
  job_successful_files job + job_failed_files job + job_duplicate_files job
  = length (results job).

(** The resume of a re-upload job is not in the store. *)
Definition not_found (outcome : string -> Reupload) (resume_id : string) : bool :=
  match outcome resume_id with NotFound => true | _ => false end.

(** The registry shows the job with status [s]. *)
Definition job_is (job_id : string) (s : JobStatus) (jobs : gmap string Job) : Prop :=
  exists job, jobs !! job_id = Some job /\ job_status job = s.

End ResumeController.

(* --------------------------------------------------------------------- *)
(** ** [error_handler.py] *)
(* --------------------------------------------------------------------- *)

Module ErrorHandler.

(** [class ErrorType(Enum)] *)
Inductive ErrorType : Type :=
| MISSING_REQUIRED_FIELDS
| TEXT_EXTRACTION_FAILED
| AI_PARSING_FAILED
| FILE_TYPE_UNSUPPORTED
| FILE_CORRUPTED
| CONTACT_EXTRACTION_FAILED
| UNKNOWN_ERROR.

#[global] Instance ErrorType_eq_dec : EqDecision ErrorType.
Proof. solve_decision. Defined.

Definition all_error_types : list ErrorType :=
  [MISSING_REQUIRED_FIELDS; TEXT_EXTRACTION_FAILED; AI_PARSING_FAILED;
   FILE_TYPE_UNSUPPORTED; FILE_CORRUPTED; CONTACT_EXTRACTION_FAILED; UNKNOWN_ERROR].

(** [error_type.value] *)
Definition value_of (t : ErrorType) : string :=
  match t with
  | MISSING_REQUIRED_FIELDS => "missing_required_fields"
  | TEXT_EXTRACTION_FAILED => "text_extraction_failed"
  | AI_PARSING_FAILED => "ai_parsing_failed"
  | FILE_TYPE_UNSUPPORTED => "file_type_unsupported"
  | FILE_CORRUPTED => "file_corrupted"
  | CONTACT_EXTRACTION_FAILED => "contact_extraction_failed"
  | UNKNOWN_ERROR => "unknown_error"
  end.

(** The error type each class of the taxonomy is constructed with; the base
    class takes whatever its caller gives, so it has none of its own. *)
Definition error_type_of (e : RetryProcessor.ErrorClass) : option ErrorType :=
  match e with
  | RetryProcessor.ResumeParsingError => None
  | RetryProcessor.ContactInfoMissingError => Some MISSING_REQUIRED_FIELDS
  | RetryProcessor.TextExtractionError => Some TEXT_EXTRACTION_FAILED
  | RetryProcessor.AIParsingError => Some AI_PARSING_FAILED
  | RetryProcessor.FileTypeError => Some FILE_TYPE_UNSUPPORTED
  | RetryProcessor.FileCorruptedError => Some FILE_CORRUPTED
  | RetryProcessor.ContactExtractionError => Some CONTACT_EXTRACTION_FAILED
  end.

(** The messages the constructors of the taxonomy build. *)
Definition contact_info_missing_message (missing_fields : list string) : string :=
  "Missing required fields: " +:+ Py.join ", " missing_fields.

Definition text_extraction_message (file_type reason : string) : string :=
  "Failed to extract text from " +:+ file_type +:+ ": " +:+ reason.

Definition ai_parsing_message (reason : string) : string :=
  "AI parsing failed: " +:+ reason.

(** [@dataclass ErrorContext] (the details of the steps left out). *)
Record ErrorContext : Type := mkContext {
  ctx_filename : string;
  ctx_file_size : nat;
  ctx_file_type : string;
  ctx_timestamp : string;
  processing_steps : list string
}.

(** [add_processing_step] *)
Definition add_processing_step (context : ErrorContext) (step : string) : ErrorContext :=
  mkContext (ctx_filename context) (ctx_file_size context) (ctx_file_type context)
    (ctx_timestamp context) (processing_steps context ++ [step]).

(** An entry of [recent_errors]. *)
Record RecentError : Type := mkRecent {
  recent_timestamp : string;
  recent_filename : string;
  recent_error_type : string;
  recent_message : string
}.

(** [self.error_metrics] *)
Record ErrorMetrics : Type := mkMetrics {
  total_errors : nat;
  error_breakdown : gmap string nat;
  recent_errors : list RecentError
}.

(** The metrics of a new [ErrorHandler()]. *)
Definition initial_metrics : ErrorMetrics := mkMetrics 0 ∅ [].

(** [handle_error(error, context)], as it changes the metrics (the
    dictionary it returns is left out). *)
Definition handle_error (error_type : ErrorType) (message : string)
    (context : ErrorContext) (m : ErrorMetrics) : ErrorMetrics :=
  let t := value_of error_type in
  let breakdown := <[t := default 0 (error_breakdown m !! t) + 1]> (error_breakdown m) in
  let recent :=
    recent_errors m ++ [mkRecent (ctx_timestamp context) (ctx_filename context) t message] in
  let recent := if (100 <? length recent)%nat then drop 1 recent else recent in
  mkMetrics (total_errors m + 1) breakdown recent.

(** The slice [l[-limit:]]: a negative start counts from the end, and every
    start is clipped to the list. *)
Definition last_slice {A} (limit : Z) (l : list A) : list A :=
  let n := Z.of_nat (length l) in
  let start := (- limit)%Z in
  let start := if (start <? 0)%Z then Z.max (start + n) 0 else Z.min start n in
  drop (Z.to_nat start) l.

(** [get_recent_errors(limit)] *)
Definition get_recent_errors (limit : Z) (m : ErrorMetrics) : list RecentError :=
  last_slice limit (recent_errors m).

(** The endpoint [/recent-errors] of the controller: the errors returned
    and their count. *)
Definition recent_errors_endpoint (limit : Z) (m : ErrorMetrics)
    : list RecentError * nat :=
  let limit := Z.min limit 100 in
  let recent_errors := get_recent_errors limit m in
  (recent_errors, length recent_errors).

(** The errors handled one after the other, each with its context. *)
Definition handle_all (errors : list (ErrorType * string * ErrorContext))
    (m : ErrorMetrics) : ErrorMetrics :=
  fold_left (fun m e => handle_error e.1.1 e.1.2 e.2 m) errors m.

(** The entry that [handle_error] records for an error. *)
Definition recorded (e : ErrorType * string * ErrorContext) : RecentError :=
  mkRecent (ctx_timestamp e.2) (ctx_filename e.2) (value_of e.1.1) e.1.2.

(** The number of errors of one type. *)
Definition count_of (t : ErrorType) (errors : list (ErrorType * string * ErrorContext))
    : nat :=
  length (filter (fun e => e.1.1 = t) errors).

End ErrorHandler.

(* --------------------------------------------------------------------- *)
(** ** [text_preprocessor.py] *)
(* --------------------------------------------------------------------- *)

Module TextPreprocessor.
Import Py.

(** The newline, [text.split('\n')] and ['\n'.join(lines)]. *)
Definition nl : string := String "010" "".

Definition lines_of (text : string) : list string := split_on "010" text.

Definition unlines (lines : list string) : string := join nl lines.

(** [any(keyword in line_lower for keyword in keywords)] *)
Definition any_keyword (keywords : list string) (line_lower : string) : bool :=
  existsb (fun keyword => str_contains keyword line_lower) keywords.

Definition entering_keywords : list string := ["contact"; "personal information"; "reach me"].
Definition leaving_keywords : list string := ["experience"; "education"; "skills"].

(** The loop of [extract_contact_sections] over the lines, with its locals
    [in_contact_section] and [contact_section_lines]; the [break] returns. *)
Fixpoint contact_section_loop (lines : list string) (in_contact_section : bool)
    (contact_section_lines : list string) : list string :=
  match lines with
  | [] => contact_section_lines
  | line :: rest =>
      let line_lower := strip (lower line) in
      if any_keyword entering_keywords line_lower then
        contact_section_loop rest true (contact_section_lines ++ [line])
      else if in_contact_section && any_keyword leaving_keywords line_lower then
        contact_section_lines
      else if in_contact_section then
        contact_section_loop rest true (contact_section_lines ++ [line])
      else contact_section_loop rest in_contact_section contact_section_lines
  end.

(** [extract_contact_sections(text)]: the dictionary, as its items in
    insertion order. *)
Definition extract_contact_sections (text : string) : list (string * string) :=
  let lines := lines_of text in
  [("header", unlines (take 10 lines));
   ("footer", unlines (ErrorHandler.last_slice 10 lines));
   ("contact_section", unlines (contact_section_loop lines false []))].

End TextPreprocessor.

(* --------------------------------------------------------------------- *)
(** ** [retry_processor.py]: the strategies *)
(* --------------------------------------------------------------------- *)

Module RetryStrategies.
Import Py RetryProcessor.

(** [text.encode('utf-8')], on ASCII text. *)
Definition encode (text : string) : list byte := list_byte_of_string text.

(** [_enhance_text_with_contact_info] *)
Definition _enhance_text_with_contact_info (text : string)
    (contact_info : ContactExtractor.ContactInfo) : string :=
  let email := ContactExtractor.email contact_info in
  let phone := ContactExtractor.phone contact_info in
  let enhanced_lines :=
    if opt_truthy email || opt_truthy phone then
      ["CONTACT INFORMATION:" +:+ TextPreprocessor.nl
       +:+ (if opt_truthy email
            then "Email: " +:+ default "" email +:+ TextPreprocessor.nl else "")
       +:+ (if opt_truthy phone
            then "Phone: " +:+ default "" phone +:+ TextPreprocessor.nl else "")
       +:+ TextPreprocessor.nl]
    else [] in
  TextPreprocessor.unlines (enhanced_lines ++ [text]).

Section Strategies.

Context {R St : Type}.

(** [FileProcessor().process_file(file_content, filename)]: the text, or the
    exception it raises (none of them of the taxonomy). *)
Variable process_file : list byte -> string -> ResumeController.Answer string.

(** [self.text_preprocessor.preprocess_text], which returns its argument
    when anything goes wrong inside. *)
Variable preprocess_text : string -> string.

Variable re_findall : string -> bool -> string -> list string.
Variable re_sub : string -> string -> string -> string.

(** [processing_func(file_content, filename, *args, **kwargs)], with the
    state it works on. *)
Variable processing_func : list byte -> string -> St -> Outcome R * St.

Definition extract_contact_info : string -> ContactExtractor.ContactInfo :=
  ContactExtractor.extract_contact_info re_findall re_sub.

(** [_process_with_enhanced_preprocessing]; the validation of the
    preprocessed text only writes to the log. *)
Definition _process_with_enhanced_preprocessing
    (file_content : list byte) (filename : string) (st : St) : Outcome R * St :=
  match process_file file_content filename with
  | ResumeController.Raise message => (Raises (Unexpected message), st)
  | ResumeController.Ok extracted_text =>
      let preprocessed_text := preprocess_text extracted_text in
      processing_func (encode preprocessed_text) filename st
  end.

(** [_process_with_fallback_extraction] *)
Definition _process_with_fallback_extraction
    (file_content : list byte) (filename : string) (st : St) : Outcome R * St :=
  match process_file file_content filename with
  | ResumeController.Raise message => (Raises (Unexpected message), st)
  | ResumeController.Ok extracted_text =>
      let contact_info := extract_contact_info extracted_text in
      if opt_truthy (ContactExtractor.email contact_info)
         && opt_truthy (ContactExtractor.phone contact_info)
      then
        let enhanced_text := _enhance_text_with_contact_info extracted_text contact_info in
        processing_func (encode enhanced_text) filename st
      else processing_func file_content filename st
  end.

(** The loop of [_process_with_manual_extraction] over the sections, on the
    locals [best_contact_info] and [best_confidence]. *)
Definition best_of_sections (contact_sections : list (string * string))
    : option ContactExtractor.ContactInfo * float :=
  fold_left
    (fun best section =>
       if str_truthy (strip section.2) then
         let contact_info := extract_contact_info section.2 in
         if PrimFloat.ltb best.2 (ContactExtractor.confidence contact_info)
         then (Some contact_info, ContactExtractor.confidence contact_info)
         else best
       else best)
    contact_sections (None, 0.0%float).

(** [_process_with_manual_extraction] *)
Definition _process_with_manual_extraction
    (file_content : list byte) (filename : string) (st : St) : Outcome R * St :=
  match process_file file_content filename with
  | ResumeController.Raise message => (Raises (Unexpected message), st)
  | ResumeController.Ok extracted_text =>
      let contact_sections := TextPreprocessor.extract_contact_sections extracted_text in
      match fst (best_of_sections contact_sections) with
      | Some best_contact_info =>
          if PrimFloat.ltb 0.5%float (ContactExtractor.confidence best_contact_info) then
            let enhanced_text :=
              _enhance_text_with_contact_info extracted_text best_contact_info in
            processing_func (encode enhanced_text) filename st
          else processing_func file_content filename st
      | None => processing_func file_content filename st
      end
  end.

(** [_process_with_strategy] *)
Definition _process_with_strategy (file_content : list byte) (filename : string)
    (strategy : RetryStrategy) (st : St) : Outcome R * St :=
  match strategy with
  | STANDARD => processing_func file_content filename st
  | ENHANCED_PREPROCESSING => _process_with_enhanced_preprocessing file_content filename st
  | FALLBACK_EXTRACTION => _process_with_fallback_extraction file_content filename st
  | MANUAL_EXTRACTION => _process_with_manual_extraction file_content filename st
  end.

End Strategies.

(** The confidences a merged contact can carry. *)
Definition confidence_levels : list float :=
  [0.0; 0.6; 0.7; 0.79999999999999993; 0.8; 0.9; 1.0]%float.

(** Every entry of a log is a failure that carries its error. *)
Definition failures (attempts : list RetryAttempt) : Prop :=
  Forall (fun a => success a = false /\ is_Some (error a)) attempts.

(** Sample collaborators: a text extractor that finds one line, and a
    processing function that hands back the content it was given. *)
Definition sample_process_file (file_content : list byte) (filename : string)
    : ResumeController.Answer string :=
  ResumeController.Ok ContactExtractor.sample_text.

Definition sample_processing_func (file_content : list byte) (filename : string)
    (st : unit) : Outcome (list byte) * unit :=
  (Returned file_content, st).

End RetryStrategies.

(* --------------------------------------------------------------------- *)
(** ** [enhanced_resume_processor.py] *)
(* --------------------------------------------------------------------- *)

Module EnhancedResumeProcessor.
Import Py RetryProcessor ErrorHandler.

(** [type(v).__name__] *)
Definition type_name (v : value) : string :=
  match v with
  | PyNone => "NoneType"
  | PyBool _ => "bool"
  | PyInt _ => "int"
  | PyStr _ => "str"
  | PyList _ => "list"
  | PyDict _ => "dict"
  end.

(** [v.strip()] with the text of the [AttributeError] it raises on a value
    that is not a string. *)
Definition strip_or_raise (v : value) : ResumeController.Answer string :=
  match method_strip v with
  | Some s => ResumeController.Ok s
  | None =>
      ResumeController.Raise
        ("'" +:+ type_name v +:+ "' object has no attribute 'strip'")
  end.

Definition required_fields : list string := ["Name"; "Email"; "Phone"].

Definition placeholders : list string := ["unknown"; "n/a"; "none"; ""].

(** The loop of [_validate_required_fields], on its local [missing_fields]. *)
Fixpoint required_fields_loop (fields : list string) (parsed_data : gmap string value)
    (missing_fields : list string) : ResumeController.Answer (list string) :=
  match fields with
  | [] => ResumeController.Ok missing_fields
  | field :: rest =>
      match strip_or_raise (default (PyStr "") (parsed_data !! field)) with
      | ResumeController.Raise message => ResumeController.Raise message
      | ResumeController.Ok value =>
          if negb (str_truthy value) || bool_decide (lower value ∈ placeholders)
          then required_fields_loop rest parsed_data (missing_fields ++ [field])
          else required_fields_loop rest parsed_data missing_fields
      end
  end.

(** [_validate_required_fields] *)
Definition _validate_required_fields (parsed_data : gmap string value)
    : ResumeController.Answer (list string) :=
  required_fields_loop required_fields parsed_data [].

(** [if contact_info.email and not parsed_data.get('Email'): ...] and the
    same for the phone. *)
Definition fill_from_contact_info (contact_info : ContactExtractor.ContactInfo)
    (parsed_data : gmap string value) : gmap string value :=
  let fill key found (parsed_data : gmap string value) :=
    if opt_truthy found && negb (truthy (default PyNone (parsed_data !! key)))
    then <[key := PyStr (default "" found)]> parsed_data
    else parsed_data in
  fill "Phone" (ContactExtractor.phone contact_info)
    (fill "Email" (ContactExtractor.email contact_info) parsed_data).

(** What [_process_resume_core] returns: the record, and beside it the
    entries it stores under ["_processing_metadata"] (two of them are
    floats; the time is left out). *)
Record CoreResult : Type := mkCore {
  core_parsed_data : gmap string value;
  contact_extraction_confidence : float;
  contact_extraction_source : string;
  core_file_type : string
}.

(** An exception outside the taxonomy, as the last [except] of the core
    re-raises it. *)
Definition converted (message : string) : Raised :=
  Taxonomy AIParsingError (ai_parsing_message ("Unexpected processing error: " +:+ message)).

Section Core.

Variable process_file : list byte -> string -> ResumeController.Answer string.
Variable preprocess_text : string -> string.
Variable re_findall : string -> bool -> string -> list string.
Variable re_sub : string -> string -> string -> string.

(** [self.openai_service.parse_resume_text], which raises plain exceptions. *)
Variable parse_resume_text : string -> ResumeController.Answer (gmap string value).

(** [datetime.now().isoformat()] *)
Variable now : string.

(** The steps of the core after the required fields are found: the second
    fill, and the metadata. *)
Definition finish (contact_info : ContactExtractor.ContactInfo) (file_type : string)
    (parsed_data : gmap string value) : CoreResult :=
  mkCore (delete "_processing_metadata" (fill_from_contact_info contact_info parsed_data))
    (ContactExtractor.confidence contact_info) (ContactExtractor.source contact_info)
    file_type.

(** [_process_resume_core]: what it returns or raises, and the metrics of the
    error handler after it.  An error of the taxonomy raised inside passes
    through [handle_error]; any other exception is re-raised as an
    [AIParsingError] without passing through it. *)
Definition _process_resume_core (file_content : list byte) (filename : string)
    (m : ErrorMetrics) : Outcome CoreResult * ErrorMetrics :=
  let file_type :=
    match FileValidator._detect_file_type file_content with
    | Some t => if str_truthy t then t else "unknown"
    | None => "unknown"
    end in
  let context := mkContext filename (length file_content) file_type now [] in
  let context := add_processing_step context "text_extraction" in
  match process_file file_content filename with
  | ResumeController.Raise message => (Raises (converted message), m)
  | ResumeController.Ok extracted_text =>
  if negb (str_truthy extracted_text) || (String.length (strip extracted_text) <? 10)%nat
  then
    let message := text_extraction_message file_type "No meaningful text content found" in
    (Raises (Taxonomy TextExtractionError message),
     handle_error TEXT_EXTRACTION_FAILED message context m)
  else
  let context := add_processing_step context "text_preprocessing" in
  let preprocessed_text := preprocess_text extracted_text in
  let context := add_processing_step context "contact_extraction" in
  let contact_info :=
    ContactExtractor.extract_contact_info re_findall re_sub preprocessed_text in
  let context := add_processing_step context "ai_parsing" in
  match parse_resume_text preprocessed_text with
  | ResumeController.Raise message => (Raises (converted message), m)
  | ResumeController.Ok parsed_data =>
  if (base.size parsed_data =? 0)%nat then
    let message := ai_parsing_message "AI returned empty response" in
    (Raises (Taxonomy AIParsingError message),
     handle_error AI_PARSING_FAILED message context m)
  else
  let context := add_processing_step context "field_validation" in
  match _validate_required_fields parsed_data with
  | ResumeController.Raise message => (Raises (converted message), m)
  | ResumeController.Ok [] => (Returned (finish contact_info file_type parsed_data), m)
  | ResumeController.Ok (_ :: _) =>
      let parsed_data := fill_from_contact_info contact_info parsed_data in
      match _validate_required_fields parsed_data with
      | ResumeController.Raise message => (Raises (converted message), m)
      | ResumeController.Ok [] =>
          (Returned (finish contact_info file_type parsed_data), m)
      | ResumeController.Ok missing_fields =>
          let message := contact_info_missing_message missing_fields in
          (Raises (Taxonomy ContactInfoMissingError message),
           handle_error MISSING_REQUIRED_FIELDS message context m)
      end
  end end end.

End Core.

(** The error of a [ProcessingResult]: the [ResumeParsingError] built from
    a validation result or in the last [except] (its [error_type] is a plain
    string there), or what the retry loop reports. *)
Inductive ProcessingError : Type :=
| Built (error_type message : string)
| Reported (e : Raised).

(** [@dataclass ProcessingResult] (times, contact info and statistics are
    never set). *)
Record ProcessingResult : Type := mkProcessing {
  pr_success : bool;
  pr_parsed_data : option CoreResult;
  pr_error : option ProcessingError;
  pr_attempts : option (list RetryAttempt);
  pr_validation_result : option FileValidator.FileValidationResult
}.

(** [self.metrics] of the processor (the keys it never updates left out). *)
Record Metrics : Type := mkProcessorMetrics {
  total_processed : nat;
  successful_parses : nat;
  failed_parses : nat;
  average_processing_time : float
}.

Definition fresh_metrics : Metrics := mkProcessorMetrics 0 0 0 0.0%float.

Definition float_of_nat (n : nat) : float :=
  PrimFloat.of_uint63 (Uint63.of_Z (Z.of_nat n)).

(** [_update_metrics(success, processing_time)] *)
Definition _update_metrics (success : bool) (processing_time : float) (m : Metrics)
    : Metrics :=
  let total_processed := total_processed m + 1 in
  let total_time :=
    (average_processing_time m * float_of_nat (total_processed - 1))%float in
  mkProcessorMetrics total_processed
    (if success then successful_parses m + 1 else successful_parses m)
    (if success then failed_parses m else failed_parses m + 1)
    ((total_time + processing_time) / float_of_nat total_processed)%float.

(** [message or fallback] on an [Optional[str]] *)
Definition or_text (message : option string) (fallback : string) : string :=
  match message with
  | Some s => if str_truthy s then s else fallback
  | None => fallback
  end.

(** [_create_validation_error] *)
Definition _create_validation_error (validation_result : FileValidator.FileValidationResult)
    : ProcessingError :=
  if FileValidator.is_metadata validation_result then
    Built "file_type_unsupported" "This is a metadata file, not a resume"
  else if FileValidator.is_corrupted validation_result then
    Built "file_corrupted"
      (or_text (FileValidator.error_message validation_result)
         "File appears to be corrupted")
  else
    Built "file_type_unsupported"
      (or_text (FileValidator.error_message validation_result)
         "Unsupported file type").

Section Processor.

Variable process_file : list byte -> string -> ResumeController.Answer string.
Variable preprocess_text : string -> string.
Variable re_findall : string -> bool -> string -> list string.
Variable re_sub : string -> string -> string -> string.

(** The answer of the AI adapter to the call made in attempt [i]. *)
Variable parse_resume_text_at : nat -> string -> ResumeController.Answer (gmap string value).

Variable now : string.

(** What attempt [i] of the retry loop does with a strategy.  The outcome
    does not depend on the metrics of the error handler, which are followed
    by [_process_resume_core]. *)
Definition attempt (file_content : list byte) (filename : string)
    (i : nat) (strategy : RetryStrategy) : Outcome CoreResult :=
  fst (RetryStrategies._process_with_strategy process_file preprocess_text
         re_findall re_sub
         (_process_resume_core process_file preprocess_text re_findall re_sub
            (parse_resume_text_at i) now)
         file_content filename strategy initial_metrics).

(** [process_resume]: the result, and the metrics of the processor after
    it; [elapsed] is the time the call measures for itself.  The processor is
    built with [RetryProcessor(max_retries=3)]. *)
Definition process_resume (file_content : list byte) (filename : string)
    (elapsed : float) (m : Metrics) : ProcessingResult * Metrics :=
  let validation_result := fst (FileValidator.validate_file file_content filename) in
  if negb (FileValidator.is_valid validation_result) then
    (mkProcessing false None (Some (_create_validation_error validation_result)) None
       (Some validation_result), m)
  else
    match process_with_retry 3 (attempt file_content filename) with
    | None =>
        (mkProcessing false None
           (Some (Built "unknown_error"
                    "Unexpected error: 'NoneType' object is not subscriptable"))
           None None, m)
    | Some retry_result =>
        let m := _update_metrics (res_success retry_result) elapsed m in
        if res_success retry_result then
          (mkProcessing true (res_result retry_result) None
             (Some (res_attempts retry_result)) (Some validation_result), m)
        else
          (mkProcessing false None (Reported <$> res_error retry_result)
             (Some (res_attempts retry_result)) (Some validation_result), m)
    end.

End Processor.

(** A required field as [_validate_required_fields] accepts it: a string
    that is not blank and not a placeholder. *)
Definition field_present (parsed_data : gmap string value) (field : string) : Prop :=
  exists s, parsed_data !! field = Some (PyStr s) /\
            str_truthy (strip s) = true /\ lower (strip s) ∉ placeholders.

(** Sample collaborators: text extractors that find a resume, find next to
    nothing, or raise; a preprocessor that changes nothing; an AI adapter that
    returns a complete record. *)
Definition extracts_resume (file_content : list byte) (filename : string)
    : ResumeController.Answer string :=
  ResumeController.Ok "Dee Fox dee@example.org 555-0177 go Acme BSc".

Definition extracts_little (file_content : list byte) (filename : string)
    : ResumeController.Answer string :=
  ResumeController.Ok "n/a".

Definition extraction_raises (file_content : list byte) (filename : string)
    : ResumeController.Answer string :=
  ResumeController.Raise "Failed to process PDF file: cannot open broken document".

Definition unchanged (text : string) : string := text.

Definition parses_fully (text : string) : ResumeController.Answer (gmap string value) :=
  ResumeController.Ok ResumeController.full_record.

Definition sample_pdf : list byte := FileValidator.b "%PDF-1.4 one page %%EOF".

End EnhancedResumeProcessor.

(* ===================================================================== *)
(** * Part II: properties *)
(* ===================================================================== *)

Module RetryProcessorProofs.
Import RetryProcessor.

Section RetryFacts.

Context {R : Type}.
Variable max_retries : Z.
Variable run : nat -> RetryStrategy -> Outcome R.

Abbreviation loop := (retry_loop max_retries run).
Abbreviation last_err := (last_error_at run).
Abbreviation strat := (strategy_at run).
Abbreviation entry := (failed_entry run).

(** Every iteration appends at most one entry to the log. *)
Lemma retry_loop_length indices : forall attempts last_error res,
  loop indices attempts last_error = Some res ->
  length (res_attempts res) <= length attempts + length indices.
Proof.
  induction indices as [|k rest IH]; intros attempts last_error res H; simpl in H.
  - discriminate.
  - destruct (run k _) as [r|[e msg|msg]].
    + inversion H; subst; simpl. rewrite length_app; simpl. lia.
    + destruct (max_retries <=? Z.of_nat k)%Z.
      * inversion H; subst; simpl. rewrite length_app; simpl. lia.
      * apply IH in H. rewrite length_app in H; simpl in *. lia.
    + inversion H; subst; simpl. lia.
Qed.

(** The loop returns at its last index [max_retries] at the latest. *)
Lemma retry_loop_returns n : forall k attempts last_error,
  (0 < n)%nat -> (Z.of_nat (k + n) = max_retries + 1)%Z ->
  is_Some (loop (seq k n) attempts last_error).
Proof.
  induction n as [|n IH]; intros k attempts last_error Hn Hend; [lia|].
  simpl. destruct (run k _) as [r|[e msg|msg]]; [by eexists| |by eexists].
  destruct (Z.leb_spec max_retries (Z.of_nat k)); [by eexists|].
  apply IH; lia.
Qed.

Lemma last_error_at_S k e msg :
  run k (strat k) = Raises (Taxonomy e msg) -> last_err (S k) = Some e.
Proof. unfold strategy_at. simpl. by intros ->. Qed.

(** Failed attempts [k .. j-1] are logged one by one and the loop goes on
    with attempt [j]. *)
Lemma retry_loop_skip_failures n : forall k j attempts,
  k <= j -> j <= k + n -> (Z.of_nat j <= max_retries)%Z ->
  (forall i, k <= i < j -> fails_at run i) ->
  loop (seq k n) attempts (last_err k) =
  loop (seq j (k + n - j)) (attempts ++ omap entry (seq k (j - k))) (last_err j).
Proof.
  induction n as [|n IH]; intros k j attempts Hkj Hjn Hmax Hfail.
  - assert (j = k) as -> by lia. replace (k + 0 - k) with 0 by lia.
    by replace (k - k) with 0 by lia.
  - destruct (decide (j = k)) as [->|Hne].
    + replace (k + S n - k) with (S n) by lia. replace (k - k) with 0 by lia.
      simpl. by rewrite app_nil_r.
    + destruct (Hfail k) as (e & msg & Hk); [lia|].
      cbn [seq retry_loop]. fold (strat k). rewrite Hk.
      destruct (Z.leb_spec max_retries (Z.of_nat k)); [lia|].
      rewrite <- (last_error_at_S _ _ _ Hk).
      rewrite (IH (S k) j) by (try lia; intros; apply Hfail; lia).
      replace (S k + n - j) with (k + S n - j) by lia.
      replace (j - k) with (S (j - S k)) by lia.
      cbn [seq omap list_omap]. unfold failed_entry at 2. rewrite Hk.
      by rewrite <- app_assoc.
Qed.

Lemma log_ok_snoc attempts a :
  log_ok attempts ->
  attempt_number a = length attempts + 1 ->
  strategy a = _get_strategy_for_attempt (length attempts) (last_class attempts) ->
  (attempts <> [] -> is_Some (last_class attempts)) ->
  log_ok (attempts ++ [a]).
Proof.
  intros Hok Hnum Hstrat Hlast i b Hi.
  destruct (decide (i < length attempts)) as [Hlt|Hge].
  - rewrite lookup_app_l in Hi by done.
    destruct (Hok i b Hi) as [H1 H2]. split; [done|].
    destruct i as [|i']; [done|].
    destruct H2 as (c & e & msg & Hc & He & Hs).
    exists c, e, msg. split; [|done].
    rewrite lookup_app_l; [done|lia].
  - pose proof (lookup_lt_Some _ _ _ Hi) as Hlen. rewrite length_app in Hlen; simpl in Hlen.
    assert (i = length attempts) as -> by lia.
    rewrite lookup_app_r, Nat.sub_diag in Hi by lia. simpl in Hi.
    inversion Hi; subst b. split; [done|].
    destruct (length attempts) as [|n] eqn:Hn.
    + by rewrite Hstrat.
    + assert (attempts <> []) as Hne by (intros ->; simpl in Hn; lia).
      destruct (Hlast Hne) as [e He]. unfold last_class in He.
      destruct (last attempts) as [c|] eqn:Hc; [|done].
      destruct (error c) as [[e' msg]|] eqn:Hec; [|done]. simpl in He. inversion He; subst e'.
      exists c, e, msg. rewrite last_lookup in Hc. rewrite Hn in Hc. simpl in Hc.
      split; [by rewrite lookup_app_l by lia|]. split; [done|].
      rewrite Hstrat. unfold last_class. rewrite last_lookup, Hn. simpl. rewrite Hc. simpl.
      by rewrite Hec.
Qed.

Lemma last_class_snoc attempts a : last_class (attempts ++ [a]) = fst <$> error a.
Proof. unfold last_class. by rewrite last_snoc. Qed.

Lemma retry_loop_log_ok n : forall k attempts res,
  length attempts = k ->
  log_ok attempts ->
  (attempts <> [] -> is_Some (last_class attempts)) ->
  loop (seq k n) attempts (last_class attempts) = Some res ->
  log_ok (res_attempts res).
Proof.
  induction n as [|n IH]; intros k attempts res Hlen Hok Hlast H; [done|].
  cbn [seq retry_loop] in H.
  destruct (run k _) as [r|[e msg|msg]] eqn:Hrun.
  - inversion H; subst res; simpl. apply log_ok_snoc; simpl; try done; by rewrite Hlen.
  - assert (log_ok (attempts ++
      [mkAttempt (k + 1) (_get_strategy_for_attempt k (last_class attempts)) false (Some (e, msg))]))
      as Hok' by (apply log_ok_snoc; simpl; try done; by rewrite Hlen).
    destruct (max_retries <=? Z.of_nat k)%Z.
    + by inversion H; subst res.
    + eapply (IH (S k)); [| exact Hok' | | ].
      * rewrite length_app; simpl; lia.
      * intros _. rewrite last_class_snoc. by eexists.
      * by rewrite last_class_snoc.
  - by inversion H; subst res.
Qed.

(** Two processing functions that answer alike up to attempt [j] make the
    same choices up to attempt [j]. *)
Lemma last_error_at_ext (run' : nat -> RetryStrategy -> Outcome R) j :
  (forall i s, i < j -> run' i s = run i s) ->
  forall k, k <= j -> last_error_at run' k = last_err k.
Proof.
  intros Hext k. induction k as [|k IH]; intros Hk; [done|].
  simpl. rewrite IH by lia. by rewrite Hext by lia.
Qed.

Lemma omap_failed_entry_ext (run' : nat -> RetryStrategy -> Outcome R) j :
  (forall i s, i < j -> run' i s = run i s) ->
  omap (failed_entry run') (seq 0 j) = omap entry (seq 0 j).
Proof.
  intros Hext. apply list_omap_ext, Forall_Forall2_diag, Forall_forall.
  intros i Hi. apply elem_of_seq in Hi.
  unfold failed_entry, strategy_at.
  rewrite (last_error_at_ext run' j Hext) by lia. by rewrite Hext by lia.
Qed.

Lemma length_failed_entries j :
  (forall i, i < j -> fails_at run i) -> length (omap entry (seq 0 j)) = j.
Proof.
  intros Hfail. induction j as [|j IH]; [done|].
  rewrite seq_S, omap_app, length_app, IH by (intros; apply Hfail; lia).
  destruct (Hfail j) as (e & msg & Hj); [lia|].
  simpl. unfold failed_entry. rewrite Hj. simpl. lia.
Qed.

(** An unexpected exception at attempt [j], reached through failed attempts
    only, ends the call with the log of those failures. *)
Lemma process_with_retry_unexpected j msg :
  (Z.of_nat j <= max_retries)%Z ->
  (forall i, i < j -> fails_at run i) ->
  run j (strat j) = Raises (Unexpected msg) ->
  process_with_retry max_retries run =
    Some (mkResult false None (Some (Unexpected msg)) (omap entry (seq 0 j))).
Proof.
  intros Hmax Hfail Hj. unfold process_with_retry, Py.range.
  etrans.
  { apply (retry_loop_skip_failures _ 0 j []); [lia|lia|done|intros; apply Hfail; lia]. }
  replace (0 + Z.to_nat (max_retries + 1) - j) with (S (Z.to_nat max_retries - j)) by lia.
  cbn [seq retry_loop]. fold (strat j). rewrite Hj. by rewrite Nat.sub_0_r.
Qed.

End RetryFacts.

(** C7: for every file processed through [process_with_retry] the recorded
    attempt log has at most [max_retries + 1] entries (and a result is returned
    whenever [max_retries] is not negative); an unexpected, non-taxonomy
    exception at attempt [j] ends the call at once with [success = False], the
    log holding the [j] failed attempts before it, and nothing that the
    processing function would answer to a later attempt changes the result. *)
Theorem C7_attempt_log_bounded_and_unexpected_aborts
    {R : Type} (max_retries : Z) (run : nat -> RetryStrategy -> Outcome R) :
  (forall res, process_with_retry max_retries run = Some res ->
     (Z.of_nat (length (res_attempts res)) <= max_retries + 1)%Z) /\
  ((0 <= max_retries)%Z -> is_Some (process_with_retry max_retries run)) /\
  (forall j msg,
     (Z.of_nat j <= max_retries)%Z ->
     (forall i, i < j -> fails_at run i) ->
     run j (strategy_at run j) = Raises (Unexpected msg) ->
     exists res,
       process_with_retry max_retries run = Some res /\
       res_success res = false /\
       res_error res = Some (Unexpected msg) /\
       res_attempts res = omap (failed_entry run) (seq 0 j) /\
       length (res_attempts res) = j /\
       forall run' : nat -> RetryStrategy -> Outcome R,
         (forall i s, i <= j -> run' i s = run i s) ->
         process_with_retry max_retries run' = Some res).
Proof.
  split; [|split].
  - intros res H. unfold process_with_retry, Py.range in H.
    pose proof (retry_loop_length _ _ _ _ _ _ H) as Hlen.
    rewrite length_seq in Hlen. simpl in Hlen.
    destruct (Z.to_nat (max_retries + 1)) eqn:Hn; [simpl in H; discriminate|lia].
  - intros Hpos. unfold process_with_retry, Py.range.
    apply retry_loop_returns; lia.
  - intros j msg Hmax Hfail Hj. eexists. split; [by apply process_with_retry_unexpected|].
    simpl. do 3 (split; [done|]). split; [by apply length_failed_entries|].
    intros run' Hext.
    assert (forall i s, i < j -> run' i s = run i s) as Hlt by (intros; apply Hext; lia).
    assert (forall k, k <= j -> strategy_at run' k = strategy_at run k) as Hstrat.
    { intros k Hk. unfold strategy_at. by rewrite (last_error_at_ext run run' j Hlt). }
    rewrite (process_with_retry_unexpected max_retries run' j msg); [| done | |].
    + by rewrite (omap_failed_entry_ext run run' j Hlt).
    + intros i Hi. destruct (Hfail i Hi) as (e & m & He). exists e, m.
      rewrite Hstrat, Hext by lia. done.
    + rewrite Hstrat, Hext by lia. done.
Qed.

Lemma C7_witness :
  exists res,
    process_with_retry 3 run_unexpected_second = Some res /\
    res_success res = false /\
    res_error res = Some (Unexpected "connection reset") /\
    res_attempts res =
      [mkAttempt 1 STANDARD false (Some (AIParsingError, "AI parsing failed: bad json"))] /\
    length (res_attempts res) = 1 /\
    forall run' : nat -> RetryStrategy -> Outcome nat,
      (forall i s, i <= 1 -> run' i s = run_unexpected_second i s) ->
      process_with_retry 3 run' = Some res.
Proof.
  apply (proj2 (proj2 (C7_attempt_log_bounded_and_unexpected_aborts 3 run_unexpected_second))
           1 "connection reset").
  - lia.
  - intros i Hi. assert (i = 0) as -> by lia. by eexists _, _.
  - reflexivity.
Defined.

(** C8: the first attempt always runs [STANDARD]; after a
    [ContactInfoMissingError] the attempts 2, 3, 4 run enhanced preprocessing,
    fallback extraction, manual extraction, after an [AIParsingError] enhanced
    preprocessing, fallback extraction, standard; and in the log of every call
    each later attempt's strategy is the table entry for the class of the
    failure logged just before it. *)
Theorem C8_strategy_escalation :
  (forall last_error, _get_strategy_for_attempt 0 last_error = STANDARD) /\
  map (fun n => _get_strategy_for_attempt n (Some ContactInfoMissingError)) [1; 2; 3]
    = [ENHANCED_PREPROCESSING; FALLBACK_EXTRACTION; MANUAL_EXTRACTION] /\
  map (fun n => _get_strategy_for_attempt n (Some AIParsingError)) [1; 2; 3]
    = [ENHANCED_PREPROCESSING; FALLBACK_EXTRACTION; STANDARD] /\
  (forall (R : Type) (max_retries : Z) (run : nat -> RetryStrategy -> Outcome R) res,
     process_with_retry max_retries run = Some res -> log_ok (res_attempts res)).
Proof.
  split; [done|]. split; [done|]. split; [done|].
  intros R max_retries run res H. unfold process_with_retry, Py.range in H.
  apply (retry_loop_log_ok max_retries run (Z.to_nat (max_retries + 1)) 0 [] res);
    [done | by intros i a | done | exact H].
Qed.

Lemma C8_witness :
  log_ok
    (map (fun '(n, s) => mkAttempt n s false
            (Some (ContactInfoMissingError, "Missing required fields: email, phone")))
       [(1, STANDARD); (2, ENHANCED_PREPROCESSING);
        (3, FALLBACK_EXTRACTION); (4, MANUAL_EXTRACTION)]).
Proof.
  apply (proj2 (proj2 (proj2 C8_strategy_escalation)) nat 3%Z run_contact_missing
           (mkResult false None
              (Some (Taxonomy ContactInfoMissingError "Missing required fields: email, phone")) _)).
  reflexivity.
Defined.

End RetryProcessorProofs.

Module FileValidatorProofs.
Import FileValidator.

Example splitext_plain : splitext "cv.final.PDF" = ("cv.final", ".PDF").
Proof. reflexivity. Qed.

Example splitext_hidden : splitext "dir.d/.profile" = ("dir.d/.profile", "").
Proof. reflexivity. Qed.

Example validate_pdf_ok :
  validate_file (b "%PDF-1.4 one page %%EOF") "cv.pdf"
  = (mkValidation true ".pdf" false false None None, []).
Proof. reflexivity. Qed.

(** A signature that contradicts the extension is logged, not rejected. *)
Example validate_mismatch_is_warning :
  validate_file (b "%PDF-1.4 one page %%EOF") "cv.txt"
  = (mkValidation true ".txt" false false None None,
     ["File extension .txt doesn't match content type .pdf"]).
Proof. reflexivity. Qed.

Example validate_unsupported :
  fst (validate_file (b "GIF89a") "photo.gif")
  = mkValidation false ".gif" false false
      (Some "Unsupported file type: .gif")
      (Some "Please upload a supported file type: .pdf, .docx, .doc, .txt, .rtf").
Proof. reflexivity. Qed.

(** C9, as stated, fails: for an empty file named like a metadata sidecar the
    metadata check answers first, and the result is a metadata rejection
    ([is_metadata = True], [is_corrupted = False]), not the empty-file
    corruption. *)
Lemma C9_counterexample_empty_metadata_file :
  fst (validate_file [] "resume.metadata.json")
  = mkValidation false ".json" true false
      (Some "This is a metadata file, not a resume")
      (Some "Please upload the actual resume file (PDF or DOCX)").
Proof. reflexivity. Qed.

(** C9, amended: [validate_file] applies its checks in the order
    metadata filename, non-empty, size ceiling, supported extension, then the
    byte-signature sniff (which only logs) and the check of the file type.
    Each check decides the result for every input that the checks before it
    let through; in particular a metadata filename gives a metadata rejection
    whatever the content, the empty content included. *)
Theorem C9_validation_order (file_content : list byte) (filename : string) :
  let r := fst (validate_file file_content filename) in
  let ext := Py.lower (snd (splitext filename)) in
  (_is_metadata_file filename = true ->
     is_valid r = false /\ is_metadata r = true /\ is_corrupted r = false) /\
  (_is_metadata_file filename = false -> file_content = [] ->
     is_valid r = false /\ is_metadata r = false /\ is_corrupted r = true /\
     error_message r = Some "File is empty") /\
  (_is_metadata_file filename = false -> file_content <> [] ->
   (max_size < Z.of_nat (length file_content))%Z ->
     is_valid r = false /\ is_metadata r = false /\ is_corrupted r = false /\
     error_message r = Some "File is too large (max 50MB)") /\
  (_is_metadata_file filename = false -> file_content <> [] ->
   (Z.of_nat (length file_content) <= max_size)%Z ->
   validation_func ext = None ->
     is_valid r = false /\ is_metadata r = false /\ is_corrupted r = false /\
     error_message r = Some ("Unsupported file type: " +:+ ext)) /\
  (forall validate,
   _is_metadata_file filename = false -> file_content <> [] ->
   (Z.of_nat (length file_content) <= max_size)%Z ->
   validation_func ext = Some validate ->
     is_valid r = negb (fst (validate file_content)) /\ is_metadata r = false /\
     is_corrupted r = fst (validate file_content) /\
     error_message r = (if fst (validate file_content)
                        then snd (validate file_content) else None)).
Proof.
  intros r ext. subst r ext. unfold validate_file.
  destruct (_is_metadata_file filename) eqn:Hmeta.
  { split; [done|]. repeat split; intros; done. }
  split; [done|].
  destruct file_content as [|c0 content]; simpl length.
  { split; [done|]. repeat split; intros; done. }
  cbn [Nat.eqb].
  split; [done|].
  destruct (Z.ltb_spec max_size (Z.of_nat (S (length content)))) as [Hbig|Hsmall].
  { split; [done|]. split; [intros; lia|]. intros; lia. }
  split; [intros; lia|].
  destruct (validation_func _) as [validate|] eqn:Hfun.
  - split; [done|]. intros v _ _ _ Hv. inversion Hv; subst v.
    destruct (validate (c0 :: content)) as [[] msg]; done.
  - split; [done|]. intros v _ _ _ Hv. discriminate.
Qed.

Lemma C9_witness :
  let r := fst (validate_file [] "resume.metadata.json") in
  is_valid r = false /\ is_metadata r = true /\ is_corrupted r = false.
Proof.
  apply (proj1 (C9_validation_order [] "resume.metadata.json")).
  reflexivity.
Defined.

End FileValidatorProofs.

Module ContactExtractorProofs.
Import ContactExtractor.

Lemma combine_confidence r c :
  confidence (_combine_results r c)
  = merged_confidence (confidence r) (confidence c)
      (agree (email c) (email r)) (agree (phone c) (phone r)).
Proof. reflexivity. Qed.

Lemma agree_truthy a b : agree a b = true -> Py.opt_truthy a = true /\ Py.opt_truthy b = true.
Proof. unfold agree. intros H. by repeat (apply andb_true_iff in H as [H ?]). Qed.

Section Facts.

Variable re_findall : string -> bool -> string -> list string.
Variable re_sub : string -> string -> string -> string.

Abbreviation by_regex := (_extract_with_regex re_findall re_sub).
Abbreviation by_context := (_extract_with_context re_findall re_sub).

Lemma by_regex_confidence text :
  confidence (by_regex text)
  = regex_confidence (Py.opt_truthy (email (by_regex text)))
                     (Py.opt_truthy (phone (by_regex text))).
Proof. reflexivity. Qed.

Lemma by_context_confidence text :
  confidence (by_context text)
  = context_confidence (Py.opt_truthy (email (by_context text)))
                       (Py.opt_truthy (phone (by_context text))).
Proof. unfold _extract_with_context. by destruct (context_lines _ _ _ _ _). Qed.

End Facts.

(** Over the confidences the two methods can report, a second agreement
    never moves the result: the first one already reached the cap. *)
Lemma merged_confidence_cases (er pr ec pc same_email same_phone : bool) :
  (same_email = true -> er = true /\ ec = true) ->
  (same_phone = true -> pr = true /\ pc = true) ->
  let c_regex := regex_confidence er pr in
  let c_context := context_confidence ec pc in
  let m := merged_confidence c_regex c_context same_email same_phone in
  (same_email || same_phone = true ->
     m = Py.fmin (Py.fmax c_regex c_context + 0.1)%float 1.0%float) /\
  (same_email || same_phone = false -> m = Py.fmax c_regex c_context) /\
  PrimFloat.leb 0.0%float m = true /\ PrimFloat.leb m 1.0%float = true.
Proof.
  intros He Hp.
  destruct same_email, same_phone;
    try (destruct He as [-> ->]; [done|]); try (destruct Hp as [-> ->]; [done|]);
    repeat match goal with b : bool |- _ => destruct b end;
    vm_compute; repeat split; (done || (intros; discriminate)).
Qed.

(** C4: for every input text, when the pattern-based and the context-based
    extraction find the same email, the merged confidence is
    [min(max(pattern_confidence, context_confidence) + 0.1, 1.0)]; the same
    holds when they agree on the phone; without any agreement it is the
    larger of the two; and the merged confidence always lies in [[0, 1]]. *)
Theorem C4_merged_confidence
    (re_findall : string -> bool -> string -> list string)
    (re_sub : string -> string -> string -> string) (text : string) :
  let regex_result := _extract_with_regex re_findall re_sub text in
  let context_result := _extract_with_context re_findall re_sub text in
  let merged := extract_contact_info re_findall re_sub text in
  let individual_max :=
    Py.fmax (confidence regex_result) (confidence context_result) in
  (agree (email context_result) (email regex_result) = true ->
     confidence merged = Py.fmin (individual_max + 0.1)%float 1.0%float) /\
  (agree (phone context_result) (phone regex_result) = true ->
     confidence merged = Py.fmin (individual_max + 0.1)%float 1.0%float) /\
  (agree (email context_result) (email regex_result) = false ->
   agree (phone context_result) (phone regex_result) = false ->
     confidence merged = individual_max) /\
  PrimFloat.leb 0.0%float (confidence merged) = true /\
  PrimFloat.leb (confidence merged) 1.0%float = true.
Proof.
  intros regex_result context_result merged individual_max.
  subst merged individual_max. unfold extract_contact_info.
  fold regex_result context_result.
  rewrite combine_confidence.
  subst regex_result context_result.
  rewrite by_regex_confidence, by_context_confidence.
  set (r := _extract_with_regex re_findall re_sub text).
  set (c := _extract_with_context re_findall re_sub text).
  destruct (merged_confidence_cases
              (Py.opt_truthy (email r)) (Py.opt_truthy (phone r))
              (Py.opt_truthy (email c)) (Py.opt_truthy (phone c))
              (agree (email c) (email r)) (agree (phone c) (phone r)))
    as (Hsame & Hnone & Hlo & Hhi).
  { intros H. apply agree_truthy in H. tauto. }
  { intros H. apply agree_truthy in H. tauto. }
  split; [intros H; apply Hsame; by rewrite H|].
  split; [intros H; apply Hsame; rewrite H; by destruct (agree _ _)|].
  split; [intros H1 H2; apply Hnone; by rewrite H1, H2|].
  done.
Qed.

Lemma C4_witness :
  confidence (extract_contact_info sample_findall sample_sub sample_text)
  = Py.fmin (Py.fmax 0.6 0.7 + 0.1)%float 1.0%float.
Proof.
  apply (proj1 (C4_merged_confidence sample_findall sample_sub sample_text)).
  reflexivity.
Defined.

End ContactExtractorProofs.

Module ResumeControllerProofs.
Import Py ResumeController.

(** *** Quality classification *)

Lemma missing_essential_length parsed_data :
  length (missing_essential (_validate_parsed_data parsed_data)) = missing_count parsed_data.
Proof.
  unfold _validate_parsed_data, missing_count, field_missing, essential_fields.
  repeat match goal with |- context [let '(_, _) := ?x in _] => destruct x as [? ?] eqn:? end.
  simpl. rewrite length_fmap.
  rewrite !filter_cons, filter_nil.
  destruct (populated (default _ (parsed_data !! "Name")));
  destruct (populated (default _ (parsed_data !! "Email")));
  destruct (populated (default _ (parsed_data !! "Phone"))); reflexivity.
Qed.

Lemma missing_list_length (parsed_data : gmap string value) :
  length (lower <$> filter
            (fun field => negb (populated (default (PyStr "") (parsed_data !! field))))
            essential_fields)
  = missing_count parsed_data.
Proof.
  unfold missing_count, field_missing, essential_fields.
  rewrite length_fmap, !filter_cons, filter_nil.
  destruct (populated (default _ (parsed_data !! "Name")));
  destruct (populated (default _ (parsed_data !! "Email")));
  destruct (populated (default _ (parsed_data !! "Phone"))); reflexivity.
Qed.

Lemma warning_list_length (parsed_data : gmap string value) :
  length ((if list_absent (default (PyList []) (parsed_data !! "Experience"))
           then ["missing_experience"] else [])
          ++ (if list_absent (default (PyList []) (parsed_data !! "Skills"))
              then ["missing_skills"] else [])
          ++ (if list_absent (default (PyList []) (parsed_data !! "Education"))
              then ["missing_education"] else []))
  = secondary_count parsed_data.
Proof.
  unfold secondary_count.
  destruct (list_absent (default _ (parsed_data !! "Experience")));
  destruct (list_absent (default _ (parsed_data !! "Skills")));
  destruct (list_absent (default _ (parsed_data !! "Education"))); reflexivity.
Qed.

Lemma completeness_score_populated parsed_data :
  completeness_score (_validate_parsed_data parsed_data) = populated_count parsed_data.
Proof.
  unfold _validate_parsed_data.
  repeat match goal with |- context [let '(_, _) := ?x in _] => destruct x as [? ?] eqn:? end.
  reflexivity.
Qed.

(** The tier as a decision table over the three counts. *)
Lemma quality_table parsed_data :
  quality (_validate_parsed_data parsed_data)
  = if (populated_count parsed_data <? 5)%nat then poor
    else if (2 <=? missing_count parsed_data)%nat then poor
    else if (missing_count parsed_data =? 1)%nat
            || (2 <=? secondary_count parsed_data)%nat then partial
    else good.
Proof.
  unfold _validate_parsed_data.
  rewrite missing_list_length, warning_list_length.
  fold (populated_count parsed_data).
  destruct (populated_count parsed_data <? 5)%nat;
  destruct (2 <=? missing_count parsed_data)%nat;
  destruct ((missing_count parsed_data =? 1)%nat
            || (2 <=? secondary_count parsed_data)%nat); reflexivity.
Qed.

(** C1: for every parsed record the classifier gives [poor] when two or
    more of Name, Email, Phone are missing; [partial] when exactly one of them
    is missing or at least two of the secondary warnings (missing experience,
    skills, education) are present; [good] otherwise; and, whatever the above
    says, a record with fewer than five populated fields is [poor]. *)
Theorem C1_quality_tiers (parsed_data : gmap string value) :
  let q := quality (_validate_parsed_data parsed_data) in
  let missing := missing_count parsed_data in
  let secondary := secondary_count parsed_data in
  let fields := populated_count parsed_data in
  (fields < 5 -> q = poor) /\
  (2 <= missing -> q = poor) /\
  (5 <= fields -> missing < 2 -> missing = 1 \/ 2 <= secondary -> q = partial) /\
  (5 <= fields -> missing = 0 -> secondary < 2 -> q = good).
Proof.
  intros q missing secondary fields. subst q. rewrite quality_table.
  fold missing secondary fields.
  destruct (Nat.ltb_spec fields 5); destruct (Nat.leb_spec 2 missing);
  destruct (Nat.eqb_spec missing 1); destruct (Nat.leb_spec 2 secondary);
  simpl; repeat split; intros; try done; lia.
Qed.

Lemma C1_witness :
  quality (_validate_parsed_data full_record) = good /\
  quality (_validate_parsed_data candidate_without_phone) = poor.
Proof.
  split.
  - apply (proj2 (proj2 (proj2 (C1_quality_tiers full_record)))); vm_compute; lia.
  - apply (proj1 (C1_quality_tiers candidate_without_phone)); vm_compute; lia.
Defined.

(** *** Uniqueness check *)

Lemma same_truthy a c : str_truthy a = true -> same a c = bool_decide (a = c).
Proof.
  unfold same. intros Ha. case_bool_decide as H; [|by rewrite andb_false_r].
  subst c. by rewrite Ha.
Qed.

Lemma missing_of_nil k :
  missing_of k = [] ->
  str_truthy (name k) = true /\ str_truthy (email k) = true /\
  str_truthy (phone k) = true /\ skills_normalized k <> [].
Proof.
  unfold missing_of.
  destruct (str_truthy (name k)), (str_truthy (email k)), (str_truthy (phone k)),
    (skills_normalized k); simpl; intros H; try discriminate. done.
Qed.

Lemma key_fields_Some d ke :
  key_fields d = Some ke ->
  lower <$> method_strip (default (PyStr "") (d !! "Name")) = Some (name ke) /\
  lower <$> method_strip (default (PyStr "") (d !! "Email")) = Some (email ke) /\
  method_strip (default (PyStr "") (d !! "Phone")) = Some (phone ke) /\
  normalize_skills (default (PyList []) (d !! "Skills")) = Some (skills_normalized ke).
Proof.
  unfold key_fields. intros H.
  destruct (method_strip (default _ (d !! "Name"))) as [n|]; [|done].
  destruct (method_strip (default _ (d !! "Email"))) as [e|]; [|done].
  destruct (method_strip (default _ (d !! "Phone"))) as [p|]; [|done].
  destruct (normalize_skills (default _ (d !! "Skills"))) as [s|]; [|done].
  simpl in H. by inversion H.
Qed.

Section UniquenessFacts.

Variable json_loads : string -> option (option (gmap string value)).

Abbreviation check := (_check_resume_uniqueness json_loads).

(** One iteration of the loop, on a complete candidate and a well-typed
    prior record, decides as the policy says. *)
Lemma compare_with_policy k d ke :
  missing_of k = [] -> key_fields d = Some ke ->
  compare_with k d = Some (verdict_of (duplicate_of k ke)).
Proof.
  intros Hk Hd. apply missing_of_nil in Hk as (Hn & He & Hp & Hs).
  apply key_fields_Some in Hd as (Hdn & Hde & Hdp & Hds).
  unfold compare_with, duplicate_of.
  rewrite Hdn. simpl. rewrite (same_truthy _ _ Hn).
  case_bool_decide; [done|].
  rewrite Hde. simpl. rewrite (same_truthy _ _ He).
  case_bool_decide; [done|].
  rewrite Hdp. simpl. rewrite (same_truthy _ _ Hp).
  case_bool_decide; [done|].
  rewrite Hds. simpl.
  destruct (skills_normalized k) as [|s0 sk]; [done|].
  destruct (skills_normalized ke) as [|e0 se]; [done|].
  rewrite bool_decide_true by done. simpl.
  by destruct (skills_similar _ _).
Qed.

Lemma compare_all_policy k rows :
  missing_of k = [] -> Forall (row_well_typed json_loads) rows ->
  compare_all json_loads k rows
  = Some (default (mkUniqueness true unique_resume [] None)
                  (verdict_of (first_duplicate json_loads k rows))).
Proof.
  intros Hk Hrows. induction Hrows as [|row rows Hrow _ IH]; [done|].
  simpl. unfold row_keys.
  destruct (existing_dict json_loads row) as [d|] eqn:Hd; [|done].
  destruct (Hrow d Hd) as [ke Hke]. simpl. rewrite Hke.
  rewrite (compare_with_policy k d ke Hk Hke).
  destruct (duplicate_of k ke) as [[r v]|]; [done|]. exact IH.
Qed.

Lemma first_duplicate_Some k rows :
  is_Some (first_duplicate json_loads k rows) <->
  exists row ke, row ∈ rows /\ row_keys json_loads row = Some ke /\
                 is_Some (duplicate_of k ke).
Proof.
  induction rows as [|row rows IH]; simpl.
  - split; [by intros [? ?]|]. intros (row & ke & Hin & _). by apply elem_of_nil in Hin.
  - destruct (row_keys json_loads row) as [ke|] eqn:Hrow.
    + destruct (duplicate_of k ke) as [v|] eqn:Hdup.
      * split; [|by eexists]. intros _. exists row, ke. rewrite Hdup.
        split; [by left|]. split; [done|by eexists].
      * rewrite IH. split.
        -- intros (r & ke' & Hin & H1 & H2). exists r, ke'. split; [by right|done].
        -- intros (r & ke' & Hin & H1 & H2). apply elem_of_cons in Hin as [->|Hin].
           ++ rewrite Hrow in H1. inversion H1; subst ke'. rewrite Hdup in H2.
              by destruct H2.
           ++ by exists r, ke'.
    + rewrite IH. split.
      * intros (r & ke' & Hin & H1 & H2). exists r, ke'. split; [by right|done].
      * intros (r & ke' & Hin & H1 & H2). apply elem_of_cons in Hin as [->|Hin].
        -- by rewrite Hrow in H1.
        -- by exists r, ke'.
Qed.

(** A candidate whose name, email or phone is not a string, or with a skill
    that is not one, ends in the outer [except]: the check reports
    [uniqueness_check_failed] and does not read the history. *)
Lemma ill_typed_candidate_check_failed parsed_data history :
  key_fields parsed_data = None -> check history parsed_data = (check_failed, 0).
Proof. unfold _check_resume_uniqueness. by intros ->. Qed.

End UniquenessFacts.

(** So does a prior record with such a field: the candidate is then rejected
    without any match. *)
Example ill_typed_row_check_failed :
  fst (_check_resume_uniqueness no_json (Rows [StoredDict {[ "Name" := PyInt 7 ]}])
         candidate) = check_failed.
Proof. vm_compute. reflexivity. Qed.

(** The float test [similarity >= 0.8] agrees with the exact comparison
    [5 * common >= 4 * total] for every union of up to 300 skills. *)
Lemma similarity_threshold_exact :
  forallb (fun total =>
     forallb (fun common =>
        Bool.eqb (PrimFloat.leb 0.8%float (true_div common total))
                 (4 * total <=? 5 * common)%nat)
       (seq 0 (total + 1)))
    (seq 1 300) = true.
Proof. vm_compute. reflexivity. Qed.

(** On a history whose rows have the types the loop expects, a complete new
    record is rejected exactly when some prior record of the history sample
    has the same name (compared stripped and case-insensitively), or else the
    same email (likewise), or else the same stripped phone, or else a skill
    set whose Jaccard similarity with the candidate's is at least 0.8; the
    verdict is the one of the first such prior record, by that priority.  Four
    shared skills out of a union of five are a duplicate, three out of five
    are not. *)
Lemma duplicate_policy_on_well_typed_history :
  (forall json_loads parsed_data k rows,
     key_fields parsed_data = Some k ->
     missing_of k = [] ->
     Forall (row_well_typed json_loads) rows ->
     let u := fst (_check_resume_uniqueness json_loads (Rows rows) parsed_data) in
     u = default (mkUniqueness true unique_resume [] None)
                 (verdict_of (first_duplicate json_loads k rows)) /\
     (is_unique u = false <->
      exists row ke, row ∈ rows /\ row_keys json_loads row = Some ke /\
                     is_Some (duplicate_of k ke))) /\
  skills_similar ["python"; "sql"; "docker"; "git"]
                 ["python"; "sql"; "docker"; "git"; "rust"] = true /\
  skills_similar ["python"; "sql"; "docker"; "git"]
                 ["python"; "sql"; "docker"; "rust"] = false /\
  reason (fst (_check_resume_uniqueness no_json (Rows [StoredDict prior_four_of_five])
                 candidate)) = duplicate_skills /\
  reason (fst (_check_resume_uniqueness no_json (Rows [StoredDict prior_three_of_five])
                 candidate)) = unique_resume.
Proof.
  split; [|by vm_compute].
  intros json_loads parsed_data k rows Hk Hmiss Hrows u.
  assert (u = default (mkUniqueness true unique_resume [] None)
                (verdict_of (first_duplicate json_loads k rows))) as Hu.
  { subst u. unfold _check_resume_uniqueness. rewrite Hk, Hmiss. simpl.
    by rewrite (compare_all_policy json_loads k rows Hmiss Hrows). }
  split; [done|].
  rewrite Hu, <- first_duplicate_Some.
  destruct (first_duplicate json_loads k rows) as [[r v]|]; simpl.
  - split; [by eexists|done].
  - split; [done|]. by intros [? ?].
Qed.

Example duplicate_policy_sample :
  let u := fst (_check_resume_uniqueness no_json
                  (Rows [StoredOther; StoredDict prior_three_of_five;
                         StoredDict prior_four_of_five]) candidate) in
  u = mkUniqueness false duplicate_skills [] None /\
  (is_unique u = false <->
   exists row ke,
     row ∈ [StoredOther; StoredDict prior_three_of_five; StoredDict prior_four_of_five] /\
     row_keys no_json row = Some ke /\
     is_Some (duplicate_of (mkKeys "ann lee" "ann@example.org" "555-0100"
                              ["python"; "sql"; "docker"; "git"]) ke)).
Proof.
  apply (proj1 duplicate_policy_on_well_typed_history no_json candidate
           (mkKeys "ann lee" "ann@example.org" "555-0100" ["python"; "sql"; "docker"; "git"])
           [StoredOther; StoredDict prior_three_of_five; StoredDict prior_four_of_five]).
  - by vm_compute.
  - reflexivity.
  - apply Forall_cons; split; [intros d Hd; discriminate|].
    apply Forall_cons; split; [intros d Hd; inversion Hd; subst d; vm_compute; by eexists|].
    apply Forall_cons; split; [intros d Hd; inversion Hd; subst d; vm_compute; by eexists|].
    apply Forall_nil; exact I.
Qed.

(** A stored record whose phone is not a string (a number, a null) makes
    the comparison raise as soon as its name and email differ from the
    candidate's: the [.strip()] of the phone has no value. *)
Lemma compare_with_unreadable_phone k d ne ee v :
  missing_of k = [] ->
  d !! "Name" = Some (PyStr ne) -> d !! "Email" = Some (PyStr ee) ->
  d !! "Phone" = Some v -> method_strip v = None ->
  lower (strip ne) <> name k -> lower (strip ee) <> email k ->
  compare_with k d = None.
Proof.
  intros Hk Hn He Hp Hv Hname Hemail.
  apply missing_of_nil in Hk as (Hkn & Hke & _ & _).
  unfold compare_with. rewrite Hn. simpl. rewrite (same_truthy _ _ Hkn).
  rewrite bool_decide_false by congruence.
  rewrite He. simpl. rewrite (same_truthy _ _ Hke).
  rewrite bool_decide_false by congruence.
  rewrite Hp. simpl. by rewrite Hv.
Qed.

(** C5 fails on the code.  The history holds one prior record, with another
    name, another email, no skill in common with the candidate and a phone
    stored as a number (another one, too): no prior record matches by any of
    the four criteria.  The [.strip()] of that phone raises, the check ends in
    its outer [except] with [is_unique = False], and the per-file processor
    rejects the complete, unique candidate with status ["duplicate"] and
    counts it as a duplicate.  A record that does match is reported as a
    duplicate only when it stands before the unreadable one.  The rows the
    loop cannot decode are skipped, and a failing read of the history lets the
    candidate through.  In general a stored record whose phone is not a
    string, at the head of the history, rejects every complete candidate with
    another name and email. *)
Theorem C5_unreadable_row_rejects_unique_record :
  key_fields candidate = Some candidate_keys /\
  missing_of candidate_keys = [] /\
  duplicate_of candidate_keys prior_numeric_phone_keys = None /\
  _check_resume_uniqueness no_json (Rows [StoredDict prior_numeric_phone]) candidate
  = (mkUniqueness false uniqueness_check_failed [] None, 1) /\
  (let out :=
     _process_single_file_from_data no_json file_candidate
       (initial_result file_candidate 0) (mkShared [] 0 0 0) in
   fr_status (fst out) = "duplicate" /\
   reason <$> fr_uniqueness_check (fst out) = Some uniqueness_check_failed /\
   duplicate_files (snd out) = 1 /\ successful_files (snd out) = 0 /\
   batch_data_to_save (snd out) = []) /\
  reason (fst (_check_resume_uniqueness no_json
                 (Rows [StoredDict prior_numeric_phone; StoredDict candidate]) candidate))
  = uniqueness_check_failed /\
  reason (fst (_check_resume_uniqueness no_json
                 (Rows [StoredDict candidate; StoredDict prior_numeric_phone]) candidate))
  = duplicate_name /\
  fst (_check_resume_uniqueness no_json (Rows [StoredText "{"; StoredOther]) candidate)
  = mkUniqueness true unique_resume [] None /\
  is_unique (fst (_check_resume_uniqueness no_json ReadFails candidate)) = true /\
  (forall json_loads parsed_data k d ne ee v rows,
     key_fields parsed_data = Some k -> missing_of k = [] ->
     d !! "Name" = Some (PyStr ne) -> d !! "Email" = Some (PyStr ee) ->
     d !! "Phone" = Some v -> method_strip v = None ->
     lower (strip ne) <> name k -> lower (strip ee) <> email k ->
     _check_resume_uniqueness json_loads (Rows (StoredDict d :: rows)) parsed_data
     = (mkUniqueness false uniqueness_check_failed [] None, 1)).
Proof.
  do 9 (split; [by vm_compute|]).
  intros json_loads parsed_data k d ne ee v rows Hk Hmiss Hn He Hp Hv Hname Hemail.
  unfold _check_resume_uniqueness. rewrite Hk, Hmiss. simpl.
  by rewrite (compare_with_unreadable_phone k d ne ee v Hmiss Hn He Hp Hv Hname Hemail).
Qed.


Lemma compare_with_reason k d u :
  compare_with k d = Some (Some u) -> is_duplicate_reason (reason u) = true.
Proof.
  unfold compare_with. intros H.
  repeat match type of H with
  | context [mbind _ ?o] => destruct o; simpl in H; [|discriminate]
  | context [fmap _ ?o] => destruct o; simpl in H; [|discriminate]
  | context [if ?c then _ else _] => destruct c; [by inversion H|]
  | context [match ?l with [] => _ | _ :: _ => _ end] => destruct l
  end; try discriminate; by inversion H.
Qed.

Lemma compare_all_reason json_loads k rows u :
  compare_all json_loads k rows = Some u ->
  reason u = unique_resume \/ is_duplicate_reason (reason u) = true.
Proof.
  induction rows as [|row rows IH]; simpl; intros H.
  - inversion H. by left.
  - destruct (existing_dict json_loads row) as [d|]; [|by apply IH].
    destruct (compare_with k d) as [[v|]|] eqn:Hc; [|by apply IH|discriminate].
    inversion H; subst v. right. by eapply compare_with_reason.
Qed.



(** *** Per-file processing *)

Lemma strip_truthy s : str_truthy (strip s) = true -> str_truthy s = true.
Proof. by destruct s. Qed.

Lemma lower_truthy s : str_truthy (lower s) = true -> str_truthy s = true.
Proof. by destruct s. Qed.

Lemma lstrip_keeps_last {A} (sp : A -> bool) l c :
  sp c = false -> lstrip_with sp (l ++ [c]) <> [].
Proof.
  intros Hc. induction l as [|a l IH]; simpl.
  - by rewrite Hc.
  - by destruct (sp a).
Qed.

(** Text that starts with a character other than whitespace does not
    strip to nothing. *)
Lemma strip_leading c s : isspace c = false -> str_truthy (strip (String c s)) = true.
Proof.
  intros Hc. unfold strip, strip_with. simpl. rewrite Hc. simpl.
  pose proof (lstrip_keeps_last isspace (rev (list_ascii_of_string s)) c Hc) as Hne.
  destruct (lstrip_with isspace (rev (list_ascii_of_string s) ++ [c])) as [|a l]; [done|].
  simpl. destruct (rev l) as [|? ?]; done.
Qed.

(** A field that the uniqueness check accepts is populated. *)
Lemma accepted_field_populated (parsed_data : gmap string value) key n :
  method_strip (default (PyStr "") (parsed_data !! key)) = Some n ->
  str_truthy n = true ->
  exists v, parsed_data !! key = Some v /\ populated v = true.
Proof.
  intros Hstrip Hn. destruct (parsed_data !! key) as [v|]; simpl in Hstrip.
  - exists v. split; [done|]. destruct v; try discriminate.
    inversion Hstrip; subst n. unfold populated. simpl.
    by rewrite Hn, (strip_truthy _ Hn).
  - inversion Hstrip; subst n. done.
Qed.

Lemma accepted_skill_list_populated (parsed_data : gmap string value) l ks :
  default (PyList []) (parsed_data !! "Skills") = PyList l ->
  normalize_skills (PyList l) = Some ks -> ks <> [] ->
  exists v, parsed_data !! "Skills" = Some v /\ populated v = true.
Proof.
  intros Hget Hnorm Hks.
  assert (l <> []) as Hl by (intros ->; simpl in Hnorm; by inversion Hnorm).
  destruct (parsed_data !! "Skills") as [v|]; simpl in Hget; [|by inversion Hget].
  subst v. exists (PyList l). split; [done|].
  unfold populated. destruct l as [|x l]; [done|]. simpl truthy.
  change (str (PyList (x :: l))) with (String "[" (join ", " (map repr (x :: l)) +:+ "]")).
  by rewrite strip_leading.
Qed.

(** Five distinct populated items make five populated fields. *)
Lemma five_populated (parsed_data : gmap string value) k1 k2 k3 k4 k5 v1 v2 v3 v4 v5 :
  NoDup [k1; k2; k3; k4; k5] ->
  parsed_data !! k1 = Some v1 -> populated v1 = true ->
  parsed_data !! k2 = Some v2 -> populated v2 = true ->
  parsed_data !! k3 = Some v3 -> populated v3 = true ->
  parsed_data !! k4 = Some v4 -> populated v4 = true ->
  parsed_data !! k5 = Some v5 -> populated v5 = true ->
  5 <= populated_count parsed_data.
Proof.
  intros Hnd H1 P1 H2 P2 H3 P3 H4 P4 H5 P5. unfold populated_count.
  change 5 with (length [k1; k2; k3; k4; k5]).
  rewrite <- (length_fmap fst (filter _ (map_to_list parsed_data))).
  apply submseteq_length, NoDup_submseteq; [done|].
  intros key Hin. rewrite !elem_of_cons, elem_of_nil in Hin.
  apply list_elem_of_fmap.
  destruct Hin as [->|[->|[->|[->|[->|[]]]]]];
    [exists (k1, v1)|exists (k2, v2)|exists (k3, v3)|exists (k4, v4)|exists (k5, v5)];
    (split; [done|]); apply list_elem_of_filter; (split; [done|]);
    by apply elem_of_map_to_list.
Qed.

(** A record that passes the required-fields check with a list of skills
    and also carries a populated ["TotalExperience"], as every record of the
    repository's OpenAI adapter does, has five populated fields: it is never
    [poor].  With that adapter the [poor] case of C10 therefore needs a
    ["Skills"] value that is not a list. *)
Lemma complete_record_with_total_experience parsed_data k :
  key_fields parsed_data = Some k -> missing_of k = [] ->
  is_list (default (PyList []) (parsed_data !! "Skills")) = true ->
  populated (default (PyStr "") (parsed_data !! "TotalExperience")) = true ->
  quality (_validate_parsed_data parsed_data) <> poor.
Proof.
  intros Hk Hmiss Hlist Htotal.
  apply missing_of_nil in Hmiss as (Hn & He & Hp & Hs).
  unfold key_fields in Hk.
  destruct (method_strip (default _ (parsed_data !! "Name"))) as [n|] eqn:Hsn; [|done].
  destruct (method_strip (default _ (parsed_data !! "Email"))) as [e|] eqn:Hse; [|done].
  destruct (method_strip (default _ (parsed_data !! "Phone"))) as [p|] eqn:Hsp; [|done].
  destruct (normalize_skills (default _ (parsed_data !! "Skills"))) as [s|] eqn:Hss; [|done].
  simpl in Hk. inversion Hk; subst k. simpl in *.
  destruct (accepted_field_populated _ _ _ Hsn (lower_truthy _ Hn)) as (v1 & H1 & P1).
  destruct (accepted_field_populated _ _ _ Hse (lower_truthy _ He)) as (v2 & H2 & P2).
  destruct (accepted_field_populated _ _ _ Hsp Hp) as (v3 & H3 & P3).
  destruct (default (PyList []) (parsed_data !! "Skills")) as [| | | |l|] eqn:Hget;
    try discriminate.
  destruct (accepted_skill_list_populated _ _ _ Hget Hss Hs) as (v4 & H4 & P4).
  destruct (parsed_data !! "TotalExperience") as [v5|] eqn:H5; [|done]. simpl in Htotal.
  assert (5 <= populated_count parsed_data) as Hfive.
  { apply (five_populated parsed_data "Name" "Email" "Phone" "Skills" "TotalExperience"
             v1 v2 v3 v4 v5); try done.
    by apply (bool_decide_unpack _); vm_compute. }
  assert (missing_count parsed_data = 0) as Hzero.
  { unfold missing_count, field_missing. by rewrite H1, H2, H3; simpl; rewrite P1, P2, P3. }
  rewrite quality_table, Hzero.
  destruct (Nat.ltb_spec (populated_count parsed_data) 5); [lia|].
  simpl. by destruct (secondary_count parsed_data) as [|[|?]].
Qed.

(** C10: when a file yields non-blank text, parses, and passes the
    uniqueness check, the per-file processor counts it as successful and
    appends its record to the batch handed to persistence, whatever its
    quality is; for quality [poor] the per-file result is at the same time set
    to status ["failed"], so the successful count moves ahead of the number of
    results whose status is a success.  The job of the sample run reports one
    successful file and no result with a success status. *)
Theorem C10_poor_record_counted_successful :
  (forall json_loads file_data file_result sh extracted_text parsed_data,
     makedirs (answers file_data) = Ok tt ->
     process_file (answers file_data) = Ok extracted_text ->
     str_truthy (strip extracted_text) = true ->
     parse_resume_text (answers file_data) = Ok parsed_data ->
     write_file (answers file_data) = Ok tt ->
     let validation_result := _validate_parsed_data parsed_data in
     let updated := update_with_validation parsed_data validation_result in
     is_unique (fst (_check_resume_uniqueness json_loads
                       (get_all_resumes (answers file_data)) updated)) = true ->
     let r := fst (_process_single_file_from_data json_loads file_data file_result sh) in
     let sh' := snd (_process_single_file_from_data json_loads file_data file_result sh) in
     successful_files sh' = successful_files sh + 1 /\
     failed_files sh' = failed_files sh /\
     duplicate_files sh' = duplicate_files sh /\
     (exists item, batch_data_to_save sh' = batch_data_to_save sh ++ [item] /\
                   bi_parsed_data item = updated /\
                   bi_filename item = filename file_data) /\
     fr_status r = final_status (quality validation_result) /\
     (quality validation_result = poor ->
        fr_status r = "failed" /\
        fr_error r = Some "Insufficient data quality for parsing" /\
        forall results_so_far,
          count_success results_so_far <= successful_files sh ->
          count_success (results_so_far ++ [r]) < successful_files sh')) /\
  (exists job,
     last (_background_process_bulk no_json never "job-1" [Regular file_sparse]
             fresh_registry) ≫= observed "job-1" = Some job /\
     job_successful_files job = 1 /\
     count_success (results job) = 0 /\
     fr_status <$> results job = ["failed"]).
Proof.
  split.
  - intros json_loads file_data file_result sh extracted_text parsed_data
      Hmk Hpf Htext Hparse Hwrite validation_result updated Huniq.
    unfold _process_single_file_from_data.
    rewrite Hmk, Hpf, Htext, (strip_truthy _ Htext), Hparse. simpl.
    fold validation_result. fold updated. rewrite Huniq, Hwrite. simpl.
    do 3 (split; [done|]). split; [by eexists|]. split; [done|].
    intros Hpoor. rewrite Hpoor. simpl. do 2 (split; [done|]).
    intros results_so_far Hle. unfold count_success in *.
    rewrite filter_app, length_app. simpl. lia.
  - eexists. vm_compute. done.
Qed.

Lemma C10_witness :
  let r := fst (_process_single_file_from_data no_json file_sparse
                  (initial_result file_sparse 0) (mkShared [] 0 0 0)) in
  let sh' := snd (_process_single_file_from_data no_json file_sparse
                    (initial_result file_sparse 0) (mkShared [] 0 0 0)) in
  successful_files sh' = 1 /\ fr_status r = "failed" /\ length (batch_data_to_save sh') = 1.
Proof.
  destruct (proj1 C10_poor_record_counted_successful no_json file_sparse
              (initial_result file_sparse 0) (mkShared [] 0 0 0)
              "Ann Lee ann@example.org 555-0100" sparse_record
              eq_refl eq_refl eq_refl eq_refl eq_refl)
    as (Hs & _ & _ & (item & Hb & _) & Hst & _).
  { by vm_compute. }
  split; [exact Hs|]. split; [exact Hst|]. cbv zeta. rewrite Hb. reflexivity.
Defined.

(** *** Bulk jobs *)

Section BulkFacts.

Variable json_loads : string -> option (option (gmap string value)).
Variable cancel_in : nat -> bool.
Variable bulk_job_id : string.

Abbreviation run_loop := (bulk_loop json_loads cancel_in bulk_job_id).
Abbreviation shows := (always bulk_job_id).

(** A served request changes at most the status of the job. *)
Lemma serve_job w jobs job :
  serve cancel_in bulk_job_id w jobs !! bulk_job_id = Some job ->
  exists job0,
    jobs !! bulk_job_id = Some job0 /\
    total_files job = total_files job0 /\
    processed_files job = processed_files job0 /\
    results job = results job0 /\
    (job_status job = job_status job0 \/ job_status job = cancelled).
Proof.
  unfold serve, cancel_job. intros H.
  destruct (cancel_in w); [|exists job; repeat split; auto].
  destruct (jobs !! bulk_job_id) as [job0|] eqn:Hj; simpl in H; [|by rewrite Hj in H].
  destruct (bool_decide _); simpl in H.
  - rewrite Hj in H. inversion H; subst. exists job; repeat split; auto.
  - rewrite lookup_insert_eq in H. inversion H; subst job.
    exists job0. simpl. repeat split; auto.
Qed.

Lemma serve_quiet w jobs : cancel_in w = false -> serve cancel_in bulk_job_id w jobs = jobs.
Proof. unfold serve. by intros ->. Qed.

Lemma shows_three P (s0 s1 s2 : gmap string Job) :
  (forall job, s0 !! bulk_job_id = Some job -> P job) ->
  (forall job, s1 !! bulk_job_id = Some job -> P job) ->
  (forall job, s2 !! bulk_job_id = Some job -> P job) ->
  shows P [s0; s1; s2].
Proof. intros H0 H1 H2. unfold always. by repeat constructor. Qed.

Lemma app_two {A} (l : list A) (a c : A) : l ++ [a; c] = (l ++ [a]) ++ [c].
Proof. by rewrite <- (assoc_L (++)). Qed.

Lemma shows_snoc P trace jobs :
  shows P trace -> (forall job, jobs !! bulk_job_id = Some job -> P job) ->
  shows P (trace ++ [jobs]).
Proof. intros H1 H2. apply Forall_app. split; [done|]. by apply Forall_singleton. Qed.

(** The processed count stays within the total through the loop. *)
Lemma bulk_loop_within_total n files : forall i st,
  i + length files = n ->
  shows processed_within_total (loop_trace st) ->
  (forall job, loop_jobs st !! bulk_job_id = Some job ->
     total_files job = n /\ processed_files job <= n) ->
  shows processed_within_total (loop_trace (run_loop i files st)) /\
  (forall job, loop_jobs (run_loop i files st) !! bulk_job_id = Some job ->
     total_files job = n /\ processed_files job <= n).
Proof.
  induction files as [|file_data rest IH]; intros i st Hn Htrace Hjob; [done|].
  simpl in *. destruct (is_cancelled _ _); [done|].
  destruct (_process_single_file_from_data _ _ _ _) as [file_result sh].
  apply IH; simpl; [lia| |].
  - rewrite app_two. apply shows_snoc; [apply shows_snoc; [done|]|].
    + intros job Hs. apply serve_job in Hs as (job0 & H0 & Ht & Hp & _).
      destruct (Hjob job0 H0). unfold processed_within_total. lia.
    + intros job Hs. unfold progress_update in Hs. rewrite lookup_alter_eq in Hs.
      destruct (serve _ _ _ _ !! _) as [job1|] eqn:H1; [|done].
      apply serve_job in H1 as (job0 & H0 & Ht & _). inversion Hs; subst job.
      destruct (Hjob job0 H0). unfold processed_within_total. simpl. lia.
  - intros job Hs. unfold progress_update in Hs. rewrite lookup_alter_eq in Hs.
    destruct (serve _ _ _ _ !! _) as [job1|] eqn:H1; [|done].
    apply serve_job in H1 as (job0 & H0 & Ht & _). inversion Hs; subst job.
    destruct (Hjob job0 H0). simpl. lia.
Qed.

(** Through the loop the results on display cover the processed count. *)
Lemma bulk_loop_results_cover files : forall i st,
  i <= length (loop_results st) ->
  shows results_cover_processed (loop_trace st) ->
  (forall job, loop_jobs st !! bulk_job_id = Some job -> results_cover_processed job) ->
  shows results_cover_processed (loop_trace (run_loop i files st)) /\
  (forall job, loop_jobs (run_loop i files st) !! bulk_job_id = Some job ->
     results_cover_processed job).
Proof.
  induction files as [|file_data rest IH]; intros i st Hi Htrace Hjob; [done|].
  simpl in *. destruct (is_cancelled _ _); [done|].
  destruct (_process_single_file_from_data _ _ _ _) as [file_result sh].
  apply IH; simpl; [rewrite length_app; simpl; lia| |].
  - rewrite app_two. apply shows_snoc; [apply shows_snoc; [done|]|].
    + intros job Hs. apply serve_job in Hs as (job0 & H0 & _ & Hp & Hr & _).
      specialize (Hjob job0 H0). unfold results_cover_processed in *.
      by rewrite Hp, Hr.
    + intros job Hs. unfold progress_update in Hs. rewrite lookup_alter_eq in Hs.
      destruct (serve _ _ _ _ !! _) as [job1|]; [|done]. inversion Hs; subst job.
      unfold results_cover_processed. simpl. rewrite length_app. simpl. lia.
  - intros job Hs. unfold progress_update in Hs. rewrite lookup_alter_eq in Hs.
    destruct (serve _ _ _ _ !! _) as [job1|]; [|done]. inversion Hs; subst job.
    unfold results_cover_processed. simpl. rewrite length_app. simpl. lia.
Qed.

(** Without a cancellation the loop processes every file. *)
Lemma bulk_loop_runs_through files : forall i st,
  (forall w, cancel_in w = false) ->
  is_cancelled bulk_job_id (loop_jobs st) = false ->
  length (loop_results (run_loop i files st)) = length (loop_results st) + length files.
Proof.
  induction files as [|file_data rest IH]; intros i st Hquiet Hc; simpl; [lia|].
  rewrite Hc. destruct (_process_single_file_from_data _ _ _ _) as [file_result sh].
  rewrite IH; simpl; [rewrite length_app; simpl; lia|done|].
  rewrite serve_quiet by done. unfold is_cancelled, progress_update in *.
  rewrite lookup_alter_eq. by destruct (loop_jobs st !! bulk_job_id).
Qed.

(** In every registry state that [_background_process_bulk] makes
    observable, the processed count is within the total. *)
Lemma processed_within_total_always files jobs :
  jobs !! bulk_job_id = Some new_job ->
  shows processed_within_total
    (_background_process_bulk json_loads cancel_in bulk_job_id files jobs).
Proof.
  intros Hnew. unfold _background_process_bulk.
  destruct (collect files [] [] 0) as [[all_files results0] failed0].
  set (n := length all_files).
  set (st0 := mkLoop _ _ _ _).
  destruct (bulk_loop_within_total n all_files 0 st0) as [Htrace Hjob]; [done| | |].
  - subst st0. simpl. apply shows_three.
    + intros job Hj. rewrite Hnew in Hj. inversion Hj.
      unfold processed_within_total. simpl. lia.
    + intros job Hs. apply serve_job in Hs as (job0 & H0 & Ht & Hp & _).
      rewrite Hnew in H0. inversion H0; subst job0.
      unfold processed_within_total. rewrite Hp. simpl. lia.
    + intros job Hs. unfold set_total in Hs. rewrite lookup_alter_eq in Hs.
      destruct (serve _ _ _ _ !! _) as [job1|] eqn:H1; [|done].
      apply serve_job in H1 as (job0 & H0 & _ & Hp & _).
      rewrite Hnew in H0. inversion H0; subst job0. inversion Hs; subst job.
      unfold processed_within_total. simpl. rewrite Hp. simpl. lia.
  - subst st0. simpl. intros job Hs. unfold set_total in Hs.
    rewrite lookup_alter_eq in Hs.
    destruct (serve _ _ _ _ !! _) as [job1|] eqn:H1; [|done].
    apply serve_job in H1 as (job0 & H0 & _ & Hp & _).
    rewrite Hnew in H0. inversion H0; subst job0. inversion Hs; subst job.
    simpl. rewrite Hp. simpl. lia.
  - rewrite app_two. apply shows_snoc; [apply shows_snoc; [done|]|].
    + intros job Hs. destruct (batch_data_to_save _).
      * destruct (Hjob job Hs). unfold processed_within_total. lia.
      * apply serve_job in Hs as (job0 & H0 & Ht & Hp & _).
        destruct (Hjob job0 H0). unfold processed_within_total. lia.
    + intros job Hs. unfold final_update in Hs. rewrite lookup_alter_eq in Hs.
      apply fmap_Some in Hs as (job1 & _ & ->).
      unfold processed_within_total. simpl. lia.
Qed.

(** Up to the update written after the loop, the results on display cover
    the processed count, whatever requests are served. *)
Lemma results_cover_processed_before_final_update files jobs :
  jobs !! bulk_job_id = Some new_job ->
  exists earlier final,
    _background_process_bulk json_loads cancel_in bulk_job_id files jobs
      = earlier ++ [final] /\
    shows results_cover_processed earlier.
Proof.
  intros Hnew. unfold _background_process_bulk.
  destruct (collect files [] [] 0) as [[all_files results0] failed0].
  set (st0 := mkLoop _ _ _ _).
  destruct (bulk_loop_results_cover all_files 0 st0) as [Htrace Hjob].
  - simpl. lia.
  - subst st0. simpl. apply shows_three.
    + intros job Hj. rewrite Hnew in Hj. inversion Hj.
      unfold results_cover_processed. simpl. lia.
    + intros job Hs. apply serve_job in Hs as (job0 & H0 & _ & Hp & Hr & _).
      rewrite Hnew in H0. inversion H0; subst job0.
      unfold results_cover_processed. by rewrite Hp, Hr.
    + intros job Hs. unfold set_total in Hs. rewrite lookup_alter_eq in Hs.
      destruct (serve _ _ _ _ !! _) as [job1|] eqn:H1; [|done].
      apply serve_job in H1 as (job0 & H0 & _ & Hp & Hr & _).
      rewrite Hnew in H0. inversion H0; subst job0. inversion Hs; subst job.
      unfold results_cover_processed. simpl. by rewrite Hp, Hr.
  - subst st0. simpl. intros job Hs. unfold set_total in Hs.
    rewrite lookup_alter_eq in Hs.
    destruct (serve _ _ _ _ !! _) as [job1|] eqn:H1; [|done].
    apply serve_job in H1 as (job0 & H0 & _ & Hp & Hr & _).
    rewrite Hnew in H0. inversion H0; subst job0. inversion Hs; subst job.
    unfold results_cover_processed. simpl. by rewrite Hp, Hr.
  - eexists (_ ++ [_]), _. split; [by rewrite <- (assoc_L (++))|].
    apply shows_snoc; [done|].
    intros job Hs. destruct (batch_data_to_save _); [by apply Hjob|].
    apply serve_job in Hs as (job0 & H0 & _ & Hp & Hr & _).
    specialize (Hjob job0 H0). unfold results_cover_processed in *. by rewrite Hp, Hr.
Qed.

(** When no cancellation is served, the update written after the loop keeps
    the condition as well. *)
Lemma results_cover_processed_without_cancel files jobs :
  (forall w, cancel_in w = false) ->
  jobs !! bulk_job_id = Some new_job ->
  shows results_cover_processed
    (_background_process_bulk json_loads cancel_in bulk_job_id files jobs).
Proof.
  intros Hquiet Hnew.
  destruct (results_cover_processed_before_final_update files jobs Hnew)
    as (earlier & final & Heq & Hearlier).
  rewrite Heq. apply shows_snoc; [done|].
  revert Heq. unfold _background_process_bulk.
  destruct (collect files [] [] 0) as [[all_files results0] failed0].
  set (st0 := mkLoop _ _ _ _).
  rewrite app_two. intros Heq. apply app_inj_tail in Heq as [_ <-].
  intros job Hs. unfold final_update in Hs. rewrite lookup_alter_eq in Hs.
  apply fmap_Some in Hs as (job1 & _ & ->).
  unfold results_cover_processed. simpl.
  rewrite (bulk_loop_runs_through all_files 0 st0 Hquiet).
  - subst st0. simpl. lia.
  - subst st0. simpl. rewrite serve_quiet by done.
    unfold is_cancelled, set_total. rewrite lookup_alter_eq, Hnew. done.
Qed.

Lemma serve_is_Some w jobs :
  is_Some (jobs !! bulk_job_id) -> is_Some (serve cancel_in bulk_job_id w jobs !! bulk_job_id).
Proof.
  unfold serve, cancel_job. intros [job Hj]. destruct (cancel_in w); [|by eexists].
  rewrite Hj. destruct (bool_decide _); simpl; [by eexists|].
  rewrite lookup_insert_eq. by eexists.
Qed.

Lemma bulk_loop_is_Some files : forall i st,
  is_Some (loop_jobs st !! bulk_job_id) ->
  is_Some (loop_jobs (run_loop i files st) !! bulk_job_id).
Proof.
  induction files as [|file_data rest IH]; intros i st Hst; [done|].
  simpl. destruct (is_cancelled _ _); [done|].
  destruct (_process_single_file_from_data _ _ _ _) as [file_result sh].
  apply IH. simpl. unfold progress_update. rewrite lookup_alter_eq.
  by apply fmap_is_Some, serve_is_Some.
Qed.

(** Whatever was served and whatever failed, the job of a background run
    ends ["completed"], with every file reported as processed. *)
Lemma background_final_status files jobs :
  is_Some (jobs !! bulk_job_id) ->
  exists job,
    last (_background_process_bulk json_loads cancel_in bulk_job_id files jobs)
      ≫= observed bulk_job_id = Some job /\
    job_status job = completed /\
    processed_files job = total_files job.
Proof.
  intros Hjob. unfold _background_process_bulk.
  destruct (collect files [] [] 0) as [[all_files results0] failed0].
  set (st0 := mkLoop _ _ _ _).
  rewrite app_two, last_snoc. simpl. unfold observed, final_update.
  rewrite lookup_alter_eq.
  assert (is_Some (loop_jobs (run_loop 0 all_files st0) !! bulk_job_id)) as Hloop.
  { apply bulk_loop_is_Some. subst st0. simpl. unfold set_total.
    rewrite lookup_alter_eq. by apply fmap_is_Some, serve_is_Some. }
  assert (is_Some (match batch_data_to_save (loop_shared (run_loop 0 all_files st0)) with
                   | [] => loop_jobs (run_loop 0 all_files st0)
                   | _ :: _ => serve cancel_in bulk_job_id (length all_files + 1)
                                 (loop_jobs (run_loop 0 all_files st0))
                   end !! bulk_job_id)) as [job1 Hjob1].
  { destruct (batch_data_to_save _); [done|by apply serve_is_Some]. }
  rewrite Hjob1. simpl. by eexists.
Qed.

End BulkFacts.

Section ReuploadFacts.

Variable cancel_in : nat -> bool.
Variable job_id : string.
Variable outcome : string -> Reupload.

Lemma reupload_loop_failed ids : forall i all_results successful_count failed_count jobs trace,
  is_Some (jobs !! job_id) ->
  let '(_, failed_count', jobs', _) :=
    reupload_loop cancel_in job_id outcome i ids all_results successful_count failed_count
      jobs trace in
  is_Some (jobs' !! job_id) /\
  failed_count' =
    failed_count + length (filter (fun rid => saved outcome rid = false) ids).
Proof.
  induction ids as [|rid rest IH];
    intros i all_results successful_count failed_count jobs trace Hjob; simpl.
  - split; [done|lia].
  - assert (forall s f,
              is_Some (set_progress job_id i s f (serve cancel_in job_id (i + 1) jobs)
                       !! job_id)) as Hnext.
    { intros. unfold set_progress. rewrite lookup_alter_eq.
      by apply fmap_is_Some, serve_is_Some. }
    assert (saved outcome rid = match outcome rid with Processed true => true | _ => false end)
      as Hsaved by done.
    destruct (outcome rid) as [|[]|]; simpl;
      match goal with
      | |- context [reupload_loop _ _ _ ?i' rest ?r ?s ?f ?j ?t] =>
          specialize (IH i' r s f j t (Hnext _ _));
          destruct (reupload_loop cancel_in job_id outcome i' rest r s f j t)
            as [[[? ?] ?] ?]
      end;
      destruct IH as [? ->]; (split; [done|]);
      rewrite filter_cons; destruct (decide (saved outcome rid = false)) as [Hd|Hd];
      rewrite Hsaved in Hd; simpl; try done; lia.
Qed.

(** A re-upload job ends ["completed"] when no resume failed and
    ["completed_with_errors"] otherwise, whatever was served meanwhile: a
    cancellation never survives the end of the run. *)
Lemma reupload_final_status failed_resume_ids jobs :
  is_Some (jobs !! job_id) ->
  exists job,
    last (process_reupload_files cancel_in job_id outcome failed_resume_ids jobs)
      ≫= observed job_id = Some job /\
    job_status job =
      if (length (filter (fun rid => saved outcome rid = false)
                    (filter (fun rid => is_metadata_id rid = false) failed_resume_ids))
          =? 0)%nat
      then completed else completed_with_errors.
Proof.
  intros Hjob. unfold process_reupload_files. destruct Hjob as [job0 Hjob0]. rewrite Hjob0.
  set (ids := filter _ failed_resume_ids).
  assert (is_Some (set_status job_id processing jobs !! job_id)) as Hstart.
  { unfold set_status. rewrite lookup_alter_eq, Hjob0. by eexists. }
  pose proof (reupload_loop_failed ids 0 [] 0 0 _ [jobs; set_status job_id processing jobs]
                Hstart) as Hloop.
  destruct (reupload_loop _ _ _ _ _ _ _ _ _ _) as [[[all_results failed_count] jobs1] trace].
  destruct Hloop as [[job1 Hjob1] ->].
  rewrite last_snoc. simpl. unfold observed, set_final. rewrite lookup_alter_eq, Hjob1.
  simpl. by eexists.
Qed.

End ReuploadFacts.

(** A re-upload job publishes its results only with its final update: after
    the first of two resumes the registry shows one processed file and no
    result. *)
Example reupload_results_written_at_end :
  exists job,
    process_reupload_files never "job-2" all_saved ["r1"; "r2"] reupload_registry !! 3
      ≫= observed "job-2" = Some job /\
    processed_files job = 1 /\ results job = [].
Proof. eexists. vm_compute. done. Qed.

(** The task that [bulk_parse_resumes] starts ends ["completed"] as well,
    whatever failed and whatever was served, once the files are collected and
    the batch is saved. *)
Lemma ultra_fast_final_status cancel_in bulk_job_id files all_files jobs :
  is_Some (jobs !! bulk_job_id) ->
  _stream_files_ultra_fast files [] = Ok all_files ->
  exists job,
    last (_background_process_bulk_ultra_fast cancel_in bulk_job_id (Ok tt) files jobs)
      ≫= observed bulk_job_id = Some job /\
    job_status job = completed /\
    job_failed_files job
    = length (filter (fun s => s = false) (_process_single_file_ultra_fast <$> all_files)).
Proof.
  intros Hjob Hfiles. unfold _background_process_bulk_ultra_fast. rewrite Hfiles.
  set (jobs1 := serve cancel_in bulk_job_id 1 _).
  assert (is_Some (jobs1 !! bulk_job_id)) as Hjob1 by (by do 2 apply serve_is_Some).
  simpl. unfold observed.
  destruct (filter _ _) as [|s successful_results].
  - rewrite lookup_alter_eq. destruct Hjob1 as [job1 ->]. by eexists.
  - rewrite lookup_alter_eq.
    destruct (serve_is_Some cancel_in bulk_job_id 2 jobs1 Hjob1) as [job2 ->]. by eexists.
Qed.

(** C2 fails on the code.  A job of two files is cancelled while its first
    file is processed: the loop stops before the second file, and the update
    written after the loop reports both files as processed with the one result
    there is.  The registry then shows [processed_files = 2] with a results
    list of length 1. *)
Theorem C2_final_update_after_cancel :
  let trace :=
    _background_process_bulk no_json during_first_file "job-1"
      [Regular file_sparse; Regular file_full] fresh_registry in
  (exists job,
     trace !! 4 ≫= observed "job-1" = Some job /\
     job_status job = cancelled /\
     total_files job = 2 /\ processed_files job = 1 /\ length (results job) = 1) /\
  (exists job,
     last trace ≫= observed "job-1" = Some job /\
     total_files job = 2 /\ processed_files job = 2 /\ length (results job) = 1 /\
     ~ results_cover_processed job).
Proof.
  split; eexists; vm_compute; repeat split; try done. lia.
Qed.

(** C3 fails on the code.  [_background_process_bulk] writes ["completed"]
    after its loop whatever happened: a job with a failed file ends
    ["completed"], not ["completed_with_errors"], and a job that [cancel_job]
    set to ["cancelled"] is overwritten with ["completed"].  The task that
    [bulk_parse_resumes] starts, [_background_process_bulk_ultra_fast], does
    the same.  [process_reupload_files] does tell the two final statuses
    apart, and overwrites a cancellation as well. *)
Theorem C3_final_status_overwritten :
  (exists job,
     last (_background_process_bulk no_json never "job-1"
             [Regular file_blank; Regular file_full] fresh_registry)
       ≫= observed "job-1" = Some job /\
     job_failed_files job = 1 /\ job_status job = completed) /\
  (let trace :=
     _background_process_bulk no_json during_first_file "job-1"
       [Regular file_sparse; Regular file_full] fresh_registry in
   exists before after,
     trace !! 5 ≫= observed "job-1" = Some before /\ job_status before = cancelled /\
     last trace ≫= observed "job-1" = Some after /\ job_status after = completed) /\
  (exists job,
     last (_background_process_bulk_ultra_fast never "job-1" (Ok tt)
             [Regular file_blank; Regular file_full] fresh_registry)
       ≫= observed "job-1" = Some job /\
     job_failed_files job = 1 /\ job_status job = completed) /\
  (let trace :=
     _background_process_bulk_ultra_fast during_first_file "job-1" (Ok tt)
       [Regular file_sparse; Regular file_full] fresh_registry in
   exists before after,
     trace !! 3 ≫= observed "job-1" = Some before /\ job_status before = cancelled /\
     last trace ≫= observed "job-1" = Some after /\ job_status after = completed) /\
  (exists job,
     last (process_reupload_files never "job-2" second_fails ["r1"; "r2"] reupload_registry)
       ≫= observed "job-2" = Some job /\
     job_failed_files job = 1 /\ job_status job = completed_with_errors) /\
  (let trace :=
     process_reupload_files during_first_file "job-2" all_saved ["r1"; "r2"]
       reupload_registry in
   exists before after,
     trace !! 5 ≫= observed "job-2" = Some before /\ job_status before = cancelled /\
     last trace ≫= observed "job-2" = Some after /\ job_status after = completed).
Proof.
  repeat split; repeat eexists; vm_compute; done.
Qed.

End ResumeControllerProofs.

(* --------------------------------------------------------------------- *)
(** ** More on [file_validator.py] *)
(* --------------------------------------------------------------------- *)

Module FileValidatorFacts.
Import FileValidator.

Lemma validation_func_supported ext validate :
  validation_func ext = Some validate -> ext ∈ supported_types.
Proof.
  unfold validation_func, supported_types.
  repeat (destruct (decide _) as [->|?]; [intros _; rewrite !elem_of_cons; auto 10|]).
  done.
Qed.

(** A validator that reports corruption gives its reason. *)
Lemma validation_func_message ext validate file_content :
  validation_func ext = Some validate ->
  fst (validate file_content) = true -> is_Some (snd (validate file_content)).
Proof.
  unfold validation_func.
  repeat (destruct (decide _) as [?|?];
          [intros H; inversion H; subst validate;
           unfold _validate_pdf, _validate_docx, _validate_doc, _validate_txt, _validate_rtf;
           repeat match goal with |- context [if ?c then _ else _] => destruct c end;
           simpl; intros Hc; first [discriminate | by eexists]|]).
  done.
Qed.

(** X1: the verdict of [validate_file] is consistent.  A file is valid
    only if its name is no metadata name, it is not empty, it is within the
    size ceiling and its extension is supported, and then no flag, message or
    suggestion is set; every rejection carries a message and a suggested
    action; no result is flagged both as metadata and as corrupted; and the
    reported file type is always the lower-cased extension of the name. *)
Theorem validation_verdict_is_consistent (file_content : list byte) (filename : string) :
  let r := fst (validate_file file_content filename) in
  (is_valid r = true ->
     is_metadata r = false /\ is_corrupted r = false /\
     error_message r = None /\ suggested_action r = None /\
     _is_metadata_file filename = false /\
     file_content <> [] /\ (Z.of_nat (length file_content) <= max_size)%Z /\
     file_type r ∈ supported_types) /\
  (is_valid r = false -> is_Some (error_message r) /\ is_Some (suggested_action r)) /\
  (is_metadata r = true -> is_corrupted r = false) /\
  file_type r = Py.lower (snd (splitext filename)).
Proof.
  intros r. subst r. unfold validate_file.
  destruct (_is_metadata_file filename) eqn:Hmeta; [by repeat split|].
  destruct file_content as [|c0 content]; [by repeat split|]. cbn [length Nat.eqb].
  destruct (Z.ltb_spec max_size (Z.of_nat (S (length content)))) as [Hbig|Hsmall];
    [by repeat split|].
  destruct (validation_func _) as [validate|] eqn:Hfun; [|by repeat split].
  pose proof (validation_func_supported _ _ Hfun) as Hsup.
  pose proof (validation_func_message _ _ (c0 :: content) Hfun) as Hmsg.
  destruct (validate (c0 :: content)) as [[] msg]; simpl in *.
  - repeat split; try done. by apply Hmsg.
  - repeat split; try done.
Qed.

Lemma startswith_head {A} `{EqDecision A} (a : A) p l :
  Py.startswith (a :: p) l = true -> head l = Some a.
Proof. destruct l as [|c l]; [done|]. simpl. by destruct (decide (a = c)) as [->|]. Qed.

Lemma not_pdf_signature (a : byte) p file_content :
  a <> x25 -> Py.startswith (a :: p) file_content = true ->
  Py.startswith (b "%PDF") file_content = false.
Proof.
  intros Hne Hs. apply startswith_head in Hs.
  destruct (Py.startswith (b "%PDF") file_content) eqn:Hp; [|done].
  apply (startswith_head x25) in Hp. congruence.
Qed.

Lemma not_zip_signature (a : byte) p x y file_content :
  a <> x50 -> Py.startswith (a :: p) file_content = true ->
  Py.startswith (PK x y) file_content = false.
Proof.
  intros Hne Hs. apply startswith_head in Hs.
  destruct (Py.startswith (PK x y) file_content) eqn:Hp; [|done].
  apply (startswith_head x50) in Hp. congruence.
Qed.

Lemma not_ole_signature (a : byte) p file_content :
  a <> xd0 -> Py.startswith (a :: p) file_content = true ->
  Py.startswith OLE2 file_content = false.
Proof.
  intros Hne Hs. apply startswith_head in Hs.
  destruct (Py.startswith OLE2 file_content) eqn:Hp; [|done].
  apply (startswith_head xd0) in Hp. congruence.
Qed.

(** A signature that a validator accepts is the one the sniff reports. *)
Lemma accepted_signature_detected ext validate file_content :
  validation_func ext = Some validate -> ext <> ".txt" ->
  fst (validate file_content) = false ->
  _detect_file_type file_content = Some ext.
Proof.
  unfold validation_func. intros Hfun Htxt.
  repeat (destruct (decide _) as [->|?] in Hfun);
    try done; inversion Hfun; subst validate; clear Hfun;
    unfold _detect_file_type; cbn [magic_bytes detect_in].
  - unfold _validate_pdf. destruct (Py.startswith (b "%PDF") file_content) eqn:Hs; done.
  - unfold _validate_docx.
    destruct (Py.startswith (PK x03 x04) file_content) eqn:H1.
    { intros _. by rewrite (not_pdf_signature x50 _ _ ltac:(done) H1). }
    destruct (Py.startswith (PK x05 x06) file_content) eqn:H2.
    { intros _. by rewrite (not_pdf_signature x50 _ _ ltac:(done) H2). }
    destruct (Py.startswith (PK x07 x08) file_content) eqn:H3; [|done].
    intros _. by rewrite (not_pdf_signature x50 _ _ ltac:(done) H3).
  - unfold _validate_doc. destruct (Py.startswith OLE2 file_content) eqn:Hs; [|done].
    intros _.
    rewrite (not_pdf_signature xd0 _ _ ltac:(done) Hs).
    by rewrite !(not_zip_signature xd0 _ _ _ _ ltac:(done) Hs).
  - unfold _validate_rtf. destruct (Py.startswith RTF file_content) eqn:Hs; [|done].
    intros _.
    rewrite (not_pdf_signature x7b _ _ ltac:(done) Hs).
    rewrite !(not_zip_signature x7b _ _ _ _ ltac:(done) Hs).
    by rewrite (not_ole_signature x7b _ _ ltac:(done) Hs).
Qed.

(** X2: for a file that [validate_file] accepts as PDF, DOCX, DOC or RTF
    the byte-signature sniff reports the very type of the extension, so the
    mismatch warning is never logged: the per-type validators and the magic
    table agree.  Only a text file can be valid and carry another signature. *)
Theorem valid_file_has_matching_signature (file_content : list byte) (filename : string) :
  is_valid (fst (validate_file file_content filename)) = true ->
  file_type (fst (validate_file file_content filename)) <> ".txt" ->
  _detect_file_type file_content = Some (file_type (fst (validate_file file_content filename)))
  /\ snd (validate_file file_content filename) = [].
Proof.
  unfold validate_file.
  destruct (_is_metadata_file filename); [done|].
  destruct (length file_content =? 0)%nat; [done|].
  destruct (max_size <? _)%Z; [done|].
  destruct (validation_func _) as [validate|] eqn:Hfun; [|done].
  destruct (validate file_content) as [[] msg] eqn:Hv; [done|]. simpl.
  intros _ Htxt.
  rewrite (accepted_signature_detected _ _ file_content Hfun Htxt) by (by rewrite Hv).
  split; [done|]. rewrite bool_decide_true by done. by rewrite andb_false_r.
Qed.

Lemma valid_file_has_matching_signature_witness :
  _detect_file_type (b "%PDF-1.4 one page %%EOF")
  = Some (file_type (fst (validate_file (b "%PDF-1.4 one page %%EOF") "cv.pdf")))
  /\ snd (validate_file (b "%PDF-1.4 one page %%EOF") "cv.pdf") = [].
Proof.
  apply (valid_file_has_matching_signature (b "%PDF-1.4 one page %%EOF") "cv.pdf").
  - vm_compute. reflexivity.
  - vm_compute. discriminate.
Defined.

End FileValidatorFacts.

(* --------------------------------------------------------------------- *)
(** ** More on [contact_extractor.py] *)
(* --------------------------------------------------------------------- *)

Module ContactExtractorFacts.
Import Py ContactExtractor ContactExtractorProofs.

Lemma merged_confidence_values (er pr ec pc same_email same_phone : bool) :
  (same_email = true -> er = true /\ ec = true) ->
  (same_phone = true -> pr = true /\ pc = true) ->
  let m := merged_confidence (regex_confidence er pr) (context_confidence ec pc)
             same_email same_phone in
  (er || pr || ec || pc = false -> m = 0.0%float) /\
  (er || pr || ec || pc = true -> PrimFloat.leb 0.6%float m = true).
Proof.
  intros He Hp.
  destruct same_email, same_phone;
    try (destruct He as [-> ->]; [done|]); try (destruct Hp as [-> ->]; [done|]);
    repeat match goal with b : bool |- _ => destruct b end;
    vm_compute; split; (done || (intros; discriminate)).
Qed.

Lemma opt_or_truthy a c : opt_truthy (opt_or a c) = opt_truthy a || opt_truthy c.
Proof. unfold opt_or. by destruct (opt_truthy a) eqn:Ha. Qed.

(** X3: [extract_contact_info] loses nothing and invents nothing.  The
    merged result has an email (a phone) exactly when the context pass or the
    regex pass found one; when neither pass found anything the confidence is
    0.0 and the source is "combined"; as soon as one of them found an email or
    a phone the confidence is at least 0.6 and the source names the pass that
    was kept, "context" or "regex". *)
Theorem merged_contact_found_or_zero
    (re_findall : string -> bool -> string -> list string)
    (re_sub : string -> string -> string -> string) (text : string) :
  let regex_result := _extract_with_regex re_findall re_sub text in
  let context_result := _extract_with_context re_findall re_sub text in
  let merged := extract_contact_info re_findall re_sub text in
  let found := opt_truthy (email merged) || opt_truthy (phone merged) in
  opt_truthy (email merged)
    = opt_truthy (email context_result) || opt_truthy (email regex_result) /\
  opt_truthy (phone merged)
    = opt_truthy (phone context_result) || opt_truthy (phone regex_result) /\
  (found = false -> confidence merged = 0.0%float /\ source merged = "combined") /\
  (found = true ->
     PrimFloat.leb 0.6%float (confidence merged) = true /\
     (source merged = "context" \/ source merged = "regex")).
Proof.
  intros regex_result context_result merged found.
  subst merged found regex_result context_result.
  unfold extract_contact_info.
  rewrite combine_confidence, by_regex_confidence, by_context_confidence.
  unfold _combine_results. cbn [email phone source]. rewrite !opt_or_truthy.
  set (regex_result := _extract_with_regex re_findall re_sub text).
  set (context_result := _extract_with_context re_findall re_sub text).
  destruct (merged_confidence_values
              (opt_truthy (email regex_result)) (opt_truthy (phone regex_result))
              (opt_truthy (email context_result)) (opt_truthy (phone context_result))
              (agree (email context_result) (email regex_result))
              (agree (phone context_result) (phone regex_result)))
    as (Hzero & Hhigh).
  { intros H. apply agree_truthy in H. tauto. }
  { intros H. apply agree_truthy in H. tauto. }
  split; [done|]. split; [done|].
  destruct (opt_truthy (email regex_result)), (opt_truthy (phone regex_result)),
    (opt_truthy (email context_result)), (opt_truthy (phone context_result));
    simpl in *; split; intros; try discriminate; split; auto.
Qed.

End ContactExtractorFacts.

(* --------------------------------------------------------------------- *)
(** ** More on [retry_processor.py] *)
(* --------------------------------------------------------------------- *)

Module RetryProcessorFacts.
Import RetryProcessor RetryProcessorProofs.
Import RetryStrategies (failures).

(** X4: the class of the last error decides the strategy at one attempt
    only.  At every attempt but the fourth (index 3)
    [_get_strategy_for_attempt] picks the same strategy whatever the last
    error was, also when there was none or its class has no entry in the
    table; at the fourth it picks manual extraction unless the last error was
    an [AIParsingError], where it falls back to the standard strategy; past
    the table it is the standard strategy. *)
Theorem strategy_depends_on_error_at_one_attempt
    (attempt_num : nat) (last_error : option ErrorClass) :
  (attempt_num <> 3 ->
     _get_strategy_for_attempt attempt_num last_error
     = _get_strategy_for_attempt attempt_num None) /\
  (4 <= attempt_num -> _get_strategy_for_attempt attempt_num last_error = STANDARD) /\
  (_get_strategy_for_attempt 3 last_error
   = match last_error with
     | Some AIParsingError => STANDARD
     | _ => MANUAL_EXTRACTION
     end).
Proof.
  split; [|split].
  - intros Hne. destruct attempt_num as [|[|[|[|n]]]]; try done;
      destruct last_error as [[]|]; done.
  - intros Hge. do 4 (destruct attempt_num as [|attempt_num]; [lia|]).
    destruct last_error as [[]|]; done.
  - destruct last_error as [[]|]; done.
Qed.

Section LogFacts.
Context {R : Type}.
Variable max_retries : Z.
Variable run : nat -> RetryStrategy -> Outcome R.

Lemma retry_loop_shape indices : forall attempts last_error res,
  failures attempts ->
  retry_loop max_retries run indices attempts last_error = Some res ->
  match res_error res with
  | None =>
      res_success res = true /\ is_Some (res_result res) /\
      exists earlier final,
        res_attempts res = earlier ++ [final] /\ failures earlier /\
        success final = true /\ error final = None
  | Some (Taxonomy e msg) =>
      res_success res = false /\ res_result res = None /\ failures (res_attempts res) /\
      (exists earlier final,
         res_attempts res = earlier ++ [final] /\ error final = Some (e, msg) /\
         (max_retries <= Z.of_nat (attempt_number final) - 1)%Z)
  | Some (Unexpected msg) =>
      res_success res = false /\ res_result res = None /\ failures (res_attempts res)
  end.
Proof.
  induction indices as [|i rest IH]; intros attempts last_error res Hfail H; [done|].
  simpl in H. destruct (run i _) as [r|[e msg|msg]].
  - inversion H; subst res. simpl. split; [done|]. split; [by eexists|].
    eexists attempts, _. by repeat split.
  - assert (failures (attempts ++
              [mkAttempt (i + 1) (_get_strategy_for_attempt i last_error) false (Some (e, msg))]))
      as Hfail'.
    { apply Forall_app. split; [done|]. apply Forall_singleton. simpl. split; [done|by eexists]. }
    destruct (Z.leb_spec max_retries (Z.of_nat i)).
    + inversion H; subst res. simpl. split; [done|]. split; [done|]. split; [done|].
      eexists attempts, _. split; [done|]. split; [done|]. simpl. lia.
    + by apply (IH _ _ _ Hfail' H).
  - inversion H; subst res. simpl. by repeat split.
Qed.

End LogFacts.

(** X5: what [process_with_retry] returns is consistent.  The result is a
    success exactly when it carries no error, and exactly when it carries a
    value; the log of a success is a run of failed attempts, each with its
    error, closed by one successful attempt without error; the log of a
    failure holds failed attempts only; and a failure that reports a known
    error class has used every attempt: its log has max_retries + 1 entries
    and the reported error is the one of the last entry. *)
Theorem retry_result_is_consistent {R : Type} (max_retries : Z)
    (run : nat -> RetryStrategy -> Outcome R) (res : RetryResult R) :
  process_with_retry max_retries run = Some res ->
  (res_success res = true <-> res_error res = None) /\
  (res_success res = true <-> is_Some (res_result res)) /\
  (res_success res = true ->
     exists earlier final,
       res_attempts res = earlier ++ [final] /\ failures earlier /\
       success final = true /\ error final = None) /\
  (res_success res = false -> failures (res_attempts res)) /\
  (forall e msg, res_error res = Some (Taxonomy e msg) ->
     Z.of_nat (length (res_attempts res)) = (max_retries + 1)%Z /\
     exists earlier final,
       res_attempts res = earlier ++ [final] /\ error final = Some (e, msg)).
Proof.
  intros H. pose proof H as Hshape. unfold process_with_retry in Hshape.
  apply retry_loop_shape in Hshape; [|by apply Forall_nil].
  pose proof (retry_loop_log_ok max_retries run (Z.to_nat (max_retries + 1)) 0 [] res) as Hlog.
  unfold process_with_retry, Py.range in H.
  pose proof (retry_loop_length _ _ _ _ _ _ H) as Hlen. rewrite length_seq in Hlen.
  simpl in Hlen.
  specialize (Hlog eq_refl (fun i a (Hi : [] !! i = Some a) => ltac:(done))
                ltac:(done) H).
  destruct (res_error res) as [[e msg|msg]|] eqn:Herr.
  - destruct Hshape as (Hs & Hr & Hf & earlier & final & Heq & Hfinal & Hmax).
    rewrite Hs, Hr. split; [done|]. split; [split; [done|by intros [? ?]]|].
    split; [done|]. split; [done|].
    intros e' msg' He'. inversion He'; subst e' msg'. split; [|by eexists _, _].
    destruct (Hlog (length earlier) final) as [Hnum _].
    { rewrite Heq. by apply list_lookup_middle. }
    rewrite Heq, length_app in *. simpl in *.
    destruct (Z.to_nat (max_retries + 1)) eqn:Hn; lia.
  - destruct Hshape as (Hs & Hr & Hf).
    rewrite Hs, Hr. split; [done|]. split; [split; [done|by intros [? ?]]|].
    split; [done|]. split; [done|]. intros e' msg' He'. discriminate.
  - destruct Hshape as (Hs & Hr & Hshape).
    rewrite Hs. split; [done|]. split; [done|]. split; [done|]. split; [done|].
    intros e' msg' He'. discriminate.
Qed.

Lemma retry_result_is_consistent_witness :
  exists res,
    process_with_retry 3 run_contact_missing = Some res /\
    (res_success res = false -> failures (res_attempts res)) /\
    (forall e msg, res_error res = Some (Taxonomy e msg) ->
       Z.of_nat (length (res_attempts res)) = (3 + 1)%Z /\
       exists earlier final,
         res_attempts res = earlier ++ [final] /\ error final = Some (e, msg)).
Proof.
  eexists. split; [vm_compute; reflexivity|].
  apply (proj2 (proj2 (proj2 (retry_result_is_consistent 3 run_contact_missing _ eq_refl)))).
Defined.

End RetryProcessorFacts.

(* --------------------------------------------------------------------- *)
(** ** More on [resume_controller.py] *)
(* --------------------------------------------------------------------- *)

Module ResumeControllerFacts.
Import Py ResumeController ResumeControllerProofs.

Ltac per_file_cases :=
  unfold _process_single_file_from_data, on_exception, initial_result;
  repeat match goal with
  | |- context [match ?x with Ok _ => _ | Raise _ => _ end] => destruct x
  | |- context [if ?c then _ else _] => destruct c eqn:?
  end.

(** X6: [_process_single_file_from_data] counts every file exactly once.
    Whatever the collaborators do (also when one raises), exactly one of the
    three shared counters goes up by one and none goes down; the batch to save
    grows by one record exactly when the successful counter does; the status
    is "duplicate" exactly when the duplicate counter went up; a result
    flagged as success was counted successful; a file counted as failed has
    status "failed"; and the status is one of "failed", "duplicate",
    "success", "partial_success". *)
Theorem per_file_counts_once json_loads file_data i sh :
  let r := fst (_process_single_file_from_data json_loads file_data
                  (initial_result file_data i) sh) in
  let sh' := snd (_process_single_file_from_data json_loads file_data
                    (initial_result file_data i) sh) in
  successful_files sh' + failed_files sh' + duplicate_files sh'
    = successful_files sh + failed_files sh + duplicate_files sh + 1 /\
  successful_files sh <= successful_files sh' /\
  failed_files sh <= failed_files sh' /\
  duplicate_files sh <= duplicate_files sh' /\
  (exists new, batch_data_to_save sh' = batch_data_to_save sh ++ new /\
               length new = successful_files sh' - successful_files sh) /\
  (fr_status r = "duplicate" <-> duplicate_files sh' = duplicate_files sh + 1) /\
  (is_success r = true -> successful_files sh' = successful_files sh + 1) /\
  (failed_files sh' = failed_files sh + 1 -> fr_status r = "failed") /\
  fr_status r ∈ ["failed"; "duplicate"; "success"; "partial_success"].
Proof.
  intros r sh'. subst r sh'.
  per_file_cases; simpl;
    try (destruct (quality (_validate_parsed_data _)); simpl).
  all: repeat split; try lia; try done.
  all: try (exists []; split; [by rewrite app_nil_r|simpl; lia]).
  all: try (eexists [_]; split; [done|simpl; lia]).
  all: try (intros; lia).
  all: rewrite !elem_of_cons; auto 10.
Qed.

Lemma per_file_counted json_loads file_data file_result sh :
  counted (snd (_process_single_file_from_data json_loads file_data file_result sh))
  = counted sh + 1.
Proof.
  unfold _process_single_file_from_data, on_exception, counted.
  repeat match goal with
  | |- context [match ?x with Ok _ => _ | Raise _ => _ end] => destruct x
  | |- context [if ?c then _ else _] => destruct c eqn:?
  end; simpl; lia.
Qed.

Lemma collect_failed files : forall all_files results_so_far failed_count,
  failed_count = length results_so_far ->
  let '(_, results0, failed0) := collect files all_files results_so_far failed_count in
  failed0 = length results0.
Proof.
  induction files as [|[file_data|zip_name [extracted|m]] rest IH];
    intros all_files results_so_far failed_count Hf; simpl; [done| | |].
  - by apply IH.
  - by apply IH.
  - apply IH. rewrite length_app. simpl. lia.
Qed.

Section CounterFacts.
Variable json_loads : string -> option (option (gmap string value)).
Variable cancel_in : nat -> bool.
Variable bulk_job_id : string.

(** A cancellation request touches the status only. *)
Lemma serve_keeps w jobs job :
  serve cancel_in bulk_job_id w jobs !! bulk_job_id = Some job ->
  exists job0, jobs !! bulk_job_id = Some job0 /\
    processed_files job = processed_files job0 /\
    job_successful_files job = job_successful_files job0 /\
    job_failed_files job = job_failed_files job0 /\
    job_duplicate_files job = job_duplicate_files job0 /\
    results job = results job0.
Proof.
  unfold serve, cancel_job. intros H.
  destruct (cancel_in w); [|by exists job].
  destruct (jobs !! bulk_job_id) as [job0|] eqn:Hj; simpl in H; [|by rewrite Hj in H].
  destruct (bool_decide _); simpl in H.
  - rewrite Hj in H. inversion H; subst. by exists job.
  - rewrite lookup_insert_eq in H. inversion H; subst job. by exists job0.
Qed.

Lemma serve_match w jobs :
  (forall job, jobs !! bulk_job_id = Some job -> counters_match_results job) ->
  forall job, serve cancel_in bulk_job_id w jobs !! bulk_job_id = Some job ->
    counters_match_results job.
Proof.
  intros Hjobs job Hs. apply serve_keeps in Hs as (job0 & H0 & _ & Hs & Hf & Hd & Hr).
  specialize (Hjobs job0 H0). unfold counters_match_results in *. congruence.
Qed.

Lemma bulk_loop_counters files : forall i st,
  counted (loop_shared st) = length (loop_results st) ->
  always bulk_job_id counters_match_results (loop_trace st) ->
  (forall job, loop_jobs st !! bulk_job_id = Some job -> counters_match_results job) ->
  let st' := bulk_loop json_loads cancel_in bulk_job_id i files st in
  counted (loop_shared st') = length (loop_results st') /\
  always bulk_job_id counters_match_results (loop_trace st') /\
  (forall job, loop_jobs st' !! bulk_job_id = Some job -> counters_match_results job).
Proof.
  induction files as [|file_data rest IH]; intros i st Hc Htrace Hjob; [done|].
  simpl. destruct (is_cancelled _ _); [done|].
  pose proof (per_file_counted json_loads file_data (initial_result file_data i)
                (loop_shared st)) as Hone.
  destruct (_process_single_file_from_data _ _ _ _) as [file_result sh]. simpl in Hone.
  assert (forall job,
            progress_update bulk_job_id i sh (loop_results st ++ [post_validate file_data file_result])
              (serve cancel_in bulk_job_id (i + 1) (loop_jobs st)) !! bulk_job_id = Some job ->
            counters_match_results job) as Hupd.
  { intros job Hs. unfold progress_update in Hs. rewrite lookup_alter_eq in Hs.
    apply fmap_Some in Hs as (job1 & _ & ->).
    unfold counters_match_results. simpl. rewrite length_app. simpl.
    unfold counted in *. lia. }
  apply IH; simpl.
  - rewrite length_app. simpl. lia.
  - rewrite app_two. apply shows_snoc; [apply shows_snoc; [done|]|done].
    by apply serve_match.
  - done.
Qed.

(** X7: in every state of the registry that [_background_process_bulk]
    makes observable for a job registered with zero counters and no results,
    the three counters add up to the number of results: successful_files +
    failed_files + duplicate_files = len(results).  This holds under every
    schedule of cancellation requests and for every behaviour of the
    collaborators, also in the state written after the loop. *)
Theorem job_counters_match_results files jobs :
  jobs !! bulk_job_id = Some new_job ->
  always bulk_job_id counters_match_results
    (_background_process_bulk json_loads cancel_in bulk_job_id files jobs).
Proof.
  intros Hnew. unfold _background_process_bulk.
  pose proof (collect_failed files [] [] 0 eq_refl) as Hcollect.
  destruct (collect files [] [] 0) as [[all_files results0] failed0].
  assert (forall job, jobs !! bulk_job_id = Some job -> counters_match_results job) as H0.
  { intros job Hj. rewrite Hnew in Hj. by inversion Hj. }
  pose proof (serve_match 0 jobs H0) as H1.
  assert (forall job,
            set_total bulk_job_id (length all_files) (serve cancel_in bulk_job_id 0 jobs)
              !! bulk_job_id = Some job -> counters_match_results job) as H2.
  { intros job Hs. unfold set_total in Hs. rewrite lookup_alter_eq in Hs.
    apply fmap_Some in Hs as (job1 & Hj1 & ->). by apply H1 in Hj1. }
  set (st0 := mkLoop _ _ _ _).
  destruct (bulk_loop_counters all_files 0 st0) as (Hc & Htrace & Hjob).
  - subst st0. unfold counted. simpl. lia.
  - subst st0. simpl. by apply shows_three.
  - done.
  - rewrite app_two. apply shows_snoc; [apply shows_snoc; [done|]|].
    + intros job Hs. destruct (batch_data_to_save _); [by apply Hjob|].
      by apply (serve_match _ _ Hjob) in Hs.
    + intros job Hs. unfold final_update in Hs. rewrite lookup_alter_eq in Hs.
      apply fmap_Some in Hs as (job1 & _ & ->).
      unfold counters_match_results. simpl. unfold counted in Hc. lia.
Qed.

End CounterFacts.

Lemma job_counters_match_results_witness :
  always "job-1" counters_match_results
    (_background_process_bulk no_json never "job-1"
       [Regular file_sparse; Regular file_full] fresh_registry).
Proof.
  apply (job_counters_match_results no_json never "job-1"
           [Regular file_sparse; Regular file_full] fresh_registry).
  vm_compute. reflexivity.
Defined.

(** A record that is let through has all four key fields. *)
Lemma unique_has_key_fields json_loads history parsed_data :
  is_unique (fst (_check_resume_uniqueness json_loads history parsed_data)) = true ->
  exists k, key_fields parsed_data = Some k /\ missing_of k = [].
Proof.
  unfold _check_resume_uniqueness. intros H.
  destruct (key_fields parsed_data) as [k|]; [|done].
  destruct (missing_of k) eqn:Hm; [by exists k|done].
Qed.

Lemma accepted_text_field (parsed_data : gmap string value) key n :
  method_strip (default (PyStr "") (parsed_data !! key)) = Some n ->
  str_truthy n = true ->
  str_truthy (strip (str (default (PyStr "") (parsed_data !! key)))) = true.
Proof.
  intros Hstrip Hn. destruct (default (PyStr "") (parsed_data !! key)); try discriminate.
  simpl in *. by inversion Hstrip; subst.
Qed.

Lemma complete_contact_fields d k :
  key_fields d = Some k -> missing_of k = [] ->
  str_truthy (strip (str (default (PyStr "") (d !! "Email")))) = true /\
  str_truthy (strip (str (default (PyStr "") (d !! "Phone")))) = true.
Proof.
  intros Hk Hmiss. apply missing_of_nil in Hmiss as (_ & He & Hp & _).
  apply key_fields_Some in Hk as (_ & Hde & Hdp & _).
  apply fmap_Some in Hde as (e & Hde & Hlow). rewrite Hlow in He.
  split.
  - by apply (accepted_text_field d "Email" e), lower_truthy.
  - by apply (accepted_text_field d "Phone" (phone k)).
Qed.

(** X8: the check that [_background_process_bulk] runs on each result
    after the per-file function (a "success" without email or phone is turned
    into "partial_success" with a warning) never changes anything: a result
    that leaves [_process_single_file_from_data] with status "success" has
    passed the uniqueness check, so its record has a non-blank name, email and
    phone and skills; status and warnings are the same after the check. *)
Theorem post_validate_keeps_status json_loads file_data i sh :
  let r := fst (_process_single_file_from_data json_loads file_data
                  (initial_result file_data i) sh) in
  fr_status (post_validate file_data r) = fr_status r /\
  fr_warnings (post_validate file_data r) = fr_warnings r /\
  (fr_status r = "success" ->
     exists parsed_data k,
       fr_parsed_data r = Some parsed_data /\ key_fields parsed_data = Some k /\
       missing_of k = []).
Proof.
  intros r. subst r. per_file_cases; simpl; try done.
  all: match goal with H : negb (is_unique _) = false |- _ =>
    apply negb_false_iff, unique_has_key_fields in H as (k & Hk & Hmiss) end.
  all: destruct (complete_contact_fields _ k Hk Hmiss) as [He Hp].
  all: unfold post_validate; simpl; rewrite He, Hp; simpl.
  all: split; [done|]; split; [done|]; by eexists _, k.
Qed.

(** X9: [cancel_job] makes a job final.  When it succeeds the job existed,
    the registry differs only in that job's status, now "cancelled", and a
    second request for the same job is refused; it is refused exactly for an
    unknown job and for a job that is completed, failed or cancelled; a job
    that is "completed_with_errors" is not in that list and is still
    cancelled. *)
Theorem cancel_job_is_final (job_id : string) (jobs : gmap string Job) :
  (forall jobs', cancel_job job_id jobs = Some jobs' ->
     exists job,
       jobs !! job_id = Some job /\
       jobs' = <[job_id := set_cancelled job]> jobs /\
       cancel_job job_id jobs' = None) /\
  (cancel_job job_id jobs = None <->
     match jobs !! job_id with
     | None => True
     | Some job => job_status job ∈ [completed; failed; cancelled]
     end) /\
  (forall job, jobs !! job_id = Some job -> job_status job = completed_with_errors ->
     cancel_job job_id jobs = Some (<[job_id := set_cancelled job]> jobs)).
Proof.
  unfold cancel_job. destruct (jobs !! job_id) as [job|] eqn:Hj.
  - case_bool_decide as Hs.
    + split; [done|]. split; [done|]. intros job' Hj' Hst. inversion Hj'; subst job'.
      rewrite Hst in Hs. by apply (bool_decide_pack _) in Hs.
    + split; [|split].
      * intros jobs' H. inversion H; subst jobs'. exists job. split; [done|]. split; [done|].
        by rewrite lookup_insert_eq.
      * split; [done|]. intros H. done.
      * intros job' Hj' _. by inversion Hj'; subst job'.
  - split; [done|]. split; [done|]. done.
Qed.

(** X10: after [cancel_all_jobs] no job is active.  Every job that was
    processing or queued is cancelled and every other job is untouched, no job
    is added or removed, a second call cancels nothing and reports a count of
    0, and [cancel_job] is then refused for every job of the registry, but
    for one that is "completed_with_errors". *)
Theorem cancel_all_jobs_leaves_none_active (jobs : gmap string Job) :
  let jobs' := fst (cancel_all_jobs jobs) in
  (forall job_id job', jobs' !! job_id = Some job' ->
     is_active job' = false /\
     exists job, jobs !! job_id = Some job /\
       job' = (if is_active job then set_cancelled job else job)) /\
  (forall job_id, jobs' !! job_id = None <-> jobs !! job_id = None) /\
  cancel_all_jobs jobs' = (jobs', 0) /\
  (forall job_id job', jobs' !! job_id = Some job' ->
     job_status job' <> completed_with_errors -> cancel_job job_id jobs' = None).
Proof.
  intros jobs'. subst jobs'. unfold cancel_all_jobs. simpl.
  assert (Hquiet : forall job, is_active (if is_active job then set_cancelled job else job) = false).
  { intros job. by destruct (is_active job) eqn:Ha. }
  assert (Hlook : forall job_id job',
            ((fun job => if is_active job then set_cancelled job else job) <$> jobs) !! job_id
              = Some job' ->
            is_active job' = false /\
            exists job, jobs !! job_id = Some job /\
              job' = (if is_active job then set_cancelled job else job)).
  { intros job_id job' H. rewrite lookup_fmap in H.
    apply fmap_Some in H as (job & Hj & ->). split; [apply Hquiet|by exists job]. }
  split; [exact Hlook|]. split.
  { intros job_id. rewrite lookup_fmap. apply fmap_None. }
  split.
  - f_equal.
    + apply map_eq. intros job_id. rewrite !lookup_fmap.
      destruct (jobs !! job_id) as [job|]; [|done]. simpl. by rewrite Hquiet.
    + apply map_size_empty_iff, map_empty_filter.
      intros job_id job' H. simpl. apply Hlook in H as [-> _]. done.
  - intros job_id job' H Hst. pose proof (Hlook _ _ H) as [Ha _].
    unfold cancel_job. rewrite H. apply bool_decide_eq_false in Ha.
    rewrite bool_decide_true; [done|].
    destruct (job_status job'); try done; try (by apply (bool_decide_unpack _));
      exfalso; apply Ha; by apply (bool_decide_unpack _).
Qed.

Lemma compare_with_same_name k d ke :
  key_fields d = Some ke -> name ke = name k -> str_truthy (name k) = true ->
  compare_with k d = Some (Some (mkUniqueness false duplicate_name [] (Some (name k)))).
Proof.
  intros Hd Hname Hn. apply key_fields_Some in Hd as (Hdn & _).
  unfold compare_with. rewrite Hdn. simpl. rewrite Hname.
  by rewrite (same_truthy _ _ Hn), bool_decide_true.
Qed.

Lemma compare_with_rejects k d u :
  compare_with k d = Some (Some u) -> is_unique u = false.
Proof.
  unfold compare_with. intros H.
  repeat match type of H with
  | context [mbind _ ?o] => destruct o; simpl in H; [|discriminate]
  | context [fmap _ ?o] => destruct o; simpl in H; [|discriminate]
  | context [if ?c then _ else _] => destruct c; [by inversion H|]
  | context [match ?l with [] => _ | _ :: _ => _ end] => destruct l
  end; try discriminate; by inversion H.
Qed.

Lemma compare_all_known json_loads k rows row d ke :
  row ∈ rows -> existing_dict json_loads row = Some d ->
  key_fields d = Some ke -> name ke = name k -> str_truthy (name k) = true ->
  forall u, compare_all json_loads k rows = Some u -> is_unique u = false.
Proof.
  intros Hin Hrow Hd Hname Hn. induction rows as [|row' rows IH]; intros u Hu.
  - by apply elem_of_nil in Hin.
  - simpl in Hu. apply elem_of_cons in Hin as [<-|Hin].
    + rewrite Hrow, (compare_with_same_name k d ke Hd Hname Hn) in Hu.
      by inversion Hu.
    + destruct (existing_dict json_loads row') as [d'|]; [|by apply IH].
      destruct (compare_with k d') as [[v|]|] eqn:Hc; [|by apply IH|done].
      inversion Hu; subst v.
      by apply compare_with_rejects in Hc.
Qed.

(** X11: a resume that is already stored is never accepted again.  If some
    row of the history decodes to a record with the same four key fields as
    the candidate (name and email compared stripped and lower-cased, phone
    stripped, the same skills), [_check_resume_uniqueness] answers with
    is_unique false, wherever the row stands in the history and whatever the
    other rows hold, also rows that cannot be decoded or make the check
    fail. *)
Theorem stored_record_is_never_unique json_loads rows row d parsed_data :
  row ∈ rows -> existing_dict json_loads row = Some d ->
  key_fields d = key_fields parsed_data ->
  is_unique (fst (_check_resume_uniqueness json_loads (Rows rows) parsed_data)) = false.
Proof.
  intros Hin Hrow Hsame. unfold _check_resume_uniqueness.
  destruct (key_fields parsed_data) as [k|] eqn:Hk; [|done].
  destruct (missing_of k) eqn:Hmiss; [|done]. simpl.
  destruct (compare_all json_loads k rows) as [u|] eqn:Hu; [|done]. simpl.
  apply missing_of_nil in Hmiss as (Hn & _).
  by apply (compare_all_known json_loads k rows row d k Hin Hrow Hsame eq_refl Hn).
Qed.

Lemma stored_record_is_never_unique_witness :
  is_unique (fst (_check_resume_uniqueness no_json
                    (Rows [StoredOther; StoredDict candidate]) candidate)) = false.
Proof.
  apply (stored_record_is_never_unique no_json [StoredOther; StoredDict candidate]
           (StoredDict candidate) candidate candidate).
  - rewrite !elem_of_cons. auto.
  - reflexivity.
  - reflexivity.
Defined.

Lemma threshold_exact_at total common :
  1 <= total <= 300 -> common <= total ->
  PrimFloat.leb 0.8%float (true_div common total) = (4 * total <=? 5 * common)%nat.
Proof.
  intros Ht Hc.
  pose proof similarity_threshold_exact as H.
  rewrite forallb_forall in H.
  assert (Hin1 : In total (seq 1 300)) by (apply in_seq; lia).
  specialize (H total Hin1). rewrite forallb_forall in H.
  assert (Hin2 : In common (seq 0 (total + 1))) by (apply in_seq; lia).
  specialize (H common Hin2). by apply Bool.eqb_prop in H.
Qed.

Lemma card_list_to_set_le (l : list string) :
  base.size (list_to_set l : gset string) <= length l.
Proof.
  induction l as [|x l IH].
  - by rewrite list_to_set_nil, size_empty.
  - rewrite list_to_set_cons. cbn [length]. rewrite size_union_alt.
    rewrite size_singleton.
    assert (base.size ((list_to_set l : gset string) ∖ {[x]})
            <= base.size (list_to_set l : gset string))
      by (apply subseteq_size, subseteq_difference_l; reflexivity).
    lia.
Qed.

(** X12: the skills comparison of the uniqueness check is symmetric, and
    for up to 300 distinct skills the float test "intersection / union >=
    0.8" decides exactly the integer inequality 4 * |union| <= 5 *
    |intersection| (with a non-empty union): rounding never moves a pair
    across the threshold.  In particular a non-empty list of at most 300
    skills is similar to itself. *)
Theorem skills_similarity_symmetric_and_exact (a c : list string) :
  let A : gset string := list_to_set a in
  let C : gset string := list_to_set c in
  skills_similar a c = skills_similar c a /\
  (base.size (A ∪ C) <= 300 ->
     skills_similar a c
     = (0 <? base.size (A ∪ C))%nat && (4 * base.size (A ∪ C) <=? 5 * base.size (A ∩ C))%nat) /\
  (a <> [] -> length a <= 300 -> skills_similar a a = true).
Proof.
  intros A C.
  assert (Hsym : forall x y : list string, skills_similar x y = skills_similar y x).
  { intros x y. unfold skills_similar.
    assert ((list_to_set x : gset string) ∩ list_to_set y = list_to_set y ∩ list_to_set x)
      as Hi by apply intersection_comm_L.
    assert ((list_to_set x : gset string) ∪ list_to_set y = list_to_set y ∪ list_to_set x)
      as Hu by apply union_comm_L.
    by rewrite Hi, Hu. }
  assert (Hexact : forall x y : list string,
            base.size ((list_to_set x : gset string) ∪ list_to_set y) <= 300 ->
            skills_similar x y
            = (0 <? base.size ((list_to_set x : gset string) ∪ list_to_set y))%nat
              && (4 * base.size ((list_to_set x : gset string) ∪ list_to_set y)
                  <=? 5 * base.size ((list_to_set x : gset string) ∩ list_to_set y))%nat).
  { intros x y Hle. unfold skills_similar.
    destruct (Nat.ltb_spec 0 (base.size ((list_to_set x : gset string) ∪ list_to_set y)))
      as [Hpos|]; [|done].
    simpl. apply threshold_exact_at; [lia|].
    apply subseteq_size. etrans; [apply intersection_subseteq_l|apply union_subseteq_l]. }
  split; [apply Hsym|]. split; [apply Hexact|].
  intros Hne Hlen.
  assert ((list_to_set a : gset string) ∪ list_to_set a = list_to_set a)
    as Hu by apply union_idemp_L.
  assert ((list_to_set a : gset string) ∩ list_to_set a = list_to_set a)
    as Hi by apply intersection_idemp_L.
  pose proof (card_list_to_set_le a) as Hsz.
  rewrite Hexact; rewrite Hu, ?Hi; [|lia].
  assert (0 < base.size (list_to_set a : gset string)) as Hpos.
  { destruct a as [|x a]; [done|]. rewrite list_to_set_cons.
    assert (base.size ({[x]} : gset string) <= base.size ({[x]} ∪ (list_to_set a : gset string)))
      by apply subseteq_size, union_subseteq_l.
    rewrite size_singleton in *. lia. }
  apply andb_true_iff. split; [by apply Nat.ltb_lt|apply Nat.leb_le; lia].
Qed.

Lemma partition_length (statuses : list bool) :
  length (filter (fun s => s = true) statuses) + length (filter (fun s => s = false) statuses)
  = length statuses.
Proof.
  induction statuses as [|[] statuses IH]; [done|..];
    rewrite !filter_cons; simpl; lia.
Qed.

(** X13: a job run by [_background_process_bulk_ultra_fast], the task that
    [bulk_parse_resumes] starts, reports no progress and no results.  When
    the files are collected and the batch is saved, the job ends "completed"
    with total_files the number of collected files and successful_files +
    failed_files = total_files, while processed_files and results are what
    they were at registration (0 and empty for a new job), under every
    schedule of cancellation requests. *)
Theorem ultra_fast_job_reports_no_progress cancel_in bulk_job_id files all_files jobs job0 :
  jobs !! bulk_job_id = Some job0 ->
  _stream_files_ultra_fast files [] = Ok all_files ->
  exists job,
    last (_background_process_bulk_ultra_fast cancel_in bulk_job_id (Ok tt) files jobs)
      ≫= observed bulk_job_id = Some job /\
    job_status job = completed /\
    total_files job = length all_files /\
    job_successful_files job + job_failed_files job = total_files job /\
    processed_files job = processed_files job0 /\
    results job = results job0.
Proof.
  intros Hjob Hfiles. unfold _background_process_bulk_ultra_fast. rewrite Hfiles.
  set (statuses := _process_single_file_ultra_fast <$> all_files).
  pose proof (partition_length statuses) as Hpart.
  unfold statuses in Hpart at 3. rewrite length_fmap in Hpart.
  set (jobs1 := serve cancel_in bulk_job_id 1 _).
  assert (exists job1, jobs1 !! bulk_job_id = Some job1 /\
            processed_files job1 = processed_files job0 /\ results job1 = results job0)
    as (job1 & Hjob1 & Hp1 & Hr1).
  { destruct (serve_is_Some cancel_in bulk_job_id 1 (serve cancel_in bulk_job_id 0 jobs))
      as [job1 Hjob1]; [apply serve_is_Some; by eexists|].
    exists job1. split; [done|].
    apply serve_keeps in Hjob1 as (ja & Hja & Hpa & _ & _ & _ & Hra).
    apply serve_keeps in Hja as (jb & Hjb & Hpb & _ & _ & _ & Hrb).
    rewrite Hjob in Hjb. inversion Hjb; subst jb. split; congruence. }
  simpl. unfold observed.
  destruct (filter (fun s => s = true) statuses) as [|s successful_results] eqn:Hsucc.
  - rewrite lookup_alter_eq, Hjob1. simpl. eexists. split; [done|]. simpl in *.
    repeat split; try done; lia.
  - rewrite lookup_alter_eq.
    destruct (serve_is_Some cancel_in bulk_job_id 2 jobs1) as [job2 Hjob2]; [by eexists|].
    rewrite Hjob2. simpl. eexists. split; [done|]. simpl in *.
    apply serve_keeps in Hjob2 as (jc & Hjc & Hpc & _ & _ & _ & Hrc).
    rewrite Hjob1 in Hjc. inversion Hjc; subst jc.
    repeat split; try done; try lia; congruence.
Qed.

Lemma ultra_fast_job_reports_no_progress_witness :
  exists job,
    last (_background_process_bulk_ultra_fast never "job-1" (Ok tt)
            [Regular file_blank; Regular file_full] fresh_registry)
      ≫= observed "job-1" = Some job /\
    job_status job = completed /\
    total_files job = length [file_blank; file_full] /\
    job_successful_files job + job_failed_files job = total_files job /\
    processed_files job = processed_files new_job /\
    results job = results new_job.
Proof.
  apply (ultra_fast_job_reports_no_progress never "job-1"
           [Regular file_blank; Regular file_full] [file_blank; file_full]
           fresh_registry new_job).
  - vm_compute. reflexivity.
  - reflexivity.
Defined.

(** A request served while a task is suspended changes the status of the
    job at most. *)
Lemma serve_status_only cancel_in job_id w jobs job :
  serve cancel_in job_id w jobs !! job_id = Some job ->
  exists job0, jobs !! job_id = Some job0 /\ (job = job0 \/ job = set_cancelled job0).
Proof.
  unfold serve, cancel_job. intros H.
  destruct (cancel_in w); [|by exists job; auto].
  destruct (jobs !! job_id) as [job0|] eqn:Hj; simpl in H; [|by rewrite Hj in H].
  destruct (bool_decide _); simpl in H.
  - rewrite Hj in H. inversion H; subst. exists job. auto.
  - rewrite lookup_insert_eq in H. inversion H; subst job. exists job0. auto.
Qed.

Section ReuploadAccounting.
Variable cancel_in : nat -> bool.
Variable job_id : string.
Variable outcome : string -> Reupload.

Lemma reupload_loop_accounting ids :
  forall i all_results successful_count failed_count jobs trace job,
  jobs !! job_id = Some job ->
  job_successful_files job = successful_count ->
  let '(all_results', failed_count', jobs', _) :=
    reupload_loop cancel_in job_id outcome i ids all_results successful_count failed_count
      jobs trace in
  exists job',
    jobs' !! job_id = Some job' /\
    (ids <> [] -> processed_files job' = i + length ids /\
                  job_failed_files job' = failed_count') /\
    (ids = [] -> processed_files job' = processed_files job /\
                 job_failed_files job' = job_failed_files job) /\
    job_successful_files job'
      = successful_count + length (filter (fun rid => saved outcome rid = true) ids) /\
    failed_count'
      = failed_count + length (filter (fun rid => saved outcome rid = false) ids) /\
    length all_results'
      = length all_results + length ids
        + length (filter (fun rid => not_found outcome rid = true) ids) /\
    total_files job' = total_files job /\
    results job' = results job.
Proof.
  induction ids as [|rid rest IH];
    intros i all_results successful_count failed_count jobs trace job Hjob Hsucc.
  - simpl. exists job. repeat split; try done; lia.
  - cbn [reupload_loop].
    destruct (serve_is_Some cancel_in job_id (i + 1) jobs) as [job1 Hjob1]; [by eexists|].
    pose proof (serve_status_only _ _ _ _ _ Hjob1) as (job0 & Hjob0 & Hsame).
    rewrite Hjob in Hjob0. inversion Hjob0; subst job0. clear Hjob0.
    assert (Hsaved : saved outcome rid
                     = match outcome rid with Processed true => true | _ => false end) by done.
    assert (Hnf : not_found outcome rid
                  = match outcome rid with NotFound => true | _ => false end) by done.
    rewrite !filter_cons.
    destruct (outcome rid) as [|[]|] eqn:Hout; cbn iota beta;
      match goal with
      | |- context [reupload_loop _ _ _ ?i' rest ?r ?s ?f (set_progress _ _ ?wr ?f ?j) ?t] =>
          specialize (IH i' r s f (set_progress job_id i wr f j) t
                        (mkJob (job_status job1) (total_files job1) (i + 1)
                           (default (job_successful_files job1) wr) f
                           (job_duplicate_files job1) (results job1)));
          destruct (reupload_loop cancel_in job_id outcome i' rest r s f
                      (set_progress job_id i wr f j) t) as [[[r' f'] j'] t']
      end;
      (destruct IH as (job' & Hjob' & Hne & Hnil & Hs & Hf & Hlen & Htot & Hres);
       [unfold set_progress; by rewrite lookup_alter_eq, Hjob1
       |simpl; destruct Hsame as [->| ->]; simpl; lia|]);
      exists job'; (split; [done|]);
      rewrite Hsaved, Hnf; simpl in *;
      repeat (destruct (decide _) as [?|?]; try done; try congruence);
      rewrite ?length_app in *; simpl in *;
      (split; [intros _; destruct rest; [destruct (Hnil eq_refl); simpl in *; lia
                                       |destruct Hne; [done|]; simpl in *; lia]|]);
      (split; [done|]);
      repeat split; try lia;
      destruct Hsame as [->| ->]; simpl in *; congruence.
Qed.

(** X14: the account a re-upload job ends with.  For a job registered by
    [re_upload_failed_resumes] (zero counters, total_files the number of ids
    given) [process_reupload_files] ends, under every schedule of cancellation
    requests, with processed_files the number of ids that do not end in
    ".metadata", which can stay below total_files; successful_files and
    failed_files count the resumes that were saved and those that were not,
    and add up to processed_files; and the results hold one entry for each
    processed resume plus a second entry for each resume that was not found
    in the store. *)
Theorem reupload_job_accounting failed_resume_ids jobs job0 :
  jobs !! job_id = Some job0 ->
  processed_files job0 = 0 -> job_successful_files job0 = 0 -> job_failed_files job0 = 0 ->
  total_files job0 = length failed_resume_ids ->
  let actual_resume_ids := filter (fun rid => is_metadata_id rid = false) failed_resume_ids in
  exists job,
    last (process_reupload_files cancel_in job_id outcome failed_resume_ids jobs)
      ≫= observed job_id = Some job /\
    total_files job = length failed_resume_ids /\
    processed_files job = length actual_resume_ids /\
    processed_files job <= total_files job /\
    job_successful_files job
      = length (filter (fun rid => saved outcome rid = true) actual_resume_ids) /\
    job_failed_files job
      = length (filter (fun rid => saved outcome rid = false) actual_resume_ids) /\
    job_successful_files job + job_failed_files job = processed_files job /\
    length (results job)
      = processed_files job
        + length (filter (fun rid => not_found outcome rid = true) actual_resume_ids).
Proof.
  intros Hjob Hp Hs Hf Htotal ids. unfold process_reupload_files. rewrite Hjob.
  fold ids.
  pose proof (reupload_loop_accounting ids 0 [] 0 0
                (set_status job_id processing jobs) [jobs; set_status job_id processing jobs]
                (mkJob processing (total_files job0) (processed_files job0)
                   (job_successful_files job0) (job_failed_files job0)
                   (job_duplicate_files job0) (results job0))) as Hloop.
  destruct (reupload_loop _ _ _ _ _ _ _ _ _ _) as [[[all_results failed_count] jobs1] trace].
  destruct Hloop as (job1 & Hjob1 & Hne & Hnil & Hsucc & Hfail & Hlen & Htot & Hres).
  { unfold set_status. by rewrite lookup_alter_eq, Hjob. }
  { done. }
  rewrite last_snoc. simpl. unfold observed, set_final. rewrite lookup_alter_eq, Hjob1.
  simpl. eexists. split; [done|]. simpl in *.
  assert (length (filter (fun rid => saved outcome rid = true) ids)
          + length (filter (fun rid => saved outcome rid = false) ids) = length ids) as Hpart.
  { clear. induction ids as [|rid ids IH]; [done|]. rewrite !filter_cons.
    destruct (saved outcome rid); simpl; lia. }
  assert (length ids <= length failed_resume_ids) as Hle by apply length_filter.
  assert (processed_files job1 = length ids /\ job_failed_files job1 = failed_count)
    as [Hp1 Hf1].
  { destruct ids as [|rid rest] eqn:Hids.
    - destruct (Hnil eq_refl) as [-> ->]. simpl in *. lia.
    - destruct Hne as [-> ->]; [done|]. done. }
  repeat split; try lia.
Qed.

End ReuploadAccounting.

Lemma reupload_job_accounting_witness :
  let actual_resume_ids :=
    filter (fun rid => is_metadata_id rid = false) ["r1"; "r2.metadata"] in
  exists job,
    last (process_reupload_files never "job-2" second_fails ["r1"; "r2.metadata"]
            reupload_registry)
      ≫= observed "job-2" = Some job /\
    total_files job = length ["r1"; "r2.metadata"] /\
    processed_files job = length actual_resume_ids /\
    processed_files job <= total_files job /\
    job_successful_files job
      = length (filter (fun rid => saved second_fails rid = true) actual_resume_ids) /\
    job_failed_files job
      = length (filter (fun rid => saved second_fails rid = false) actual_resume_ids) /\
    job_successful_files job + job_failed_files job = processed_files job /\
    length (results job)
      = processed_files job
        + length (filter (fun rid => not_found second_fails rid = true) actual_resume_ids).
Proof.
  apply (reupload_job_accounting never "job-2" second_fails ["r1"; "r2.metadata"]
           reupload_registry (mkJob processing 2 0 0 0 0 [])); reflexivity.
Defined.

Lemma stream_raises zip_name message files : forall all_files,
  Zip zip_name (Raise message) ∈ files ->
  exists m, _stream_files_ultra_fast files all_files = Raise m.
Proof.
  induction files as [|[file_data|z [extracted|m]] rest IH]; intros all_files Hin.
  - by apply elem_of_nil in Hin.
  - apply elem_of_cons in Hin as [?|Hin]; [done|]. by apply IH.
  - apply elem_of_cons in Hin as [?|Hin]; [done|]. by apply IH.
  - by eexists.
Qed.

Lemma collect_grows files : forall all_files results_so_far failed_count,
  let '(_, results0, failed0) := collect files all_files results_so_far failed_count in
  results_so_far `prefix_of` results0 /\ failed_count <= failed0.
Proof.
  induction files as [|[file_data|z [extracted|m]] rest IH];
    intros all_files results_so_far failed_count; simpl; [done|apply IH..|].
  specialize (IH all_files
                (results_so_far ++
                   [mkFileResult z "failed" (Some ("Failed to extract zip file: " +:+ m))
                      None (Some "zip") (length results_so_far + 1) None [] None None None])
                (failed_count + 1)).
  destruct (collect rest _ _ _) as [[? results0] failed0]. destruct IH as [Hpre Hle].
  split; [|lia]. etrans; [|exact Hpre]. by apply prefix_app_r.
Qed.

Lemma collect_bad_archive zip_name message files : forall all_files results_so_far failed_count,
  Zip zip_name (Raise message) ∈ files ->
  let '(_, results0, failed0) := collect files all_files results_so_far failed_count in
  failed_count + 1 <= failed0 /\
  exists r, r ∈ results0 /\ fr_filename r = zip_name /\ fr_status r = "failed".
Proof.
  induction files as [|[file_data|z [extracted|m]] rest IH];
    intros all_files results_so_far failed_count Hin.
  - by apply elem_of_nil in Hin.
  - apply elem_of_cons in Hin as [?|Hin]; [done|]. simpl. by apply IH.
  - apply elem_of_cons in Hin as [?|Hin]; [done|]. simpl. by apply IH.
  - apply elem_of_cons in Hin as [Heq|Hin]; simpl.
    + inversion Heq; subst z m.
      pose proof (collect_grows rest all_files
                    (results_so_far ++
                       [mkFileResult zip_name "failed"
                          (Some ("Failed to extract zip file: " +:+ message))
                          None (Some "zip") (length results_so_far + 1) None [] None None None])
                    (failed_count + 1)) as Hg.
      destruct (collect rest _ _ _) as [[? results0] failed0]. destruct Hg as [Hpre Hle].
      split; [lia|].
      exists (mkFileResult zip_name "failed"
                (Some ("Failed to extract zip file: " +:+ message))
                None (Some "zip") (length results_so_far + 1) None [] None None None).
      split; [|done].
      eapply elem_of_prefix; [|exact Hpre]. apply elem_of_app. right.
      rewrite elem_of_cons. by left.
    + specialize (IH all_files
                    (results_so_far ++
                       [mkFileResult z "failed" (Some ("Failed to extract zip file: " +:+ m))
                          None (Some "zip") (length results_so_far + 1) None [] None None None])
                    (failed_count + 1) Hin).
      destruct (collect rest _ _ _) as [[? results0] failed0]. destruct IH as [Hle Hr].
      split; [lia|done].
Qed.

Lemma per_file_failed_mono json_loads file_data file_result sh :
  failed_files sh
  <= failed_files (snd (_process_single_file_from_data json_loads file_data file_result sh)).
Proof.
  unfold _process_single_file_from_data, on_exception.
  repeat match goal with
  | |- context [match ?x with Ok _ => _ | Raise _ => _ end] => destruct x
  | |- context [if ?c then _ else _] => destruct c eqn:?
  end; simpl; lia.
Qed.

Section ArchiveFacts.
Variable json_loads : string -> option (option (gmap string value)).
Variable cancel_in : nat -> bool.
Variable bulk_job_id : string.

(** The loop keeps the results it was given and never counts a failure
    back. *)
Lemma bulk_loop_grows files : forall i st,
  let st' := bulk_loop json_loads cancel_in bulk_job_id i files st in
  loop_results st `prefix_of` loop_results st' /\
  failed_files (loop_shared st) <= failed_files (loop_shared st').
Proof.
  induction files as [|file_data rest IH]; intros i st; [done|].
  simpl. destruct (is_cancelled _ _); [done|].
  pose proof (per_file_failed_mono json_loads file_data (initial_result file_data i)
                (loop_shared st)) as Hmono.
  destruct (_process_single_file_from_data _ _ _ _) as [file_result sh]. simpl in Hmono.
  match goal with |- context [bulk_loop _ _ _ ?i' rest ?s] =>
    destruct (IH i' s) as [Hpre Hle] end.
  simpl in *. split; [|lia]. etrans; [|exact Hpre]. by apply prefix_app_r.
Qed.

(** X15: one archive that cannot be extracted fails the whole job of
    [_background_process_bulk_ultra_fast], the task that [bulk_parse_resumes]
    starts: the job ends "failed" with its counters and results as they were
    at registration, whatever the other files are and whatever is served
    meanwhile.  [_background_process_bulk] on the same upload ends
    "completed", with a failed result under the name of the archive among its
    results and at least one failure counted. *)
Theorem bad_archive_fails_ultra_fast_job save_batch files jobs job0 zip_name message :
  jobs !! bulk_job_id = Some job0 ->
  Zip zip_name (Raise message) ∈ files ->
  (exists job,
     last (_background_process_bulk_ultra_fast cancel_in bulk_job_id save_batch files jobs)
       ≫= observed bulk_job_id = Some job /\
     job_status job = failed /\
     total_files job = total_files job0 /\
     job_successful_files job = job_successful_files job0 /\
     job_failed_files job = job_failed_files job0 /\
     results job = results job0) /\
  (exists job,
     last (_background_process_bulk json_loads cancel_in bulk_job_id files jobs)
       ≫= observed bulk_job_id = Some job /\
     job_status job = completed /\
     1 <= job_failed_files job /\
     exists r, r ∈ results job /\ fr_filename r = zip_name /\ fr_status r = "failed").
Proof.
  intros Hjob Hin. split.
  - unfold _background_process_bulk_ultra_fast.
    destruct (stream_raises zip_name message files [] Hin) as [m ->]. simpl.
    unfold observed, set_failed. rewrite lookup_alter_eq.
    destruct (serve_is_Some cancel_in bulk_job_id 0 jobs) as [job1 Hjob1]; [by eexists|].
    rewrite Hjob1. simpl. eexists. split; [done|]. simpl.
    apply serve_status_only in Hjob1 as (j & Hj & Hsame).
    rewrite Hjob in Hj. inversion Hj; subst j.
    by destruct Hsame as [->| ->].
  - unfold _background_process_bulk.
    pose proof (collect_bad_archive zip_name message files [] [] 0 Hin) as Hbad.
    destruct (collect files [] [] 0) as [[all_files results0] failed0].
    destruct Hbad as (Hone & r & Hr & Hname & Hstatus).
    set (st0 := mkLoop _ _ _ _).
    pose proof (bulk_loop_grows all_files 0 st0) as [Hpre Hle].
    rewrite app_two, last_snoc. simpl. unfold observed, final_update.
    rewrite lookup_alter_eq.
    assert (is_Some (loop_jobs (bulk_loop json_loads cancel_in bulk_job_id 0 all_files st0)
                     !! bulk_job_id)) as Hloop.
    { apply bulk_loop_is_Some. subst st0. simpl. unfold set_total.
      rewrite lookup_alter_eq. apply fmap_is_Some, serve_is_Some. by eexists. }
    match goal with |- context [match ?l with [] => ?a | _ :: _ => ?c end !! _] =>
      assert (is_Some (match l with [] => a | _ :: _ => c end !! bulk_job_id)) as [job1 Hjob1]
    end.
    { destruct (batch_data_to_save _); [done|by apply serve_is_Some]. }
    rewrite Hjob1. simpl. eexists. split; [done|]. simpl.
    split; [done|]. subst st0. simpl in *. split; [lia|].
    exists r. split; [|done]. by eapply elem_of_prefix.
Qed.

Lemma bulk_loop_cancelled files i st :
  job_is bulk_job_id cancelled (loop_jobs st) ->
  bulk_loop json_loads cancel_in bulk_job_id i files st = st.
Proof.
  intros (job & Hjob & Hs). destruct files as [|file_data rest]; [done|].
  simpl. unfold is_cancelled. rewrite Hjob, Hs. by rewrite bool_decide_true.
Qed.

Lemma serve_cancels w jobs :
  cancel_in w = true -> job_is bulk_job_id processing jobs ->
  job_is bulk_job_id cancelled (serve cancel_in bulk_job_id w jobs).
Proof.
  intros Hc (job & Hjob & Hs). unfold serve, cancel_job. rewrite Hc, Hjob, Hs.
  rewrite bool_decide_false; [|intros Hin; by apply (bool_decide_pack _) in Hin].
  simpl. eexists. by rewrite lookup_insert_eq.
Qed.

Lemma progress_update_status s i sh all_results jobs :
  job_is bulk_job_id s jobs ->
  job_is bulk_job_id s (progress_update bulk_job_id i sh all_results jobs).
Proof.
  intros (job & Hjob & Hs). unfold progress_update. eexists.
  by rewrite lookup_alter_eq, Hjob.
Qed.

(** From file [i] on, with the first request served in window [c], the
    loop processes the files up to the one of that window and stops. *)
Lemma bulk_loop_until_cancelled files : forall i st c,
  job_is bulk_job_id processing (loop_jobs st) ->
  (forall w, i < w < c -> cancel_in w = false) -> cancel_in c = true ->
  i < c <= i + length files ->
  length (loop_results (bulk_loop json_loads cancel_in bulk_job_id i files st))
  = length (loop_results st) + (c - i).
Proof.
  induction files as [|file_data rest IH]; intros i st c Hjob Hquiet Hc Hi;
    [simpl in Hi; lia|].
  cbn [bulk_loop].
  assert (is_cancelled bulk_job_id (loop_jobs st) = false) as ->.
  { destruct Hjob as (job & Hjob & Hs). unfold is_cancelled. rewrite Hjob, Hs. done. }
  destruct (_process_single_file_from_data _ _ _ _) as [file_result sh].
  destruct (decide (i + 1 = c)) as [<-|Hne].
  - rewrite bulk_loop_cancelled; simpl; [rewrite length_app; simpl; lia|].
    by apply progress_update_status, serve_cancels.
  - rewrite (IH (i + 1) _ c); simpl.
    + rewrite length_app. simpl. lia.
    + apply progress_update_status. unfold serve. by rewrite Hquiet by lia.
    + intros w Hw. apply Hquiet. lia.
    + done.
    + simpl in Hi. lia.
Qed.

(** X16: a cancellation takes effect at the next file boundary of
    [_background_process_bulk].  Let the first cancellation request be served
    in window c, where window 0 is the collection of the files and window
    i + 1 the processing of the file with index i.  Then exactly c of the
    collected files are processed: the file in progress is finished and
    recorded, no later file is started, and the results of the job end as the
    entries of the collection (the archives that could not be extracted)
    followed by c more. *)
Theorem cancellation_takes_effect_at_next_file files jobs all_files results0 failed0 c :
  jobs !! bulk_job_id = Some new_job ->
  collect files [] [] 0 = (all_files, results0, failed0) ->
  (forall w, w < c -> cancel_in w = false) -> cancel_in c = true ->
  c <= length all_files ->
  exists job,
    last (_background_process_bulk json_loads cancel_in bulk_job_id files jobs)
      ≫= observed bulk_job_id = Some job /\
    length (results job) = length results0 + c /\
    results0 `prefix_of` results job.
Proof.
  intros Hnew Hcollect Hquiet Hc Hle. unfold _background_process_bulk. rewrite Hcollect.
  set (st0 := mkLoop _ _ _ _).
  pose proof (bulk_loop_grows all_files 0 st0) as [Hpre _].
  assert (length (loop_results (bulk_loop json_loads cancel_in bulk_job_id 0 all_files st0))
          = length results0 + c) as Hlen.
  { destruct c as [|c].
    - rewrite bulk_loop_cancelled; [subst st0; simpl; lia|]. subst st0. simpl.
      destruct (serve_cancels 0 jobs Hc) as (job & Hjob & Hs); [by exists new_job|].
      eexists. unfold set_total. by rewrite lookup_alter_eq, Hjob.
    - rewrite (bulk_loop_until_cancelled all_files 0 st0 (S c));
        [subst st0; simpl; lia| |intros w Hw; apply Hquiet; lia|exact Hc|lia].
      subst st0. simpl. unfold serve. rewrite Hquiet by lia.
      eexists. unfold set_total. by rewrite lookup_alter_eq, Hnew. }
  rewrite app_two, last_snoc. simpl. unfold observed, final_update.
  rewrite lookup_alter_eq.
  assert (is_Some (loop_jobs (bulk_loop json_loads cancel_in bulk_job_id 0 all_files st0)
                   !! bulk_job_id)) as Hloop.
  { apply bulk_loop_is_Some. subst st0. simpl. unfold set_total.
    rewrite lookup_alter_eq. apply fmap_is_Some, serve_is_Some. by eexists. }
  match goal with |- context [match ?l with [] => ?a | _ :: _ => ?d end !! _] =>
    assert (is_Some (match l with [] => a | _ :: _ => d end !! bulk_job_id)) as [job1 Hjob1]
  end.
  { destruct (batch_data_to_save _); [done|by apply serve_is_Some]. }
  rewrite Hjob1. simpl. eexists. split; [done|]. simpl. split; [done|]. by subst st0.
Qed.

End ArchiveFacts.

Lemma cancellation_takes_effect_at_next_file_witness :
  exists job,
    last (_background_process_bulk no_json during_first_file "job-1"
            [Regular file_sparse; Regular file_full] fresh_registry)
      ≫= observed "job-1" = Some job /\
    length (results job) = length (@nil FileResult) + 1 /\
    [] `prefix_of` results job.
Proof.
  apply (cancellation_takes_effect_at_next_file no_json during_first_file "job-1"
           [Regular file_sparse; Regular file_full] fresh_registry
           [file_sparse; file_full] [] 0 1).
  - vm_compute. reflexivity.
  - reflexivity.
  - intros w Hw. assert (w = 0) as -> by lia. reflexivity.
  - reflexivity.
  - simpl. lia.
Defined.

Lemma bad_archive_fails_ultra_fast_job_witness :
  (exists job,
     last (_background_process_bulk_ultra_fast never "job-1" (Ok tt)
             [Regular file_full; Zip "batch.zip" (Raise "File is not a zip file")]
             fresh_registry)
       ≫= observed "job-1" = Some job /\
     job_status job = failed /\
     total_files job = total_files new_job /\
     job_successful_files job = job_successful_files new_job /\
     job_failed_files job = job_failed_files new_job /\
     results job = results new_job) /\
  (exists job,
     last (_background_process_bulk no_json never "job-1"
             [Regular file_full; Zip "batch.zip" (Raise "File is not a zip file")]
             fresh_registry)
       ≫= observed "job-1" = Some job /\
     job_status job = completed /\
     1 <= job_failed_files job /\
     exists r, r ∈ results job /\ fr_filename r = "batch.zip" /\ fr_status r = "failed").
Proof.
  apply (bad_archive_fails_ultra_fast_job no_json never "job-1" (Ok tt)
           [Regular file_full; Zip "batch.zip" (Raise "File is not a zip file")]
           fresh_registry new_job "batch.zip" "File is not a zip file").
  - vm_compute. reflexivity.
  - rewrite !elem_of_cons. auto.
Defined.

End ResumeControllerFacts.

(* --------------------------------------------------------------------- *)
(** ** [error_handler.py]: the error metrics *)
(* --------------------------------------------------------------------- *)

Module ErrorHandlerFacts.
Import ErrorHandler.

Lemma value_of_inj t t' : value_of t = value_of t' -> t = t'.
Proof. by destruct t, t'. Qed.

Lemma handle_all_snoc errors e m :
  handle_all (errors ++ [e]) m = handle_error e.1.1 e.1.2 e.2 (handle_all errors m).
Proof. unfold handle_all. by rewrite fold_left_app. Qed.

Lemma count_of_snoc t errors e :
  count_of t (errors ++ [e]) = count_of t errors + (if decide (e.1.1 = t) then 1 else 0).
Proof.
  unfold count_of. rewrite filter_app, length_app, filter_cons, filter_nil.
  by destruct (decide (e.1.1 = t)).
Qed.

Lemma count_of_total errors :
  sum_list ((fun t => count_of t errors) <$> all_error_types) = length errors.
Proof.
  induction errors as [|e errors IH] using rev_ind; [done|].
  rewrite length_app. simpl. rewrite <- IH. simpl. rewrite !count_of_snoc.
  destruct e as [[[] msg] ctx]; simpl; lia.
Qed.

(** Appending and popping the head once the list is longer than 100 keeps
    the last 100 entries. *)
Lemma recent_step {A} (l : list A) (r : A) :
  let recent := drop (length l - 100) l ++ [r] in
  (if (100 <? length recent)%nat then drop 1 recent else recent)
  = drop (length (l ++ [r]) - 100) (l ++ [r]).
Proof.
  intros recent. subst recent. rewrite !length_app, length_drop. simpl.
  destruct (Nat.ltb_spec 100 (length l - (length l - 100) + 1)) as [Hbig|Hsmall].
  - rewrite drop_app_le by (rewrite length_drop; lia).
    rewrite drop_drop. rewrite drop_app_le by lia. do 2 f_equal. lia.
  - replace (length l - 100) with 0 by lia. replace (length l + 1 - 100) with 0 by lia.
    done.
Qed.

Lemma handled_metrics errors :
  let m := handle_all errors initial_metrics in
  total_errors m = length errors /\
  (forall t, default 0 (error_breakdown m !! value_of t) = count_of t errors) /\
  recent_errors m = drop (length errors - 100) (recorded <$> errors).
Proof.
  induction errors as [|e errors IH] using rev_ind; [done|].
  cbv zeta in *. rewrite handle_all_snoc.
  destruct IH as (Htotal & Hbreak & Hrecent).
  set (m := handle_all errors initial_metrics) in *.
  unfold handle_error. simpl. split; [|split].
  - rewrite Htotal, length_app. simpl. lia.
  - intros t. rewrite count_of_snoc. destruct (decide (e.1.1 = t)) as [->|Hne].
    + rewrite lookup_insert_eq. simpl. by rewrite Hbreak.
    + rewrite lookup_insert_ne by (intros Heq; by apply value_of_inj in Heq).
      rewrite Hbreak. lia.
  - rewrite Hrecent, fmap_app. simpl.
    rewrite <- (length_fmap recorded errors).
    rewrite (recent_step (recorded <$> errors) (recorded e)).
    by rewrite !length_app, !length_fmap.
Qed.

(** X17: the metrics that [handle_error] keeps.  After any sequence of
    errors handled from the initial metrics, total_errors is the number of
    errors handled, the breakdown holds for every error type the number of
    errors of that type (0 when the key is absent), so the breakdown adds up
    to the total; and recent_errors holds the entries of the last 100 errors,
    in the order they were handled: it never grows beyond 100. *)
Theorem error_metrics_invariants errors :
  let m := handle_all errors initial_metrics in
  total_errors m = length errors /\
  (forall t, default 0 (error_breakdown m !! value_of t) = count_of t errors) /\
  total_errors m
  = sum_list ((fun t => default 0 (error_breakdown m !! value_of t)) <$> all_error_types) /\
  recent_errors m = drop (length errors - 100) (recorded <$> errors) /\
  length (recent_errors m) <= 100.
Proof.
  intros m. destruct (handled_metrics errors) as (Htotal & Hbreak & Hrecent).
  fold m in Htotal, Hbreak, Hrecent.
  split; [done|]. split; [exact Hbreak|]. split; [|split; [done|]].
  - rewrite Htotal, <- (count_of_total errors). f_equal.
    apply list_fmap_ext. intros _ t _. symmetry. apply Hbreak.
  - rewrite Hrecent, length_drop, length_fmap. lia.
Qed.

Lemma last_slice_positive {A} (limit : Z) (l : list A) :
  (1 <= limit)%Z -> last_slice limit l = drop (length l - Z.to_nat limit) l.
Proof.
  intros Hl. unfold last_slice.
  destruct (Z.ltb_spec (- limit) 0); [|lia]. f_equal. lia.
Qed.

(** X18: what the recent-errors endpoint returns for a limit.  The count
    it reports is the length of the list it returns.  For a limit of at least
    1 the list holds the last min(limit, 100) stored errors (all of them when
    fewer are stored).  The limit has no lower bound: for limit 0 the slice
    [-0:] is the whole stored list, not an empty one, and for a negative
    limit the slice drops the first |limit| stored errors and returns the
    rest. *)
Theorem recent_errors_limit (limit : Z) (m : ErrorMetrics) :
  let shown := fst (recent_errors_endpoint limit m) in
  let stored := recent_errors m in
  snd (recent_errors_endpoint limit m) = length shown /\
  ((1 <= limit)%Z ->
     shown = drop (length stored - Z.to_nat (Z.min limit 100)) stored /\
     length shown = Nat.min (Z.to_nat (Z.min limit 100)) (length stored)) /\
  (limit = 0%Z -> shown = stored) /\
  ((limit < 0)%Z -> shown = drop (Z.to_nat (- limit)) stored).
Proof.
  intros shown stored. subst shown stored. unfold recent_errors_endpoint, get_recent_errors.
  simpl. split; [done|]. split; [|split].
  - intros Hl. rewrite last_slice_positive by lia. split; [done|].
    rewrite length_drop. lia.
  - intros ->. unfold last_slice. simpl. by rewrite Z.min_l by lia.
  - intros Hl. unfold last_slice. rewrite Z.min_l by lia.
    destruct (Z.ltb_spec (- limit) 0); [lia|].
    destruct (Z.min_spec (- limit) (Z.of_nat (length (recent_errors m)))) as [[_ ->]|[Hge ->]];
      [done|].
    rewrite Nat2Z.id. rewrite !drop_ge; [done|lia..].
Qed.

End ErrorHandlerFacts.

(* --------------------------------------------------------------------- *)
(** ** [text_preprocessor.py]: the contact sections *)
(* --------------------------------------------------------------------- *)

Module TextPreprocessorFacts.
Import Py TextPreprocessor.

Lemma split_on_nonempty c s : split_on c s <> [].
Proof.
  induction s as [|a s IH]; simpl; [done|].
  destruct (decide (a = c)); [done|]. by destruct (split_on c s).
Qed.

Lemma join_cons_ne sep x l : l <> [] -> join sep (x :: l) = x +:+ sep +:+ join sep l.
Proof. by destruct l. Qed.

Lemma join_head sep a w ws : join sep (String a w :: ws) = String a (join sep (w :: ws)).
Proof. by destruct ws. Qed.

(** Joining the lines gives the text back. *)
Lemma unlines_lines_of text : unlines (lines_of text) = text.
Proof.
  unfold unlines, lines_of, nl.
  induction text as [|a s IH]; [done|].
  cbn [split_on]. pose proof (split_on_nonempty "010" s) as Hs.
  destruct (decide (a = "010"%char)) as [->|Hne].
  - rewrite join_cons_ne by done. simpl. by rewrite IH.
  - destruct (split_on "010" s) as [|w ws]; [done|].
    by rewrite join_head, IH.
Qed.

Lemma last_slice_all {A} (n : nat) (l : list A) :
  length l <= n -> ErrorHandler.last_slice (Z.of_nat n) l = l.
Proof.
  intros Hle. unfold ErrorHandler.last_slice.
  destruct (Z.ltb_spec (- Z.of_nat n) 0) as [Hneg|Hzero].
  - rewrite Z.max_r by lia. done.
  - assert (n = 0) as -> by lia. destruct l; [done|simpl in Hle; lia].
Qed.

Lemma contact_section_loop_none lines : forall acc,
  Forall (fun line => any_keyword entering_keywords (strip (lower line)) = false) lines ->
  contact_section_loop lines false acc = acc.
Proof.
  induction lines as [|line rest IH]; intros acc Hall; [done|].
  apply Forall_cons in Hall as [Hline Hrest]. cbn [contact_section_loop].
  rewrite Hline. cbn [andb]. by apply IH.
Qed.

(** X19: [extract_contact_sections] always returns the three sections
    "header", "footer" and "contact_section", in this order.  For a text of at
    most 10 lines the header and the footer are both the whole text,
    unchanged: splitting at line breaks and joining again is the identity.
    When no line holds one of the keywords that open the contact section, the
    contact section is the empty string. *)
Theorem contact_sections_of_short_text text :
  let sections := extract_contact_sections text in
  fst <$> sections = ["header"; "footer"; "contact_section"] /\
  (length (lines_of text) <= 10 ->
     sections !! 0 = Some ("header", text) /\ sections !! 1 = Some ("footer", text)) /\
  (Forall (fun line => any_keyword entering_keywords (strip (lower line)) = false)
     (lines_of text) ->
     sections !! 2 = Some ("contact_section", "")).
Proof.
  intros sections. subst sections. unfold extract_contact_sections. split; [done|]. split.
  - intros Hshort. simpl. rewrite take_ge by done.
    rewrite (last_slice_all 10) by done. by rewrite unlines_lines_of.
  - intros Hnone. simpl. by rewrite contact_section_loop_none.
Qed.

End TextPreprocessorFacts.

(* --------------------------------------------------------------------- *)
(** ** [retry_processor.py]: the strategies *)
(* --------------------------------------------------------------------- *)

Module RetryStrategiesFacts.
Import Py RetryProcessor RetryStrategies.
Import ContactExtractorProofs.

Lemma merged_confidence_level (er pr ec pc same_email same_phone : bool) :
  (same_email = true -> er = true /\ ec = true) ->
  (same_phone = true -> pr = true /\ pc = true) ->
  ContactExtractor.merged_confidence (ContactExtractor.regex_confidence er pr)
    (ContactExtractor.context_confidence ec pc) same_email same_phone
  ∈ confidence_levels.
Proof.
  intros He Hp. unfold confidence_levels.
  destruct same_email, same_phone;
    try (destruct He as [-> ->]; [done|]); try (destruct Hp as [-> ->]; [done|]);
    repeat match goal with b : bool |- _ => destruct b end;
    match goal with |- ?x ∈ _ => let v := eval vm_compute in x in change x with v end;
    rewrite !elem_of_cons; auto 10.
Qed.

Lemma confidence_level re_findall re_sub text :
  ContactExtractor.confidence (ContactExtractor.extract_contact_info re_findall re_sub text)
  ∈ confidence_levels.
Proof.
  unfold ContactExtractor.extract_contact_info.
  rewrite combine_confidence, by_regex_confidence, by_context_confidence.
  apply merged_confidence_level; intros H; apply agree_truthy in H; tauto.
Qed.

Lemma level_above best c :
  best ∈ confidence_levels -> c ∈ confidence_levels ->
  PrimFloat.ltb best c = true -> PrimFloat.ltb 0.5%float c = true.
Proof.
  unfold confidence_levels. rewrite !elem_of_cons, !elem_of_nil.
  intros Hb Hc.
  repeat (destruct Hb as [->|Hb]); try done;
    repeat (destruct Hc as [->|Hc]); try done; vm_compute; done.
Qed.

Section StrategyFacts.
Context {R St : Type}.
Variable process_file : list byte -> string -> ResumeController.Answer string.
Variable re_findall : string -> bool -> string -> list string.
Variable re_sub : string -> string -> string -> string.
Variable processing_func : list byte -> string -> St -> Outcome R * St.

Lemma best_of_sections_invariant (sections : list (string * string)) :
  forall start : option ContactExtractor.ContactInfo * float,
  start.2 ∈ confidence_levels ->
  (forall ci, start.1 = Some ci ->
     PrimFloat.ltb 0.5%float (ContactExtractor.confidence ci) = true) ->
  let result :=
    fold_left
      (fun (best : option ContactExtractor.ContactInfo * float) (section : string * string) =>
         if str_truthy (strip section.2) then
           let contact_info := extract_contact_info re_findall re_sub section.2 in
           if PrimFloat.ltb best.2 (ContactExtractor.confidence contact_info)
           then (Some contact_info, ContactExtractor.confidence contact_info)
           else best
         else best)
      sections start in
  result.2 ∈ confidence_levels /\
  (forall ci, result.1 = Some ci ->
     PrimFloat.ltb 0.5%float (ContactExtractor.confidence ci) = true).
Proof.
  induction sections as [|section sections IH]; intros start Hlevel Hbest; [done|].
  simpl. apply IH.
  - destruct (str_truthy _); [|done].
    destruct (PrimFloat.ltb _ _); [apply confidence_level|done].
  - intros ci. destruct (str_truthy _); [|apply Hbest].
    destruct (PrimFloat.ltb _ _) eqn:Hlt; [|apply Hbest].
    simpl. intros Hci. inversion Hci; subst ci.
    eapply level_above; [exact Hlevel|apply confidence_level|exact Hlt].
Qed.

Lemma best_above_threshold sections ci :
  (best_of_sections re_findall re_sub sections).1 = Some ci ->
  PrimFloat.ltb 0.5%float (ContactExtractor.confidence ci) = true.
Proof.
  unfold best_of_sections.
  apply (best_of_sections_invariant sections (None, 0.0%float)).
  - unfold confidence_levels. simpl. rewrite !elem_of_cons. auto.
  - done.
Qed.

(** X20: the confidence test of [_process_with_manual_extraction] never
    fails.  A section replaces the best contact only with a confidence above
    the best so far, which starts at 0.0, and the contact extractor reports no
    confidence between 0 and 0.6; so whenever the loop over the sections
    leaves a best contact, its confidence is above 0.5 and the enhanced text
    is processed.  The fallback to the original content is taken only when
    the loop leaves no best contact. *)
Theorem manual_extraction_threshold_never_fails file_content filename st text :
  process_file file_content filename = ResumeController.Ok text ->
  _process_with_manual_extraction process_file re_findall re_sub processing_func
    file_content filename st
  = match (best_of_sections re_findall re_sub
             (TextPreprocessor.extract_contact_sections text)).1 with
    | Some contact_info =>
        processing_func (encode (_enhance_text_with_contact_info text contact_info))
          filename st
    | None => processing_func file_content filename st
    end.
Proof.
  intros Htext. unfold _process_with_manual_extraction. rewrite Htext.
  destruct (best_of_sections _ _ _).1 as [ci|] eqn:Hbest; [|done].
  by rewrite (best_above_threshold _ ci Hbest).
Qed.

End StrategyFacts.

Lemma manual_extraction_threshold_never_fails_witness :
  _process_with_manual_extraction sample_process_file ContactExtractor.sample_findall
    ContactExtractor.sample_sub sample_processing_func [] "cv.pdf" tt
  = match (best_of_sections ContactExtractor.sample_findall ContactExtractor.sample_sub
             (TextPreprocessor.extract_contact_sections ContactExtractor.sample_text)).1 with
    | Some contact_info =>
        sample_processing_func
          (encode (_enhance_text_with_contact_info ContactExtractor.sample_text contact_info))
          "cv.pdf" tt
    | None => sample_processing_func [] "cv.pdf" tt
    end.
Proof.
  apply (manual_extraction_threshold_never_fails sample_process_file
           ContactExtractor.sample_findall ContactExtractor.sample_sub
           sample_processing_func [] "cv.pdf" tt ContactExtractor.sample_text).
  reflexivity.
Defined.

End RetryStrategiesFacts.

(* --------------------------------------------------------------------- *)
(** ** [enhanced_resume_processor.py] *)
(* --------------------------------------------------------------------- *)

Module EnhancedResumeProcessorFacts.
Import Py RetryProcessor ErrorHandler EnhancedResumeProcessor.

Lemma required_fields_loop_Ok fields : forall parsed_data missing_fields result,
  required_fields_loop fields parsed_data missing_fields = ResumeController.Ok result ->
  exists found, result = missing_fields ++ found /\
    (found = [] -> forall field, field ∈ fields -> field_present parsed_data field).
Proof.
  induction fields as [|field rest IH]; intros parsed_data missing_fields result H; simpl in H.
  - inversion H; subst. exists []. split; [by rewrite app_nil_r|].
    intros _ field Hin. by apply elem_of_nil in Hin.
  - unfold strip_or_raise in H.
    destruct (parsed_data !! field) as [v|] eqn:Hv; simpl in H.
    + destruct v as [| | |s| |]; simpl in H; try discriminate.
      destruct (negb (str_truthy (strip s)) || bool_decide (lower (strip s) ∈ placeholders))
        eqn:Hbad.
      * apply IH in H as (found & -> & _). exists (field :: found).
        split; [by rewrite <- (assoc_L (++))|]. done.
      * apply IH in H as (found & -> & Hall). exists found. split; [done|].
        intros Hnil f Hin. apply elem_of_cons in Hin as [->|Hin]; [|by apply Hall].
        apply orb_false_iff in Hbad as [Ht Hp]. exists s. split; [done|].
        split; [by apply negb_false_iff|]. by apply bool_decide_eq_false in Hp.
    + (* absent key: the default is the empty string *)
      change (strip "") with "" in H. simpl in H.
      apply IH in H as (found & -> & _). exists (field :: found).
      split; [by rewrite <- (assoc_L (++))|]. done.
Qed.

Lemma validated_present parsed_data :
  _validate_required_fields parsed_data = ResumeController.Ok [] ->
  forall field, field ∈ required_fields -> field_present parsed_data field.
Proof.
  intros H. apply required_fields_loop_Ok in H as (found & Hnil & Hall).
  apply Hall. simpl in Hnil. done.
Qed.

Lemma present_truthy parsed_data field :
  field_present parsed_data field -> truthy (default PyNone (parsed_data !! field)) = true.
Proof.
  intros (s & -> & Ht & _). simpl. by apply ResumeControllerProofs.strip_truthy.
Qed.

(** Nothing is filled in when the record has its required fields. *)
Lemma fill_noop contact_info parsed_data :
  (forall field, field ∈ required_fields -> field_present parsed_data field) ->
  fill_from_contact_info contact_info parsed_data = parsed_data.
Proof.
  intros Hall. unfold fill_from_contact_info.
  rewrite (present_truthy parsed_data "Email") by (apply Hall; by apply (bool_decide_unpack _)).
  rewrite andb_false_r.
  rewrite (present_truthy parsed_data "Phone") by (apply Hall; by apply (bool_decide_unpack _)).
  by rewrite andb_false_r.
Qed.

Lemma finish_present contact_info file_type parsed_data :
  _validate_required_fields parsed_data = ResumeController.Ok [] ->
  core_parsed_data (finish contact_info file_type parsed_data)
    = delete "_processing_metadata" parsed_data /\
  forall field, field ∈ required_fields ->
    field_present (core_parsed_data (finish contact_info file_type parsed_data)) field.
Proof.
  intros H. pose proof (validated_present _ H) as Hall.
  unfold finish. simpl. rewrite (fill_noop _ _ Hall). split; [done|].
  intros field Hin. destruct (Hall field Hin) as (s & Hs & Ht & Hp).
  exists s. split; [|done]. rewrite lookup_delete_ne; [done|].
  intros <-. by apply (bool_decide_pack _) in Hin.
Qed.

Ltac core_cases :=
  unfold _process_resume_core;
  repeat match goal with
  | |- context [match ?x with ResumeController.Ok _ => _ | ResumeController.Raise _ => _ end] =>
      destruct x eqn:?
  | |- context [match ?l with [] => _ | _ :: _ => _ end] => destruct l eqn:?
  | |- context [if ?c then _ else _] => destruct c eqn:?
  end.

Section CoreFacts.
Variable process_file : list byte -> string -> ResumeController.Answer string.
Variable preprocess_text : string -> string.
Variable re_findall : string -> bool -> string -> list string.
Variable re_sub : string -> string -> string -> string.
Variable parse_resume_text : string -> ResumeController.Answer (gmap string value).
Variable now : string.

Lemma core_returns_present file_content filename m r m' :
  _process_resume_core process_file preprocess_text re_findall re_sub parse_resume_text now
    file_content filename m = (Returned r, m') ->
  m' = m /\
  forall field, field ∈ required_fields -> field_present (core_parsed_data r) field.
Proof.
  core_cases; intros H; inversion H; subst; (split; [done|]);
    by apply finish_present.
Qed.

(** X21: a record that [_process_resume_core] returns has its required
    fields.  Whatever the text extractor, the preprocessor, the regular
    expressions and the AI adapter do, a returned record holds under "Name",
    "Email" and "Phone" strings that are not blank and are none of the
    placeholders "unknown", "n/a", "none"; and a call that returns leaves the
    metrics of the error handler as they were. *)
Theorem core_result_has_required_fields file_content filename m r m' :
  _process_resume_core process_file preprocess_text re_findall re_sub parse_resume_text now
    file_content filename m = (Returned r, m') ->
  m' = m /\
  forall field, field ∈ required_fields -> field_present (core_parsed_data r) field.
Proof. apply core_returns_present. Qed.

(** X22: what [_process_resume_core] raises is an error of the taxonomy,
    of one of three classes.  Either it is the [AIParsingError] that wraps an
    exception of a collaborator ("Unexpected processing error: ..."), and then
    the metrics of the error handler are untouched; or it is a
    [TextExtractionError], an [AIParsingError] or a [ContactInfoMissingError]
    raised by the core itself, and then exactly that one error was recorded by
    [handle_error], under the type of its class and with the name of the
    file. *)
Theorem core_errors_are_classified file_content filename m e m' :
  _process_resume_core process_file preprocess_text re_findall re_sub parse_resume_text now
    file_content filename m = (Raises e, m') ->
  (exists message, e = converted message /\ m' = m) \/
  (exists class t message context,
     e = Taxonomy class message /\ error_type_of class = Some t /\
     class ∈ [TextExtractionError; AIParsingError; ContactInfoMissingError] /\
     m' = handle_error t message context m /\
     ctx_filename context = filename).
Proof.
  core_cases; intros H; inversion H; subst;
    try (left; by eexists);
    right; eexists _, _, _, _; (split; [done|]); (split; [done|]);
    (split; [rewrite !elem_of_cons; auto|]); (split; [reflexivity|done]).
Qed.

End CoreFacts.

Lemma core_result_has_required_fields_witness :
  exists r,
    _process_resume_core extracts_resume unchanged ContactExtractor.sample_findall
      ContactExtractor.sample_sub parses_fully "2024-05-01T10:00:00"
      sample_pdf "cv.pdf" initial_metrics = (Returned r, initial_metrics) /\
    forall field, field ∈ required_fields -> field_present (core_parsed_data r) field.
Proof.
  eexists. split; [vm_compute; reflexivity|].
  apply (core_result_has_required_fields extracts_resume unchanged
           ContactExtractor.sample_findall ContactExtractor.sample_sub parses_fully
           "2024-05-01T10:00:00" sample_pdf "cv.pdf" initial_metrics _ initial_metrics).
  vm_compute. reflexivity.
Defined.

Lemma core_errors_are_classified_witness :
  exists e m',
    _process_resume_core extracts_little unchanged ContactExtractor.sample_findall
      ContactExtractor.sample_sub parses_fully "2024-05-01T10:00:00"
      sample_pdf "cv.pdf" initial_metrics = (Raises e, m') /\
    ((exists message, e = converted message /\ m' = initial_metrics) \/
     (exists class t message context,
        e = Taxonomy class message /\ error_type_of class = Some t /\
        class ∈ [TextExtractionError; AIParsingError; ContactInfoMissingError] /\
        m' = handle_error t message context initial_metrics /\
        ctx_filename context = "cv.pdf")).
Proof.
  eexists _, _. split; [vm_compute; reflexivity|].
  apply (core_errors_are_classified extracts_little unchanged
           ContactExtractor.sample_findall ContactExtractor.sample_sub parses_fully
           "2024-05-01T10:00:00" sample_pdf "cv.pdf" initial_metrics).
  vm_compute. reflexivity.
Defined.

(** A strategy that returns a value has it from the processing function. *)
Lemma strategy_returns {R St} process_file preprocess_text re_findall re_sub
    (processing_func : list byte -> string -> St -> Outcome R * St)
    file_content filename strategy st r st' :
  RetryStrategies._process_with_strategy process_file preprocess_text re_findall re_sub
    processing_func file_content filename strategy st = (Returned r, st') ->
  exists content, processing_func content filename st = (Returned r, st').
Proof.
  destruct strategy; simpl.
  - by eexists.
  - unfold RetryStrategies._process_with_enhanced_preprocessing.
    destruct (process_file _ _); [|done]. by eexists.
  - unfold RetryStrategies._process_with_fallback_extraction.
    destruct (process_file _ _); [|done]. destruct (_ && _); by eexists.
  - unfold RetryStrategies._process_with_manual_extraction.
    destruct (process_file _ _); [|done].
    destruct (RetryStrategies.best_of_sections _ _ _).1; [|by eexists].
    destruct (PrimFloat.ltb _ _); by eexists.
Qed.

(** A successful result of the retry loop is what one attempt returned. *)
Lemma retry_loop_success {R} max_retries (run : nat -> RetryStrategy -> Outcome R) indices :
  forall attempts last_error res,
  retry_loop max_retries run indices attempts last_error = Some res ->
  res_success res = true ->
  exists i s r, run i s = Returned r /\ res_result res = Some r /\ res_error res = None.
Proof.
  induction indices as [|i rest IH]; intros attempts last_error res H Hs; [done|].
  simpl in H. destruct (run i _) as [r|[e msg|msg]] eqn:Hrun.
  - inversion H; subst res. by eexists _, _, _.
  - destruct (_ <=? _)%Z; [by inversion H; subst res|]. by eapply IH.
  - by inversion H; subst res.
Qed.

Section ProcessorFacts.
Variable process_file : list byte -> string -> ResumeController.Answer string.
Variable preprocess_text : string -> string.
Variable re_findall : string -> bool -> string -> list string.
Variable re_sub : string -> string -> string -> string.
Variable parse_resume_text_at : nat -> string -> ResumeController.Answer (gmap string value).
Variable now : string.

(** X23: [process_resume] turns away a file that fails validation before
    any processing: no attempt is made (the attempt log is absent) and the
    metrics of the processor are not touched, so such a file counts neither
    as processed nor as failed.  A metadata file name is reported as
    "file_type_unsupported"; an empty file as "file_corrupted" with "File is
    empty"; and a file above the size ceiling as "file_type_unsupported" too,
    with the message "File is too large (max 50MB)". *)
Theorem process_resume_rejects_before_processing file_content filename elapsed m :
  let r := fst (process_resume process_file preprocess_text re_findall re_sub
                  parse_resume_text_at now file_content filename elapsed m) in
  let m' := snd (process_resume process_file preprocess_text re_findall re_sub
                   parse_resume_text_at now file_content filename elapsed m) in
  (FileValidator._is_metadata_file filename = true ->
     pr_success r = false /\ pr_attempts r = None /\ m' = m /\
     pr_error r = Some (Built "file_type_unsupported" "This is a metadata file, not a resume")) /\
  (FileValidator._is_metadata_file filename = false -> file_content = [] ->
     pr_success r = false /\ pr_attempts r = None /\ m' = m /\
     pr_error r = Some (Built "file_corrupted" "File is empty")) /\
  (FileValidator._is_metadata_file filename = false ->
   (FileValidator.max_size < Z.of_nat (length file_content))%Z ->
     pr_success r = false /\ pr_attempts r = None /\ m' = m /\
     pr_error r = Some (Built "file_type_unsupported" "File is too large (max 50MB)")).
Proof.
  intros r m'. subst r m'. unfold process_resume, FileValidator.validate_file.
  destruct (FileValidator._is_metadata_file filename) eqn:Hmeta; simpl.
  { split; [done|]. split; intros; done. }
  split; [done|]. split.
  - intros _ ->. done.
  - intros _ Hbig. unfold FileValidator.max_size in *.
    destruct file_content as [|c content]; [simpl in Hbig; lia|].
    cbn [length Nat.eqb] in *.
    destruct (Z.ltb_spec (50 * 1024 * 1024) (Z.of_nat (S (length content)))); [done|lia].
Qed.

Lemma attempt_standard_extraction_raises file_content filename i message :
  process_file file_content filename = ResumeController.Raise message ->
  attempt process_file preprocess_text re_findall re_sub parse_resume_text_at now
    file_content filename i STANDARD = Raises (converted message).
Proof. intros H. unfold attempt. simpl. unfold _process_resume_core. by rewrite H. Qed.

Lemma attempt_enhanced_extraction_raises file_content filename i message :
  process_file file_content filename = ResumeController.Raise message ->
  attempt process_file preprocess_text re_findall re_sub parse_resume_text_at now
    file_content filename i ENHANCED_PREPROCESSING = Raises (Unexpected message).
Proof.
  intros H. unfold attempt. simpl.
  unfold RetryStrategies._process_with_enhanced_preprocessing. by rewrite H.
Qed.

Lemma retry_after_extraction_raises file_content filename message :
  process_file file_content filename = ResumeController.Raise message ->
  process_with_retry 3
    (attempt process_file preprocess_text re_findall re_sub parse_resume_text_at now
       file_content filename)
  = Some (mkResult false None (Some (Unexpected message))
            [mkAttempt 1 STANDARD false
               (Some (AIParsingError,
                      ai_parsing_message ("Unexpected processing error: " +:+ message)))]).
Proof.
  intros H.
  set (run := attempt process_file preprocess_text re_findall re_sub parse_resume_text_at now
                file_content filename).
  pose proof (attempt_standard_extraction_raises file_content filename 0 message H) as H0.
  pose proof (attempt_enhanced_extraction_raises file_content filename 1 message H) as H1.
  fold run in H0, H1.
  assert (strategy_at run 0 = STANDARD) as Hs0 by done.
  assert (strategy_at run 1 = ENHANCED_PREPROCESSING) as Hs1.
  { unfold strategy_at. cbn [last_error_at].
    change (_get_strategy_for_attempt 0 None) with STANDARD. by rewrite H0. }
  rewrite (RetryProcessorProofs.process_with_retry_unexpected 3 run 1 message).
  - change (seq 0 1) with [0]. cbn [omap list_omap]. unfold failed_entry.
    by rewrite Hs0, H0.
  - lia.
  - intros i Hi. assert (i = 0) as -> by lia. unfold fails_at.
    rewrite Hs0, H0. by eexists _, _.
  - by rewrite Hs1.
Qed.

(** X24: a file whose text cannot be extracted is retried once and then
    given up.  When the file passes validation and the text extractor raises
    on it, the first attempt (standard strategy) ends with the [AIParsingError]
    that wraps the exception and is logged; the second attempt (enhanced
    preprocessing) calls the extractor outside the core, so the same exception
    is now an unexpected one and aborts the loop: the result is a failure that
    reports the bare exception, with one logged attempt instead of four, and
    the file is counted as a failed parse. *)
Theorem extraction_failure_stops_retrying file_content filename elapsed m message :
  FileValidator.is_valid (fst (FileValidator.validate_file file_content filename)) = true ->
  process_file file_content filename = ResumeController.Raise message ->
  let r := fst (process_resume process_file preprocess_text re_findall re_sub
                  parse_resume_text_at now file_content filename elapsed m) in
  pr_success r = false /\
  pr_error r = Some (Reported (Unexpected message)) /\
  pr_attempts r
  = Some [mkAttempt 1 STANDARD false
            (Some (AIParsingError,
                   ai_parsing_message ("Unexpected processing error: " +:+ message)))] /\
  snd (process_resume process_file preprocess_text re_findall re_sub
         parse_resume_text_at now file_content filename elapsed m)
  = _update_metrics false elapsed m.
Proof.
  intros Hvalid Hraise r. subst r. unfold process_resume. rewrite Hvalid. simpl.
  by rewrite (retry_after_extraction_raises _ _ _ Hraise).
Qed.

(** X25: the metrics of the processor count the files that passed
    validation.  If total_processed = successful_parses + failed_parses
    before a call of [process_resume], the same holds after it; total_processed
    grows by one exactly when the file was valid, successful_parses by one
    exactly when the result is a success; and for a valid file the retry loop
    always comes back with a result. *)
Theorem processor_metrics_count_validated_files file_content filename elapsed m :
  total_processed m = successful_parses m + failed_parses m ->
  let r := fst (process_resume process_file preprocess_text re_findall re_sub
                  parse_resume_text_at now file_content filename elapsed m) in
  let m' := snd (process_resume process_file preprocess_text re_findall re_sub
                   parse_resume_text_at now file_content filename elapsed m) in
  let valid := FileValidator.is_valid (fst (FileValidator.validate_file file_content filename)) in
  total_processed m' = successful_parses m' + failed_parses m' /\
  total_processed m' = total_processed m + (if valid then 1 else 0) /\
  successful_parses m' = successful_parses m + (if pr_success r then 1 else 0) /\
  (valid = false -> m' = m /\ pr_success r = false) /\
  (valid = true -> is_Some (pr_attempts r)).
Proof.
  intros Hinv r m' valid. subst r m' valid. unfold process_resume.
  destruct (FileValidator.is_valid _) eqn:Hvalid; simpl; [|repeat split; (lia || done)].
  destruct (process_with_retry 3 _) as [res|] eqn:Hres.
  - destruct (res_success res); simpl; repeat split; try lia; try (intros; discriminate);
      by eexists.
  - exfalso.
    destruct (RetryProcessorProofs.retry_loop_returns 3
                (attempt process_file preprocess_text re_findall re_sub parse_resume_text_at
                   now file_content filename)
                4 0 [] None) as [res Hsome]; [lia..|].
    unfold process_with_retry, Py.range in Hres. simpl in Hres, Hsome.
    rewrite Hsome in Hres. discriminate.
Qed.

(** X26: a successful result of [process_resume] carries a record with
    its required fields.  Whatever strategy the successful attempt ran with
    and whatever the collaborators did, if the result is a success then the
    file passed validation, the result has no error, and its parsed data hold
    under "Name", "Email" and "Phone" strings that are not blank and are none
    of the placeholders "unknown", "n/a", "none". *)
Theorem successful_result_has_required_fields file_content filename elapsed m :
  let r := fst (process_resume process_file preprocess_text re_findall re_sub
                  parse_resume_text_at now file_content filename elapsed m) in
  pr_success r = true ->
  FileValidator.is_valid (fst (FileValidator.validate_file file_content filename)) = true /\
  pr_error r = None /\
  exists parsed,
    pr_parsed_data r = Some parsed /\
    forall field, field ∈ required_fields -> field_present (core_parsed_data parsed) field.
Proof.
  intros r. subst r. unfold process_resume.
  destruct (FileValidator.is_valid _) eqn:Hvalid; simpl; [|done].
  destruct (process_with_retry 3 _) as [res|] eqn:Hres; [|done].
  destruct (res_success res) eqn:Hs; simpl; [|done]. intros _.
  unfold process_with_retry in Hres.
  destruct (retry_loop_success _ _ _ _ _ _ Hres Hs) as (i & s & parsed & Hrun & Hresult & Herr).
  split; [done|]. split; [done|]. exists parsed. split; [done|].
  unfold attempt in Hrun.
  destruct (RetryStrategies._process_with_strategy _ _ _ _ _ _ _ _ _) as [o st'] eqn:Hstrat.
  simpl in Hrun. subst o.
  apply strategy_returns in Hstrat as [content Hcore].
  by apply core_returns_present in Hcore as [_ Hall].
Qed.

End ProcessorFacts.

Lemma extraction_failure_stops_retrying_witness :
  let r := fst (process_resume extraction_raises unchanged ContactExtractor.sample_findall
                  ContactExtractor.sample_sub (fun _ => parses_fully) "2024-05-01T10:00:00"
                  sample_pdf "cv.pdf" 0.25%float fresh_metrics) in
  pr_success r = false /\
  pr_error r
  = Some (Reported
            (Unexpected "Failed to process PDF file: cannot open broken document")) /\
  pr_attempts r
  = Some [mkAttempt 1 STANDARD false
            (Some (AIParsingError,
                   ai_parsing_message
                     ("Unexpected processing error: "
                      +:+ "Failed to process PDF file: cannot open broken document")))] /\
  snd (process_resume extraction_raises unchanged ContactExtractor.sample_findall
         ContactExtractor.sample_sub (fun _ => parses_fully) "2024-05-01T10:00:00"
         sample_pdf "cv.pdf" 0.25%float fresh_metrics)
  = _update_metrics false 0.25%float fresh_metrics.
Proof.
  apply (extraction_failure_stops_retrying extraction_raises unchanged
           ContactExtractor.sample_findall ContactExtractor.sample_sub
           (fun _ => parses_fully) "2024-05-01T10:00:00" sample_pdf "cv.pdf"
           0.25%float fresh_metrics
           "Failed to process PDF file: cannot open broken document").
  - vm_compute. reflexivity.
  - reflexivity.
Defined.

Lemma processor_metrics_count_validated_files_witness :
  let r := fst (process_resume extracts_resume unchanged ContactExtractor.sample_findall
                  ContactExtractor.sample_sub (fun _ => parses_fully) "2024-05-01T10:00:00"
                  sample_pdf "cv.pdf" 0.25%float fresh_metrics) in
  let m' := snd (process_resume extracts_resume unchanged ContactExtractor.sample_findall
                   ContactExtractor.sample_sub (fun _ => parses_fully) "2024-05-01T10:00:00"
                   sample_pdf "cv.pdf" 0.25%float fresh_metrics) in
  let valid := FileValidator.is_valid (fst (FileValidator.validate_file sample_pdf "cv.pdf")) in
  total_processed m' = successful_parses m' + failed_parses m' /\
  total_processed m' = total_processed fresh_metrics + (if valid then 1 else 0) /\
  successful_parses m' = successful_parses fresh_metrics + (if pr_success r then 1 else 0) /\
  (valid = false -> m' = fresh_metrics /\ pr_success r = false) /\
  (valid = true -> is_Some (pr_attempts r)).
Proof.
  apply (processor_metrics_count_validated_files extracts_resume unchanged
           ContactExtractor.sample_findall ContactExtractor.sample_sub
           (fun _ => parses_fully) "2024-05-01T10:00:00" sample_pdf "cv.pdf"
           0.25%float fresh_metrics).
  reflexivity.
Defined.

Lemma successful_result_has_required_fields_witness :
  let r := fst (process_resume extracts_resume unchanged ContactExtractor.sample_findall
                  ContactExtractor.sample_sub (fun _ => parses_fully) "2024-05-01T10:00:00"
                  sample_pdf "cv.pdf" 0.25%float fresh_metrics) in
  FileValidator.is_valid (fst (FileValidator.validate_file sample_pdf "cv.pdf")) = true /\
  pr_error r = None /\
  exists parsed,
    pr_parsed_data r = Some parsed /\
    forall field, field ∈ required_fields -> field_present (core_parsed_data parsed) field.
Proof.
  apply (successful_result_has_required_fields extracts_resume unchanged
           ContactExtractor.sample_findall ContactExtractor.sample_sub
           (fun _ => parses_fully) "2024-05-01T10:00:00" sample_pdf "cv.pdf"
           0.25%float fresh_metrics).
  vm_compute. reflexivity.
Defined.

End EnhancedResumeProcessorFacts.
